(** * Cross-validation scripts of the season-pass configuration

    A shallow embedding of the six validators of the repository
    (shop-offers, rfm-offers, quests-weekly, main-reward-lines,
    lottery-rewards, end-news-double-points) and the properties of their
    result ledger, loaders, indices and comparison modes.

    Conventions of the embedding:
    - a Python [str] is a Rocq [string] holding its UTF-8 bytes; character
      classes ([isspace], [isdigit], the regular expression class \d) are
      modelled on their ASCII members;
    - a Python value read from JSON, or passed to the logging API, is a
      [pyval]; Python [int] is [Z], Python [float] is a binary64 [float];
    - a Python [dict] is the list of its items in insertion order, so a key
      occurs at most once in a well-formed dict and lookup takes the first;
    - an exception is a value of [exn]; code that can raise returns a
      [result], and code that also writes the ledger returns an [outcome];
    - console output and the wall-clock time stamp of a log line are not
      part of the state. *)

From Stdlib Require Import ZArith List String Ascii Bool Lia.
From Stdlib Require Import Permutation Sorted.
From Stdlib Require Import Floats.PrimFloat Floats.SpecFloat Floats.FloatOps.
From Stdlib Require Import Numbers.DecimalString Numbers.DecimalZ.
Import ListNotations.

(** Decimal literals such as 0.001 denote the nearest binary64 value, as
    they do in Python. *)
#[global] Set Warnings "-inexact-float".

Local Open Scope string_scope.
Local Open Scope list_scope.
Local Open Scope Z_scope.

(* ================================================================== *)
(** * Python values and the builtins the scripts use                   *)
(* ================================================================== *)

Module Py.

Inductive exn :=
| AttributeError | TypeError | ValueError | KeyError | ZeroDivisionError
| UnboundLocalError.

(** [str(e)] for an exception, kept to the name of its class. *)
Definition exn_text (e : exn) : string :=
  match e with
  | AttributeError => "AttributeError"
  | TypeError => "TypeError"
  | ValueError => "ValueError"
  | KeyError => "KeyError"
  | ZeroDivisionError => "division by zero"
  | UnboundLocalError => "UnboundLocalError"
  end.

Inductive result (A : Type) :=
| Ok (a : A)
| Raise (e : exn).
Arguments Ok {A} a.
Arguments Raise {A} e.

Definition rbind {A B} (r : result A) (k : A -> result B) : result B :=
  match r with
  | Ok a => k a
  | Raise e => Raise e
  end.

#[local] Set Warnings "-register-all".
Inductive pyval :=
| VNone
| VBool (b : bool)
| VInt (n : Z)
| VFloat (f : float)
| VStr (s : string)
| VList (l : list pyval)
| VDict (d : list (string * pyval)).

(** A row of [csv.DictReader] for a line that has as many cells as the
    header: column header to cell text. The rows of the other lines are
    [csv_row]s. *)
Definition row := list (string * string).

(** A row of [csv.DictReader] for any line. The cells are filed under the
    names of the header; where the line is shorter than the header the
    reader files [None], and where it is longer it files the cells left
    over, as a list, under the key [None], which then comes last among the
    items of the row. *)
Record csv_row := {
  cells : list (string * option string);
  surplus : list string
}.

(** The [csv_row] of a line with as many cells as the header. *)
Definition full_row (r : row) : csv_row :=
  {| cells := map (fun kv => (fst kv, Some (snd kv))) r; surplus := [] |}.

Fixpoint assoc {A} (k : string) (d : list (string * A)) : option A :=
  match d with
  | [] => None
  | (k', v) :: d' => if String.eqb k k' then Some v else assoc k d'
  end.

(** [k in d] *)
Definition has_key {A} (k : string) (d : list (string * A)) : bool :=
  match assoc k d with Some _ => true | None => false end.

(** [req.get(k, '')] on a CSV row. *)
Definition row_get (k : string) (r : row) : string :=
  match assoc k r with Some v => v | None => "" end.

(** [v.get(k, dflt)]: only a dict has the method. *)
Definition get_or (k : string) (dflt : pyval) (v : pyval) : result pyval :=
  match v with
  | VDict d => Ok (match assoc k d with Some x => x | None => dflt end)
  | _ => Raise AttributeError
  end.

(** [v.get(k)] *)
Definition get (k : string) (v : pyval) : result pyval := get_or k VNone v.

Definition is_none (v : pyval) : bool :=
  match v with VNone => true | _ => false end.

(** The exact integer a finite binary64 value denotes, when it denotes one. *)
Definition float_to_Z (f : float) : option Z :=
  match Prim2SF f with
  | S754_zero _ => Some 0
  | S754_finite s m e =>
      let sgn := if s then (-1) else 1 in
      if 0 <=? e then Some (sgn * Z.pos m * 2 ^ e)
      else if Z.pos m mod 2 ^ (- e) =? 0
           then Some (sgn * (Z.pos m / 2 ^ (- e)))
           else None
  | _ => None
  end.

(** [len(v)], for its value on a list or a dict and for the [TypeError] of
    an object without a length; the length of a str counts its bytes here. *)
Definition py_len (v : pyval) : result Z :=
  match v with
  | VList l => Ok (Z.of_nat (List.length l))
  | VDict d => Ok (Z.of_nat (List.length d))
  | VStr s => Ok (Z.of_nat (String.length s))
  | _ => Raise TypeError
  end.

(** Truth value of a Python object. *)
Definition truthy (v : pyval) : bool :=
  match v with
  | VNone => false
  | VBool b => b
  | VInt n => negb (n =? 0)
  | VFloat f => negb (PrimFloat.eqb f 0%float)
  | VStr s => negb (String.eqb s "")
  | VList l => match l with [] => false | _ => true end
  | VDict d => match d with [] => false | _ => true end
  end.

(** [v == n] for an [int] n: numbers compare by value, [True] is 1. *)
Definition eq_int (v : pyval) (n : Z) : bool :=
  match v with
  | VInt m => m =? n
  | VBool b => (if b then 1 else 0) =? n
  | VFloat f => match float_to_Z f with Some m => m =? n | None => false end
  | _ => false
  end.

(** [v == s] for a [str] s. *)
Definition eq_str (v : pyval) (s : string) : bool :=
  match v with
  | VStr t => String.eqb t s
  | _ => false
  end.

(** ** Characters and strings *)

Definition is_digit (c : ascii) : bool :=
  let n := nat_of_ascii c in (48 <=? n)%nat && (n <=? 57)%nat.

Definition digit_val (c : ascii) : Z := Z.of_nat (nat_of_ascii c) - 48.

(** [str.isspace] on ASCII: tab to carriage return, the four separators
    0x1c..0x1f, and the space. *)
Definition is_space (c : ascii) : bool :=
  let n := nat_of_ascii c in
  ((9 <=? n)%nat && (n <=? 13)%nat) || ((28 <=? n)%nat && (n <=? 32)%nat).

Fixpoint lstrip_chars (cs : list ascii) : list ascii :=
  match cs with
  | c :: cs' => if is_space c then lstrip_chars cs' else cs
  | [] => []
  end.

Definition strip_chars (cs : list ascii) : list ascii :=
  rev (lstrip_chars (rev (lstrip_chars cs))).

(** [s.strip()] *)
Definition strip (s : string) : string :=
  string_of_list_ascii (strip_chars (list_ascii_of_string s)).

(** [req.get(k, '')] on a row of any line: the text of the cell, [None]
    where the line was too short, the empty text where the header has no
    such column. *)
Definition cell_or_empty (k : string) (r : csv_row) : option string :=
  match assoc k (cells r) with Some c => c | None => Some "" end.

(** [req.get(k, '').strip()]: [None] has no such method. *)
Definition stripped_cell (k : string) (r : csv_row) : result string :=
  match cell_or_empty k r with
  | Some s => Ok (strip s)
  | None => Raise AttributeError
  end.

(** A cell in an f-string. *)
Definition cell_text (c : option string) : string :=
  match c with Some s => s | None => "None" end.

(** [s.split(sep)] for a one-character separator: never the empty list. *)
Fixpoint split_on (sep : ascii) (s : string) : list string :=
  match s with
  | EmptyString => [EmptyString]
  | String c s' =>
      if Ascii.eqb c sep then EmptyString :: split_on sep s'
      else match split_on sep s' with
           | w :: ws => String c w :: ws
           | [] => [String c EmptyString]
           end
  end.

(** [s.isdigit()] on a text of ASCII characters: not empty, and decimal
    digits only. (On other texts the answer is in the Unicode tables of
    the interpreter; the properties that rest on a negative answer are
    stated for ASCII texts.) *)
Definition isdigit (s : string) : bool :=
  match list_ascii_of_string s with
  | [] => false
  | cs => forallb is_digit cs
  end.

(** The line feed. *)
Definition nl : string := String (ascii_of_nat 10) EmptyString.

(** [sub in s] for two [str]. *)
Definition contains (sub s : string) : bool :=
  match String.index 0 sub s with Some _ => true | None => false end.

(** [s.lower()] on the ASCII letters. *)
Definition lower_char (c : ascii) : ascii :=
  let n := nat_of_ascii c in
  if (65 <=? n)%nat && (n <=? 90)%nat then ascii_of_nat (n + 32) else c.

Fixpoint lower (s : string) : string :=
  match s with
  | EmptyString => EmptyString
  | String c s' => String (lower_char c) (lower s')
  end.

(** The longest run of digits at the head of a text, and the rest. *)
Fixpoint span_digits (cs : list ascii) : list ascii * list ascii :=
  match cs with
  | c :: cs' =>
      if is_digit c then let (ds, rest) := span_digits cs' in (c :: ds, rest)
      else ([], cs)
  | [] => ([], [])
  end.

(** [re.search(r'\((\d+)\)', s)]: group 1 of the leftmost run of digits
    enclosed in parentheses. *)
Fixpoint search_paren_number (cs : list ascii) : option string :=
  match cs with
  | [] => None
  | c :: rest =>
      if Ascii.eqb c "(" then
        match span_digits rest with
        | (d :: ds, ")"%char :: _) => Some (string_of_list_ascii (d :: ds))
        | _ => search_paren_number rest
        end
      else search_paren_number rest
  end.

(** [s.startswith(p)] *)
Definition startswith (p s : string) : bool := String.prefix p s.

(** [s.replace(old, '')] for a one-character [old]. *)
Fixpoint remove_char (old : ascii) (s : string) : string :=
  match s with
  | EmptyString => EmptyString
  | String c s' =>
      if Ascii.eqb c old then remove_char old s' else String c (remove_char old s')
  end.

(** Digits of an [int] literal: single underscores may separate digits. *)
Fixpoint parse_digits (cs : list ascii) (acc : Z) (prev_digit : bool) : option Z :=
  match cs with
  | [] => if prev_digit then Some acc else None
  | c :: cs' =>
      if is_digit c then parse_digits cs' (10 * acc + digit_val c) true
      else if Ascii.eqb c "_" && prev_digit
           then match cs' with
                | [] => None
                | _ => parse_digits cs' acc false
                end
           else None
  end.

(** The white space [int] skips around an ASCII literal: tab to carriage
    return, and the space (the separators 0x1c..0x1f are not skipped). *)
Definition is_int_space (c : ascii) : bool :=
  let n := nat_of_ascii c in
  ((9 <=? n)%nat && (n <=? 13)%nat) || (n =? 32)%nat.

Fixpoint skip_int_space (cs : list ascii) : list ascii :=
  match cs with
  | c :: cs' => if is_int_space c then skip_int_space cs' else cs
  | [] => []
  end.

(** [int(s)] on a [str]: surrounding white space, an optional sign, decimal
    digits. [None] stands for the [ValueError] Python raises; the limit the
    interpreter puts on the number of digits is left out. *)
Definition int_of_str (s : string) : option Z :=
  match rev (skip_int_space (rev (skip_int_space (list_ascii_of_string s)))) with
  | "-"%char :: cs => option_map Z.opp (parse_digits cs 0 false)
  | "+"%char :: cs => parse_digits cs 0 false
  | cs => parse_digits cs 0 false
  end.

(** [str(n)] for an [int]. *)
Definition str_of_Z (n : Z) : string := NilZero.string_of_int (Z.to_int n).

(** ** Indices

    A dict keyed by an [int]: its items in insertion order. *)
Definition index := list (Z * row).

Fixpoint index_get (k : Z) (m : index) : option row :=
  match m with
  | [] => None
  | (k', r) :: m' => if k =? k' then Some r else index_get k m'
  end.

(** [m[k] = r]: a key already there keeps its place and takes the new row. *)
Fixpoint index_set (k : Z) (r : row) (m : index) : index :=
  match m with
  | [] => [(k, r)]
  | (k', r') :: m' =>
      if k =? k' then (k', r) :: m' else (k', r') :: index_set k r m'
  end.

Definition index_keys (m : index) : list Z := map fst m.

End Py.
Import Py.

(* ================================================================== *)
(** * The result ledger shared by the six validators                   *)
(* ================================================================== *)

(** Every validator class carries the same logging API ([log_info],
    [log_check], [log_warning], [log_error], [print_header],
    [start_phase]) over the same fields; the six copies differ in the
    prefix of a log line, in the keys of an error record and in whether a
    warning or an error reaches the per-subject map. The map is called
    [offer_errors] (shop-offers, rfm-offers), [quest_errors]
    (quests-weekly), [action_errors] (main-reward-lines) and
    [config_errors] (lottery-rewards, end-news-double-points). *)

Module Ledger.

Inductive variant :=
| ShopOffers | RfmOffers | QuestsWeekly | MainRewardLines
| LotteryRewards | EndNews.

(** The identifier a check is filed under: [None], an [int] or a [str]. *)
Inductive key :=
| KNone
| KInt (n : Z)
| KStr (s : string).

Definition key_eqb (a b : key) : bool :=
  match a, b with
  | KNone, KNone => true
  | KInt n, KInt m => n =? m
  | KStr s, KStr t => String.eqb s t
  | _, _ => false
  end.

Definition key_val (k : key) : pyval :=
  match k with
  | KNone => VNone
  | KInt n => VInt n
  | KStr s => VStr s
  end.

(** A pass rate as the summaries compute it: the [int] 0 of the guarded
    branch, or [part / total * 100]. *)
Inductive rate :=
| RateZero
| RateOf (part total : Z).

(** A piece of formatted text: a literal, a value an f-string renders, or a
    rate rendered with one decimal. *)
Inductive frag :=
| Lit (s : string)
| Fmt (v : pyval)
| Pct (r : rate).

Definition msg := list frag.

Inductive level := INFO | CHECK_OK | CHECK_FAIL | WARNING | ERROR | HEADER.

Record log_line := { lvl : level; body : msg }.

(** An error record: the dict literal appended to the per-subject map. *)
Definition details := list (string * pyval).

Definition error_map := list (key * list details).

Record ledger := {
  errors : list msg;
  warnings : list string;
  info_logs : list log_line;
  total_checks : Z;
  passed_checks : Z;
  failed_checks : Z;
  warning_checks : Z;
  current_phase : string;
  subject_errors : error_map
}.

(** The fields as [__init__] sets them before anything is logged. *)
Definition empty_ledger : ledger :=
  {| errors := []; warnings := []; info_logs := [];
     total_checks := 0; passed_checks := 0; failed_checks := 0;
     warning_checks := 0; current_phase := ""; subject_errors := [] |}.

Fixpoint emap_get (k : key) (m : error_map) : option (list details) :=
  match m with
  | [] => None
  | (k', ds) :: m' => if key_eqb k k' then Some ds else emap_get k m'
  end.

(** [if k not in m: m[k] = []] followed by [m[k].append(d)]. *)
Fixpoint emap_append (k : key) (d : details) (m : error_map) : error_map :=
  match m with
  | [] => [(k, [d])]
  | (k', ds) :: m' =>
      if key_eqb k k' then (k', ds ++ [d]) :: m'
      else (k', ds) :: emap_append k d m'
  end.

Definition add_log (l : level) (b : msg) (L : ledger) : ledger :=
  {| errors := errors L; warnings := warnings L;
     info_logs := info_logs L ++ [{| lvl := l; body := b |}];
     total_checks := total_checks L; passed_checks := passed_checks L;
     failed_checks := failed_checks L; warning_checks := warning_checks L;
     current_phase := current_phase L; subject_errors := subject_errors L |}.

Definition add_error (m : msg) (L : ledger) : ledger :=
  {| errors := errors L ++ [m]; warnings := warnings L;
     info_logs := info_logs L;
     total_checks := total_checks L; passed_checks := passed_checks L;
     failed_checks := failed_checks L; warning_checks := warning_checks L;
     current_phase := current_phase L; subject_errors := subject_errors L |}.

Definition add_warning (m : string) (L : ledger) : ledger :=
  {| errors := errors L; warnings := warnings L ++ [m];
     info_logs := info_logs L;
     total_checks := total_checks L; passed_checks := passed_checks L;
     failed_checks := failed_checks L; warning_checks := warning_checks L;
     current_phase := current_phase L; subject_errors := subject_errors L |}.

Definition file_under (k : key) (d : details) (L : ledger) : ledger :=
  {| errors := errors L; warnings := warnings L; info_logs := info_logs L;
     total_checks := total_checks L; passed_checks := passed_checks L;
     failed_checks := failed_checks L; warning_checks := warning_checks L;
     current_phase := current_phase L;
     subject_errors := emap_append k d (subject_errors L) |}.

(** [self.stats[...] += 1] on the four counters. *)
Definition bump_total (L : ledger) : ledger :=
  {| errors := errors L; warnings := warnings L; info_logs := info_logs L;
     total_checks := total_checks L + 1; passed_checks := passed_checks L;
     failed_checks := failed_checks L; warning_checks := warning_checks L;
     current_phase := current_phase L; subject_errors := subject_errors L |}.

Definition bump_passed (L : ledger) : ledger :=
  {| errors := errors L; warnings := warnings L; info_logs := info_logs L;
     total_checks := total_checks L; passed_checks := passed_checks L + 1;
     failed_checks := failed_checks L; warning_checks := warning_checks L;
     current_phase := current_phase L; subject_errors := subject_errors L |}.

Definition bump_failed (L : ledger) : ledger :=
  {| errors := errors L; warnings := warnings L; info_logs := info_logs L;
     total_checks := total_checks L; passed_checks := passed_checks L;
     failed_checks := failed_checks L + 1; warning_checks := warning_checks L;
     current_phase := current_phase L; subject_errors := subject_errors L |}.

Definition bump_warning (L : ledger) : ledger :=
  {| errors := errors L; warnings := warnings L; info_logs := info_logs L;
     total_checks := total_checks L; passed_checks := passed_checks L;
     failed_checks := failed_checks L; warning_checks := warning_checks L + 1;
     current_phase := current_phase L; subject_errors := subject_errors L |}.

Definition set_phase (p : string) (L : ledger) : ledger :=
  {| errors := errors L; warnings := warnings L; info_logs := info_logs L;
     total_checks := total_checks L; passed_checks := passed_checks L;
     failed_checks := failed_checks L; warning_checks := warning_checks L;
     current_phase := p; subject_errors := subject_errors L |}.

(** The subject prefix of a check, warning or error line. *)
Definition subject_prefix (v : variant) (k : key) : msg :=
  match v with
  | ShopOffers | MainRewardLines => [Lit "Action "; Fmt (key_val k); Lit ": "]
  | RfmOffers => [Fmt (key_val k); Lit ": "]
  | QuestsWeekly => [Lit "Complexity "; Fmt (key_val k); Lit ": "]
  | LotteryRewards | EndNews => []
  end.

(** Whether the error record of a failed check carries a "tag" entry. *)
Definition tagged (v : variant) : bool :=
  match v with
  | LotteryRewards | EndNews => false
  | _ => true
  end.

Definition check_details (v : variant) (check_name : string)
    (expected actual detail tag : pyval) : details :=
  [("check", VStr check_name); ("expected", expected); ("actual", actual);
   ("details", detail)]
  ++ (if tagged v then [("tag", tag)] else []).

(** The text in parentheses after a check name, present when both values are. *)
Definition values_info (word : string) (expected actual : pyval) : msg :=
  if negb (is_none expected) && negb (is_none actual)
  then [Lit " (ожидалось: "; Fmt expected; Lit word; Fmt actual; Lit ")"]
  else [].

(** [log_check(subject, check_name, result, expected, actual, details, tag)] *)
Definition log_check (v : variant) (subject : key) (check_name : string)
    (result : bool) (expected actual detail tag : pyval) (L : ledger) : ledger :=
  let L := bump_total L in
  let line := subject_prefix v subject ++ [Lit check_name]
              ++ values_info ", фактически: " expected actual in
  if result then
    add_log CHECK_OK line (bump_passed L)
  else
    let L := bump_failed L in
    let L := file_under subject
               (check_details v check_name expected actual detail tag) L in
    let error_msg :=
      subject_prefix v subject ++ [Lit check_name]
      ++ values_info ", получено: " expected actual
      ++ (if truthy detail then [Lit " - "; Fmt detail] else []) in
    add_log CHECK_FAIL line (add_error error_msg L).

(** The record a warning leaves in the per-subject map, where it leaves one. *)
Definition warning_details (v : variant) (message : string) : details :=
  match v with
  | LotteryRewards => [("check", VStr "Предупреждение"); ("details", VStr message)]
  | _ => [("check", VStr "warning"); ("expected", VNone); ("actual", VNone);
          ("details", VStr message); ("tag", VStr "WARNING")]
  end.

Definition error_details (v : variant) (message : string) : details :=
  match v with
  | LotteryRewards => [("check", VStr "Ошибка"); ("details", VStr message)]
  | _ => [("check", VStr "error"); ("expected", VNone); ("actual", VNone);
          ("details", VStr message); ("tag", VStr "ERROR")]
  end.

(** Whether [log_warning] and [log_error] write the per-subject map: the
    end-news validator accepts a [check_id] and never uses it. *)
Definition files_notes (v : variant) (subject : key) : bool :=
  match v, subject with
  | EndNews, _ => false
  | _, KNone => false
  | _, _ => true
  end.

(** [log_warning(message, subject=None)] *)
Definition log_warning (v : variant) (message : string) (subject : key)
    (L : ledger) : ledger :=
  let L := bump_warning L in
  let L := if files_notes v subject
           then file_under subject (warning_details v message) L else L in
  let line := (if files_notes v subject then subject_prefix v subject else [])
              ++ [Lit message] in
  add_warning message (add_log WARNING line L).

(** [log_error(message, subject=None)]: no counter is touched. *)
Definition log_error (v : variant) (message : string) (subject : key)
    (L : ledger) : ledger :=
  let L := if files_notes v subject
           then file_under subject (error_details v message) L else L in
  let line := (if files_notes v subject then subject_prefix v subject else [])
              ++ [Lit message] in
  add_error [Lit message] (add_log ERROR line L).

(** [log_info(message)] *)
Definition log_info (message : msg) (L : ledger) : ledger :=
  add_log INFO message L.

(** [print_header(text)] *)
Definition print_header (text : string) (L : ledger) : ledger :=
  add_log HEADER [Lit text] L.

(** [start_phase(phase_name)] *)
Definition start_phase (v : variant) (phase_name : string) (L : ledger) : ledger :=
  let L := set_phase phase_name L in
  match v with
  | QuestsWeekly | MainRewardLines => print_header phase_name L
  | _ => print_header ("ФАЗА: " ++ phase_name)%string L
  end.

(** ** Runs of the logging API *)

(** One call of the logging API, as a validation phase issues it. *)
Inductive event :=
| EvCheck (subject : key) (check_name : string) (result : bool)
          (expected actual detail tag : pyval)
| EvWarning (message : string) (subject : key)
| EvError (message : string) (subject : key)
| EvInfo (message : msg)
| EvPhase (phase_name : string).

Definition step (v : variant) (L : ledger) (e : event) : ledger :=
  match e with
  | EvCheck k n r ex ac d t => log_check v k n r ex ac d t L
  | EvWarning m k => log_warning v m k L
  | EvError m k => log_error v m k L
  | EvInfo m => log_info m L
  | EvPhase p => start_phase v p L
  end.

Definition run (v : variant) (es : list event) (L : ledger) : ledger :=
  fold_left (step v) es L.

Definition is_check (e : event) : bool :=
  match e with EvCheck _ _ _ _ _ _ _ => true | _ => false end.

Definition is_passed (e : event) : bool :=
  match e with EvCheck _ _ true _ _ _ _ => true | _ => false end.

Definition is_failed (e : event) : bool :=
  match e with EvCheck _ _ false _ _ _ _ => true | _ => false end.

Definition is_warning (e : event) : bool :=
  match e with EvWarning _ _ => true | _ => false end.

Definition count (p : event -> bool) (es : list event) : Z :=
  Z.of_nat (List.length (filter p es)).

(** The outcomes of the checks logged so far, oldest first: one entry for
    each [CHECK:OK] or [CHECK:FAIL] line of the log. *)
Definition results (L : ledger) : list bool :=
  flat_map (fun l => match lvl l with
                     | CHECK_OK => [true]
                     | CHECK_FAIL => [false]
                     | _ => []
                     end) (info_logs L).

(** The record [d] is filed under [k]. *)
Definition filed (k : key) (d : details) (L : ledger) : Prop :=
  exists ds, emap_get k (subject_errors L) = Some ds /\ In d ds.

(** The record [d] is filed under some key. *)
Definition filed_somewhere (d : details) (L : ledger) : Prop :=
  exists k, filed k d L.

End Ledger.
Import Ledger.

(* ================================================================== *)
(** * Validation code: the ledger threaded through code that may raise *)
(* ================================================================== *)

Module Exec.

(** What a method leaves behind: its value and the ledger, or the
    exception that escapes it and the ledger as it was at that point. *)
Inductive outcome (A : Type) :=
| Done (a : A) (L : ledger)
| Throw (e : exn) (L : ledger).
Arguments Done {A} a L.
Arguments Throw {A} e L.

Definition M (A : Type) := ledger -> outcome A.

Definition ret {A} (a : A) : M A := fun L => Done a L.

Definition bind {A B} (m : M A) (k : A -> M B) : M B :=
  fun L =>
    match m L with
    | Done a L' => k a L'
    | Throw e L' => Throw e L'
    end.

(** A computation that does not touch the ledger. *)
Definition lift {A} (r : result A) : M A :=
  fun L => match r with Ok a => Done a L | Raise e => Throw e L end.

(** A call of the logging API. *)
Definition act (f : ledger -> ledger) : M unit := fun L => Done tt (f L).

(** [for x in xs: body(x)] *)
Fixpoint for_each {A} (xs : list A) (body : A -> M unit) : M unit :=
  match xs with
  | [] => ret tt
  | x :: xs' => bind (body x) (fun _ => for_each xs' body)
  end.

Definition final_ledger {A} (o : outcome A) : ledger :=
  match o with Done _ L => L | Throw _ L => L end.

Definition returns {A} (o : outcome A) : bool :=
  match o with Done _ _ => true | Throw _ _ => false end.

(** The sequence a [for] statement walks over: the elements of a list, the
    keys of a dict, the characters of a str; anything else is not iterable. *)
Definition iter (v : pyval) : result (list pyval) :=
  match v with
  | VList l => Ok l
  | VDict d => Ok (map (fun kv => VStr (fst kv)) d)
  | VStr s => Ok (map (fun c => VStr (String c EmptyString)) (list_ascii_of_string s))
  | _ => Raise TypeError
  end.

End Exec.
Import Exec.

Declare Scope exec_scope.
Delimit Scope exec_scope with exec.
Notation "x <- m ;; k" := (bind m (fun x => k))
  (at level 61, m at next level, right associativity) : exec_scope.
Notation "m ;;; k" := (bind m (fun _ => k))
  (at level 61, right associativity) : exec_scope.
Notation "x <~ r ;; k" := (rbind r (fun x => k))
  (at level 61, r at next level, right associativity) : exec_scope.
Local Open Scope exec_scope.

(* ================================================================== *)
(** * Loading the documents and printing the summary                   *)
(* ================================================================== *)

Module Loader.

(** What opening and parsing a file comes to: the parsed document, or the
    exception of [open], [json.load] or [csv.DictReader], with its text. *)
Inductive read (A : Type) :=
| Loaded (data : A)
| Failed (reason : string).
Arguments Loaded {A} data.
Arguments Failed {A} reason.

(** [_load_json(file_path)], the same method in the six classes: the broad
    [except Exception] turns a failure into an error without a subject and
    the empty dict. *)
Definition _load_json (v : variant) (file_path : string) (r : read pyval)
    (L : ledger) : pyval * ledger :=
  match r with
  | Loaded data =>
      (data, log_info [Lit "✓ JSON-файл "; Lit file_path;
                       Lit " успешно загружен"] L)
  | Failed reason =>
      (VDict [],
       log_error v ("Ошибка при загрузке JSON-файла " ++ file_path ++ ": "
                    ++ reason)%string KNone L)
  end.

(** [_load_csv(file_path)]: a failure gives the empty list. *)
Definition _load_csv {A} (v : variant) (file_path : string) (r : read (list A))
    (L : ledger) : list A * ledger :=
  match r with
  | Loaded data =>
      (data, log_info [Lit "✓ CSV-файл "; Lit file_path;
                       Lit " успешно загружен"] L)
  | Failed reason =>
      ([],
       log_error v ("Ошибка при загрузке CSV-файла " ++ file_path ++ ": "
                    ++ reason)%string KNone L)
  end.

(** What writing a report file comes to. *)
Inductive write :=
| Written
| WriteFailed (reason : string).

End Loader.
Import Loader.

Module Summary.

(** [(passed / total * 100) if total > 0 else 0] *)
Definition success_rate (passed total : Z) : rate :=
  if total >? 0 then RateOf passed total else RateZero.

(** [part / total * 100] with no test before it: true division by the
    [int] 0 raises. *)
Definition ratio (part total : Z) : result rate :=
  if total =? 0 then Raise ZeroDivisionError else Ok (RateOf part total).

(** The lines [print_summary] logs for the lists of errors and warnings of
    the end-news validator. *)
Fixpoint numbered (i : Z) (ms : list msg) : list msg :=
  match ms with
  | [] => []
  | m :: ms' => ([Fmt (VInt i); Lit ". "] ++ m) :: numbered (i + 1) ms'
  end.

Definition log_infos (ms : list msg) (L : ledger) : ledger :=
  fold_left (fun L m => log_info m L) ms L.

(** [print_summary()] of each class. Console output is left out, except
    that the f-strings the lottery variant prints are evaluated: they
    divide by [total]. *)
Definition print_summary (v : variant) (json_output : bool) : M unit :=
  fun L =>
    let total := total_checks L in
    let passed := passed_checks L in
    let failed := failed_checks L in
    let warns := warning_checks L in
    match v with
    | ShopOffers | RfmOffers =>
        let L := print_header "ИТОГОВЫЙ ОТЧЕТ" L in
        let L := log_infos
                   [[Lit "Всего проверок: "; Fmt (VInt total)];
                    [Lit "Успешных проверок: "; Fmt (VInt passed); Lit " (";
                     Pct (success_rate passed total); Lit "%)"];
                    [Lit "Неудачных проверок: "; Fmt (VInt failed)];
                    [Lit "Предупреждений: "; Fmt (VInt warns)]] L in
        Done tt (if failed >? 0 then print_header "СПИСОК ОШИБОК" L else L)
    | EndNews =>
        let L := print_header "РЕЗУЛЬТАТЫ ПРОВЕРОК" L in
        let L := log_info
                   [Lit "Всего проверок: "; Fmt (VInt total); Lit nl;
                    Lit "Успешных: "; Fmt (VInt passed); Lit " (";
                    Pct (success_rate passed total); Lit "%)"; Lit nl;
                    Lit "Ошибок: "; Fmt (VInt failed); Lit nl;
                    Lit "Предупреждений: "; Fmt (VInt warns); Lit nl] L in
        let L := match errors L with
                 | [] => L
                 | es =>
                     log_infos
                       ([Lit nl; Lit "ОШИБКИ ("; Fmt (VInt (Z.of_nat (List.length es)));
                         Lit "):"] :: numbered 1 es) L
                 end in
        let L := match warnings L with
                 | [] => L
                 | ws =>
                     log_infos
                       ([Lit nl; Lit "ПРЕДУПРЕЖДЕНИЯ (";
                         Fmt (VInt (Z.of_nat (List.length ws))); Lit "):"]
                        :: numbered 1 (map (fun w => [Lit w]) ws)) L
                 end in
        Done tt L
    | LotteryRewards =>
        let L := print_header "РЕЗУЛЬТАТЫ ПРОВЕРКИ" L in
        if json_output then Done tt L
        else
          match ratio passed total with
          | Raise e => Throw e L
          | Ok _ =>
              match ratio failed total with
              | Raise e => Throw e L
              | Ok _ => Done tt L
              end
          end
    | QuestsWeekly | MainRewardLines =>
        Done tt (print_header "РЕЗУЛЬТАТЫ ПРОВЕРКИ" L)
    end.

End Summary.

(* ================================================================== *)
(** * shop-offers                                                      *)
(* ================================================================== *)

Module ShopOffers.

(** The body of the loop of [__init__] that fills
    [requirements_by_action_id]: a row is taken when its Action cell is
    there and not empty; [int] is called under [try], and its [ValueError]
    becomes a warning without a subject. *)
Definition index_requirement (st : index * ledger) (req : row) : index * ledger :=
  let (idx, L) := st in
  match assoc "Action" req with
  | Some a =>
      if negb (String.eqb a "") then
        match int_of_str a with
        | Some action_id => (index_set action_id req idx, L)
        | None =>
            (idx, log_warning ShopOffers
                    ("Некорректный Action ID в требованиях: " ++ a)%string
                    KNone L)
        end
      else st
  | None => st
  end.

Definition requirements_by_action_id (requirements : list row) (L : ledger)
  : index * ledger :=
  fold_left index_requirement requirements ([], L).

(** A row whose Action cell is present, not empty, and not an integer. *)
Definition malformed_id (req : row) : bool :=
  match assoc "Action" req with
  | Some a => negb (String.eqb a "") &&
              match int_of_str a with Some _ => false | None => true end
  | None => false
  end.

(** A row without an Action cell, or with an empty one. *)
Definition missing_id (req : row) : bool :=
  match assoc "Action" req with
  | Some a => String.eqb a ""
  | None => true
  end.

(** The id a row is indexed under, when it has one. *)
Definition parsed_id (req : row) : option Z :=
  match assoc "Action" req with
  | Some a => if String.eqb a "" then None else int_of_str a
  | None => None
  end.

(** [s.replace(old, '')] for a non-empty [old]: [skip] characters of a match
    are still to be dropped. *)
Fixpoint remove_sub_from (old : string) (skip : nat) (s : string) : string :=
  match s with
  | EmptyString => EmptyString
  | String c s' =>
      match skip with
      | S n => remove_sub_from old n s'
      | O => if String.prefix old s
             then remove_sub_from old (String.length old - 1) s'
             else String c (remove_sub_from old O s')
      end
  end.

Definition remove_sub (old s : string) : string := remove_sub_from old O s.

(** The search of [validate_action_rewards] for the award of an item: the
    count of the first entry with type "item" and the given itemId. *)
Fixpoint find_item (entries : list pyval) (item_id : Z) : result (option pyval) :=
  match entries with
  | [] => Ok None
  | award :: rest =>
      ty <~ get "type" award ;;
      if eq_str ty "item" then
        id <~ get "itemId" award ;;
        if eq_int id item_id then
          c <~ get_or "count" (VInt 0) award ;; Ok (Some c)
        else find_item rest item_id
      else find_item rest item_id
  end.

(** The body of the loop over [req.items()] that checks the awards of one
    action, for an item whose cell is a text (the loop over needResources
    columns has the same shape; the items of the other kinds are dealt
    with in [ShopOffersChecks.for_items]). *)
Definition check_award_column (action_id : Z) (awards : pyval)
    (col : string * string) : M unit :=
  let (column, value) := col in
  if String.eqb value "" || negb (startswith "Award_" column) then ret tt
  else
    match split_on "(" column with
    | [p0; p1] =>
        let item_type := remove_sub "Award_" p0 in
        let item_id_str := remove_char ")" p1 in
        match int_of_str item_id_str, int_of_str value with
        | Some item_id, Some expected_count =>
            entries <- lift (iter awards) ;;
            found <- lift (find_item entries item_id) ;;
            act (log_check ShopOffers (KInt action_id)
                   ("Награда " ++ str_of_Z item_id ++ " (" ++ item_type
                    ++ ") в экшене")%string
                   (match found with
                    | Some actual_count => eq_int actual_count expected_count
                    | None => false
                    end)
                   (VInt expected_count)
                   (match found with
                    | Some actual_count => actual_count
                    | None => VStr "Не найдено"
                    end)
                   VNone (VStr "AWARD_CHECK"))
        | _, _ =>
            act (log_warning ShopOffers
                   ("Неправильное значение награды: " ++ value ++ " для "
                    ++ column)%string
                   (KInt action_id))
        end
    | _ =>
        act (log_warning ShopOffers
               ("Неправильный формат столбца награды: " ++ column)%string
               (KInt action_id))
    end.

(** The price comparison of [validate_action_offer_links], on both of its
    paths: [abs(actual_price_float - expected_price_float) < 0.001]. *)
Definition price_match (actual_price expected_price : float) : bool :=
  PrimFloat.ltb (PrimFloat.abs (PrimFloat.sub actual_price expected_price))
                0.001%float.

End ShopOffers.

(* ================================================================== *)
(** * quests-weekly                                                    *)
(* ================================================================== *)

Module QuestsWeekly.

(** The dict comprehension-like loop of [__init__] that fills
    [complexity_details]: [int] is called outside any [try], so a cell that
    is not an integer raises [ValueError] out of the constructor. *)
Fixpoint complexity_details (requirements : list row) (acc : index)
  : result index :=
  match requirements with
  | [] => Ok acc
  | req :: rest =>
      match assoc "complexity" req with
      | Some c =>
          if negb (String.eqb c "") then
            match int_of_str c with
            | Some id => complexity_details rest (index_set id req acc)
            | None => Raise ValueError
            end
          else complexity_details rest acc
      | None => complexity_details rest acc
      end
  end.

(** The search of [validate_quest_awards] for an award of a quest: the
    [count] entry of the first award whose itemId is the given one. *)
Fixpoint find_award (awards : list pyval) (item_id : Z) : result (option pyval) :=
  match awards with
  | [] => Ok None
  | award :: rest =>
      id <~ get "itemId" award ;;
      if eq_int id item_id then c <~ get "count" award ;; Ok (Some c)
      else find_award rest item_id
  end.

(** One of the two blocks of [validate_quest_awards] (written out in the
    source for item 17909 and for item 17908): the requirement column
    count(item_id) of the row, against the awards of the quest. *)
Definition check_award (complexity_id : Z) (awards : pyval) (req_details : row)
    (item_id : Z) : M unit :=
  let id := str_of_Z item_id in
  let req_count := row_get ("count(" ++ id ++ ")")%string req_details in
  if negb (String.eqb req_count "") && isdigit req_count then
    match int_of_str req_count with
    | None => lift (Raise ValueError)
    | Some expected =>
        entries <- lift (iter awards) ;;
        found <- lift (find_award entries item_id) ;;
        act (log_check QuestsWeekly (KInt complexity_id)
               ("Наличие награды itemId: " ++ id ++ " в квесте")%string
               (match found with Some _ => true | None => false end)
               (VStr "Присутствует")
               (VStr (match found with
                      | Some _ => "Присутствует"
                      | None => "Отсутствует"
                      end))
               (VStr ("Награда itemId: " ++ id
                      ++ " должна присутствовать в квесте")%string)
               (VStr ("AWARD_" ++ id ++ "_PRESENCE")%string)) ;;;
        match found with
        | Some actual =>
            act (log_check QuestsWeekly (KInt complexity_id)
                   ("Соответствие количества награды itemId: " ++ id)%string
                   (eq_int actual expected)
                   (VInt expected) actual
                   (VStr "Количество награды должно совпадать с указанным в requirements")
                   (VStr ("AWARD_" ++ id ++ "_COUNT")%string))
        | None => ret tt
        end
    end
  else ret tt.

(** The award checks of one complexity whose quest was found in the promo:
    [awards] is [quest.get('awards', {}).get('custom', [])]. *)
Definition validate_quest_awards (complexity_id : Z) (awards : pyval)
    (req_details : row) : M unit :=
  check_award complexity_id awards req_details 17909 ;;;
  check_award complexity_id awards req_details 17908.

End QuestsWeekly.

(* ================================================================== *)
(** * main-reward-lines                                                *)
(* ================================================================== *)

Module MainRewardLines.

(** The dict comprehensions of [__init__] for [free_actions] (column
    action_free) and [paid_actions] (column action_paid): [int] is called
    outside any [try]. *)
Fixpoint actions_by_column (column : string) (requirements : list row)
    (acc : index) : result index :=
  match requirements with
  | [] => Ok acc
  | req :: rest =>
      match assoc column req with
      | Some c =>
          if negb (String.eqb c "") then
            match int_of_str c with
            | Some id =>
                actions_by_column column rest (index_set id req acc)
            | None => Raise ValueError
            end
          else actions_by_column column rest acc
      | None => actions_by_column column rest acc
      end
  end.

Definition free_actions (requirements : list row) : result index :=
  actions_by_column "action_free" requirements [].

Definition paid_actions (requirements : list row) : result index :=
  actions_by_column "action_paid" requirements [].

End MainRewardLines.

(* ================================================================== *)
(** * rfm-offers                                                       *)
(* ================================================================== *)

Module RfmOffers.

(** ** Date normalization *)

(** [\d{n}] at the head of the text: the digits and what follows them. *)
Fixpoint take_digits (n : nat) (cs : list ascii)
  : option (list ascii * list ascii) :=
  match n with
  | O => Some ([], cs)
  | S n' =>
      match cs with
      | c :: cs' =>
          if is_digit c then
            match take_digits n' cs' with
            | Some (ds, rest) => Some (c :: ds, rest)
            | None => None
            end
          else None
      | [] => None
      end
  end.

(** A literal character at the head of the text. *)
Definition take_char (ch : ascii) (cs : list ascii) : option (list ascii) :=
  match cs with
  | c :: cs' => if Ascii.eqb c ch then Some cs' else None
  | [] => None
  end.

(** [re.match(r'(\d{4}-\d{2}-\d{2}) (\d):(\d{2}):(\d{2})', date_str)]: the
    pattern is anchored at the start only; the groups are the date, the
    one-digit hour, the minutes and the seconds. *)
Definition match_hour_pattern (date_str : string)
  : option (string * string * string * string) :=
  let cs := list_ascii_of_string date_str in
  match take_digits 4 cs with None => None | Some (y, cs) =>
  match take_char "-" cs with None => None | Some cs =>
  match take_digits 2 cs with None => None | Some (mo, cs) =>
  match take_char "-" cs with None => None | Some cs =>
  match take_digits 2 cs with None => None | Some (d, cs) =>
  match take_char " " cs with None => None | Some cs =>
  match take_digits 1 cs with None => None | Some (h, cs) =>
  match take_char ":" cs with None => None | Some cs =>
  match take_digits 2 cs with None => None | Some (mi, cs) =>
  match take_char ":" cs with None => None | Some cs =>
  match take_digits 2 cs with None => None | Some (s, _) =>
    Some (string_of_list_ascii (y ++ "-"%char :: mo ++ "-"%char :: d),
          string_of_list_ascii h,
          string_of_list_ascii mi,
          string_of_list_ascii s)
  end end end end end end end end end end end.

(** [s.zfill(2)] on an unsigned text. *)
Definition zfill2 (s : string) : string :=
  match s with
  | EmptyString => "00"
  | String c EmptyString => String "0" s
  | _ => s
  end.

Definition _normalize_date_format (date_str : string) : string :=
  if String.eqb date_str "" then ""
  else
    match match_hour_pattern date_str with
    | Some (date_part, hour, minute, second) =>
        (date_part ++ " " ++ zfill2 hour ++ ":" ++ minute ++ ":" ++ second)%string
    | None => date_str
    end.

(** ** Segment lists *)

(** [[x.strip() for x in cell.split(',') if x.strip()]] *)
Definition segments_of (cell : string) : list string :=
  filter (fun x => negb (String.eqb x "")) (map strip (split_on "," cell)).

Fixpoint insert_sorted (x : string) (l : list string) : list string :=
  match l with
  | [] => [x]
  | y :: l' => if String.leb x y then x :: l else y :: insert_sorted x l'
  end.

(** [l.sort()] on a list of [str]: the order is the one of the code points,
    which is the order of the UTF-8 bytes. *)
Fixpoint sort (l : list string) : list string :=
  match l with
  | [] => []
  | x :: l' => insert_sorted x (sort l')
  end.

Fixpoint list_eqb (l1 l2 : list string) : bool :=
  match l1, l2 with
  | [], [] => true
  | x :: l1', y :: l2' => String.eqb x y && list_eqb l1' l2'
  | _, _ => false
  end.

(** The loop of [validate_rfm_files] over [settingsByConditions]: the text of
    isNotInOneOfRFM30Segments in the first setting whose [conditions] has
    it. The membership test works on a dict, a str or a list, and only on
    a dict can the entry then be read and split. *)
Fixpoint find_segments (settings : list pyval) : result (option string) :=
  match settings with
  | [] => Ok None
  | condition_setting :: rest =>
      conditions <~ get_or "conditions" (VDict []) condition_setting ;;
      match conditions with
      | VDict d =>
          match assoc "isNotInOneOfRFM30Segments" d with
          | Some (VStr s) => Ok (Some s)
          | Some _ => Raise AttributeError
          | None => find_segments rest
          end
      | VStr s =>
          if contains "isNotInOneOfRFM30Segments" s then Raise TypeError
          else find_segments rest
      | VList l =>
          if existsb (fun x => eq_str x "isNotInOneOfRFM30Segments") l
          then Raise TypeError
          else find_segments rest
      | _ => Raise TypeError
      end
  end.

(** The comparison of the segment check: sorted sequences, compared as
    sequences, and nothing matches when no setting carries the segments. *)
Definition segments_match (expected_cell : string) (found : option string) : bool :=
  match found with
  | Some actual_cell =>
      list_eqb (sort (segments_of expected_cell)) (sort (segments_of actual_cell))
  | None => false
  end.

(** Step 4 of [validate_rfm_files] for one offer. The cell is read with
    [req.get('segment', '').split(',')], which raises on the [None] of a
    line too short to have the cell, before anything is logged. *)
Definition check_segments (offer_name : string) (req : csv_row)
    (settings_by_conditions : pyval) : M unit :=
  match cell_or_empty "segment" req with
  | None => lift (Raise AttributeError)
  | Some cell =>
      let expected_segments := sort (segments_of cell) in
      settings <- lift (iter settings_by_conditions) ;;
      found <- lift (find_segments settings) ;;
      act (log_check RfmOffers (KStr offer_name)
             "Сегменты в settingsByConditions"
             (segments_match cell found)
             (VStr (String.concat "," expected_segments))
             (VStr (match found with
                    | Some actual_cell =>
                        String.concat "," (sort (segments_of actual_cell))
                    | None => "Не найдено"
                    end))
             VNone (VStr "SEGMENTS_CHECK"))
  end.

(** ** Prices *)

(** The result of the price check of [validate_action_rewards_and_resources]:
    [price_found and abs(actual_price - expected_price) < 0.001]. *)
Definition price_result (price_found : bool) (actual_price expected_price : float)
  : bool :=
  price_found &&
  PrimFloat.ltb (PrimFloat.abs (PrimFloat.sub actual_price expected_price))
                0.001%float.

End RfmOffers.

(* ================================================================== *)
(** * end-news-double-points                                           *)
(* ================================================================== *)

Module EndNews.

Section WithStr.

(** The builtin [str] on a value read from JSON. *)
Variable py_str : pyval -> string.

Record validator := {
  end_news_promo : pyval;
  double_points_promo : pyval;
  promo : pyval;
  requirements : list row;
  requirements_by_alias : list (string * row)
}.

(** [m[k] = r] on a dict keyed by a [str]. *)
Fixpoint alias_set (k : string) (r : row) (m : list (string * row))
  : list (string * row) :=
  match m with
  | [] => [(k, r)]
  | (k', r') :: m' =>
      if String.eqb k k' then (k', r) :: m' else (k', r') :: alias_set k r m'
  end.

Definition index_by_alias (reqs : list row) : list (string * row) :=
  fold_left (fun m req =>
               match assoc "alias" req with
               | Some a => if negb (String.eqb a "") then alias_set a req m else m
               | None => m
               end) reqs [].

(** [__init__]: the header, the four loads, the index by alias. *)
Definition init (end_news_promo_file double_points_promo_file promo_file
                 requirements_file : string)
    (r_end r_double r_promo : read pyval) (r_req : read (list row))
    (L : ledger) : validator * ledger :=
  let L := print_header "ВАЛИДАЦИЯ ОКОН НАПОМИНАНИЙ И ДВОЙНЫХ ОЧКОВ" L in
  let L := log_info [Lit "Файлы для проверки:"] L in
  let L := log_info [Lit "- Промо окна завершения: "; Lit end_news_promo_file] L in
  let L := log_info [Lit "- Промо двойных очков: "; Lit double_points_promo_file] L in
  let L := log_info [Lit "- Основное промо: "; Lit promo_file] L in
  let L := log_info [Lit "- Требования: "; Lit requirements_file] L in
  let (e, L) := _load_json EndNews end_news_promo_file r_end L in
  let (d, L) := _load_json EndNews double_points_promo_file r_double L in
  let (p, L) := _load_json EndNews promo_file r_promo L in
  let (reqs, L) := _load_csv EndNews requirements_file r_req L in
  ({| end_news_promo := e; double_points_promo := d; promo := p;
      requirements := reqs; requirements_by_alias := index_by_alias reqs |}, L).

(** [','.join(map(str, items)) if isinstance(items, list) else str(items)] *)
Definition items_text (items : pyval) : string :=
  match items with
  | VList l => String.concat "," (map py_str l)
  | _ => py_str items
  end.

(** [x or dflt] where [dflt] is a text. *)
Definition or_text (x : pyval) (dflt : string) : pyval :=
  if truthy x then x else VStr dflt.

(** [next((f for f in filters if f.get('type') == 'ActionContain' and
    f.get('conditions', {}).get('actions', {}).get('compare') == word),
    None)] *)
Fixpoint find_filter (word : string) (filters : list pyval)
  : result (option pyval) :=
  match filters with
  | [] => Ok None
  | f :: rest =>
      ty <~ get "type" f ;;
      if eq_str ty "ActionContain" then
        c <~ get_or "conditions" (VDict []) f ;;
        a <~ get_or "actions" (VDict []) c ;;
        cmp <~ get "compare" a ;;
        if eq_str cmp word then Ok (Some f) else find_filter word rest
      else find_filter word rest
  end.

(** [f.get('conditions', {}).get('actions', {}).get('items', [])] *)
Definition filter_items (f : pyval) : result pyval :=
  c <~ get_or "conditions" (VDict []) f ;;
  a <~ get_or "actions" (VDict []) c ;;
  get_or "items" (VList []) a.

(** [self.promo.get('parameters', {}).get(name, dflt)] *)
Definition promo_parameter (V : validator) (name : string) (dflt : pyval)
  : result pyval :=
  params <~ get_or "parameters" (VDict []) (promo V) ;;
  get_or name dflt params.

Definition check (check_id check_name : string) (result : bool)
    (expected actual detail : pyval) : M unit :=
  act (log_check EndNews (KStr check_id) check_name result expected actual
         detail VNone).

(** [validate_end_news()]. The local [req_not] is bound in the branch that
    found the "not" filter and nowhere else: [None] below stands for the
    name being unbound when step 3 reads it. *)
Definition validate_end_news (V : validator) : M unit :=
  match assoc "end news" (requirements_by_alias V) with
  | None =>
      act (log_error EndNews "Не найдены требования для 'end news' в таблице" KNone)
  | Some end_news_req =>
      let req_from := row_get "from" end_news_req in
      let req_to := row_get "to" end_news_req in
      promo_from <- lift (get_or "from" (VStr "") (end_news_promo V)) ;;
      promo_to <- lift (get_or "to" (VStr "") (end_news_promo V)) ;;
      check "end_news_dates_from" "Дата начала показа окна завершения акции"
            (eq_str promo_from req_from) (VStr req_from) promo_from VNone ;;;
      check "end_news_dates_to" "Дата окончания показа окна завершения акции"
            (eq_str promo_to req_to) (VStr req_to) promo_to VNone ;;;
      filters_val <- lift (get_or "filters" (VList []) (end_news_promo V)) ;;
      filters <- lift (iter filters_val) ;;
      any_filter <- lift (find_filter "any" filters) ;;
      match any_filter with
      | Some f =>
          items <- lift (filter_items f) ;;
          let any_items_str := items_text items in
          let req_any := row_get "any" end_news_req in
          check "end_news_any_condition"
                "Условие показа 'any' окна завершения акции"
                (String.eqb req_any any_items_str)
                (VStr req_any) (VStr any_items_str) VNone
      | None =>
          act (log_error EndNews
                 "Не найдено условие 'ActionContain' с compare='any' в фильтрах окна завершения акции"
                 KNone)
      end ;;;
      filters' <- lift (iter filters_val) ;;
      not_filter <- lift (find_filter "not" filters') ;;
      req_not <-
        match not_filter with
        | Some f =>
            items <- lift (filter_items f) ;;
            let not_items_str := items_text items in
            let req_not := row_get "not" end_news_req in
            check "end_news_not_condition"
                  "Условие показа 'not' окна завершения акции"
                  (String.eqb req_not not_items_str)
                  (VStr req_not) (VStr not_items_str) VNone ;;;
            ret (Some req_not)
        | None =>
            act (log_error EndNews
                   "Не найдено условие 'ActionContain' с compare='not' в фильтрах окна завершения акции"
                   KNone) ;;;
            ret None
        end ;;
      season_pass_actions <- lift (promo_parameter V "seasonPassActions" (VList [])) ;;
      if truthy season_pass_actions then
        let season_pass_actions_str := items_text season_pass_actions in
        match req_not with
        | None => lift (Raise UnboundLocalError)
        | Some req_not =>
            check "end_news_season_pass_actions"
                  "Соответствие значений 'not' и 'seasonPassActions'"
                  (String.eqb req_not season_pass_actions_str)
                  (VStr req_not) (VStr season_pass_actions_str)
                  (VStr "Значения 'not' из требований должны соответствовать 'seasonPassActions' в promo.json")
        end
      else
        act (log_error EndNews
               "Не найден параметр 'seasonPassActions' в основном файле промо"
               KNone)
  end.

(** The value in parentheses of an alias, when it has one. *)
Definition alias_number (req : row) : option string :=
  let alias := row_get "alias" req in
  if String.eqb alias "" then None
  else search_paren_number (list_ascii_of_string alias).

(** [validate_double_points()] *)
Definition validate_double_points (V : validator) : M unit :=
  match assoc "double points(2)" (requirements_by_alias V) with
  | None =>
      act (log_error EndNews
             "Не найдены требования для 'double points(2)' в таблице" KNone)
  | Some double_points_req =>
      let req_from := row_get "from" double_points_req in
      let req_to := row_get "to" double_points_req in
      promo_from <- lift (get_or "from" (VStr "") (double_points_promo V)) ;;
      promo_to <- lift (get_or "to" (VStr "") (double_points_promo V)) ;;
      check "double_points_dates_from" "Дата начала показа окна двойных очков"
            (eq_str promo_from req_from) (VStr req_from) promo_from VNone ;;;
      check "double_points_dates_to" "Дата окончания показа окна двойных очков"
            (eq_str promo_to req_to) (VStr req_to) promo_to VNone ;;;
      let req_multiplier_date := row_get "MultiplierTurnOn" double_points_req in
      promo_multiplier_date <-
        lift (promo_parameter V "promotionAwardMultiplierTurnOn" (VStr "")) ;;
      (if negb (String.eqb req_multiplier_date "") then
         check "double_points_multiplier_date" "Дата включения множителя"
               (eq_str promo_multiplier_date req_multiplier_date)
               (VStr req_multiplier_date)
               (or_text promo_multiplier_date "Не найдено в основном промо")
               (VStr "Параметр promotionAwardMultiplierTurnOn в promo.json")
       else ret tt) ;;;
      let multiplier_value := alias_number double_points_req in
      raw <- lift (promo_parameter V "promotionAwardMultiplier" (VStr "")) ;;
      let promo_multiplier_value := py_str raw in
      match multiplier_value with
      | Some m =>
          (* the group of \d+ is never empty, so it is true *)
          check "double_points_multiplier_value" "Значение множителя очков"
                (String.eqb m promo_multiplier_value)
                (VStr m)
                (or_text (VStr promo_multiplier_value) "Не найдено в основном промо")
                (VStr "Параметр promotionAwardMultiplier в promo.json")
      | None =>
          act (log_warning EndNews
                 "Не удалось извлечь значение множителя из алиаса 'double points(2)'"
                 KNone)
      end
  end.

(** The first row whose alias contains the given text. *)
Fixpoint find_alias_containing (sub : string) (m : list (string * row))
  : option row :=
  match m with
  | [] => None
  | (alias, req) :: m' =>
      if negb (String.eqb alias "") && contains sub alias then Some req
      else find_alias_containing sub m'
  end.

(** [validate_items_to_cash_exchange()] *)
Definition validate_items_to_cash_exchange (V : validator) : M unit :=
  let exchange_req :=
    match assoc "itemsToCashExchange(15)" (requirements_by_alias V) with
    | Some r => Some r
    | None => find_alias_containing "itemsToCashExchange" (requirements_by_alias V)
    end in
  match exchange_req with
  | None =>
      act (log_error EndNews
             "Не найдены требования для 'itemsToCashExchange' в таблице" KNone)
  | Some exchange_req =>
      let exchange_rate := alias_number exchange_req in
      raw <- lift (promo_parameter V "itemsToCashExchange" (VStr "")) ;;
      let promo_exchange_rate := py_str raw in
      match exchange_rate with
      | Some rate =>
          check "items_to_cash_exchange_rate" "Курс обмена кэша на очки"
                (String.eqb rate promo_exchange_rate)
                (VStr rate)
                (or_text (VStr promo_exchange_rate) "Не найдено в основном промо")
                (VStr "Параметр itemsToCashExchange в promo.json")
      | None =>
          act (log_warning EndNews
                 "Не удалось извлечь значение курса обмена из алиаса для itemsToCashExchange"
                 KNone)
      end
  end.

Definition phase_end_news : string :=
  "ПРОВЕРКА ОКНА НАПОМИНАНИЯ О ЗАВЕРШЕНИИ АКЦИИ".
Definition phase_double_points : string := "ПРОВЕРКА ОКНА ДВОЙНЫХ ОЧКОВ".
Definition phase_exchange : string := "ПРОВЕРКА КУРСА ОБМЕНА КЭША НА ОЧКИ".

(** [validate_all()] *)
Definition validate_all (V : validator) (json_output : bool) : M unit :=
  act (start_phase EndNews phase_end_news) ;;;
  validate_end_news V ;;;
  act (start_phase EndNews phase_double_points) ;;;
  validate_double_points V ;;;
  act (start_phase EndNews phase_exchange) ;;;
  validate_items_to_cash_exchange V ;;;
  Summary.print_summary EndNews json_output.

(** The run of [main] up to the summary, from the outcome of the four
    loads. *)
Definition run_validation (r_end r_double r_promo : read pyval)
    (r_req : read (list row)) (json_output : bool) : outcome unit :=
  let (V, L) := init "end-news-promo.json" "double-points-promo.json"
                     "promo.json" "requirements.csv"
                     r_end r_double r_promo r_req empty_ledger in
  validate_all V json_output L.

End WithStr.

(** The phases a run has entered, in order. *)
Definition phases_entered (L : ledger) : list string :=
  flat_map (fun l => match lvl l, body l with
                     | HEADER, [Lit t] =>
                         if startswith "ФАЗА: " t then [t] else []
                     | _, _ => []
                     end) (info_logs L).

End EndNews.

(* ================================================================== *)
(** * lottery-rewards                                                  *)
(* ================================================================== *)

Module Lottery.

Section WithStr.

(** The builtin [str] on a value read from JSON. *)
Variable py_str : pyval -> string.

Record validator := {
  promo : pyval;
  requirements : list csv_row;
  actions : pyval;
  season_pass_actions : option string;
  requirements_by_action_id : list (string * list csv_row);
  actions_by_id : list (string * pyval);
  verbose : bool;
  json_output : bool
}.

(** [m[k] = x] on a dict keyed by a [str]. *)
Fixpoint dict_set {A} (k : string) (x : A) (m : list (string * A))
  : list (string * A) :=
  match m with
  | [] => [(k, x)]
  | (k', x') :: m' =>
      if String.eqb k k' then (k', x) :: m' else (k', x') :: dict_set k x m'
  end.

(** [_get_season_pass_actions()]: the whole body is under [try], and any
    exception becomes an error without a subject and [None]. *)
Definition _get_season_pass_actions (promo : pyval) (L : ledger)
  : option string * ledger :=
  let failed e :=
    (None, log_error LotteryRewards
             ("Ошибка при получении ID сезонного пропуска: " ++ exn_text e)%string
             KNone L) in
  match (params <~ get_or "parameters" (VDict []) promo ;;
         get_or "seasonPassActions" (VList []) params) with
  | Raise e => failed e
  | Ok spa =>
      if negb (truthy spa) then
        (None, log_warning LotteryRewards
                 "В promo.json не найден параметр seasonPassActions" KNone L)
      else
        match iter spa with
        | Raise e => failed e
        | Ok ids => (Some (String.concat "," (map py_str ids)), L)
        end
  end.

(** The grouping loop of [__init__]: a row with an action id opens a group,
    the rows without one that follow it join the group. The cell is read
    with [req.get('action', '').strip()], which raises on the [None] of a
    line too short to have the cell. *)
Fixpoint group_rows (reqs : list csv_row) (current : option string)
    (group : list csv_row) (m : list (string * list csv_row))
  : result (list (string * list csv_row)) :=
  match reqs with
  | [] =>
      Ok (match current, group with
          | Some id, _ :: _ => dict_set id group m
          | _, _ => m
          end)
  | req :: rest =>
      action_id <~ stripped_cell "action" req ;;
      if negb (String.eqb action_id "") then
        group_rows rest (Some action_id) [req]
          (match current with
           | Some id => dict_set id group m
           | None => m
           end)
      else
        match current with
        | Some _ => group_rows rest current (group ++ [req]) m
        | None => group_rows rest current group m
        end
  end.

(** The loop of [__init__] over the actions: [action.get] on each. *)
Fixpoint index_actions (acts : list pyval) (m : list (string * pyval))
  : result (list (string * pyval)) :=
  match acts with
  | [] => Ok m
  | action :: rest =>
      action_id <~ get "@id" action ;;
      if truthy action_id
      then index_actions rest (dict_set (py_str action_id) action m)
      else index_actions rest m
  end.

(** [__init__]: the grouping loop comes before the loop over the actions,
    and nothing catches what either raises. *)
Definition init (promo_file requirements_file actions_file : string)
    (r_promo : read pyval) (r_req : read (list csv_row)) (r_actions : read pyval)
    (verbose json_output : bool) : M validator :=
  fun L =>
    let L := print_header "ВАЛИДАЦИЯ КОНФИГУРАЦИИ ЛОТЕРЕИ SEASONPASS" L in
    let L := log_info [Lit "Файлы для проверки:"] L in
    let L := log_info [Lit "- Промо: "; Lit promo_file] L in
    let L := log_info [Lit "- Требования: "; Lit requirements_file] L in
    let L := log_info [Lit "- Экшены: "; Lit actions_file] L in
    let (p, L) := _load_json LotteryRewards promo_file r_promo L in
    let (reqs, L) := _load_csv LotteryRewards requirements_file r_req L in
    let (acts, L) := _load_json LotteryRewards actions_file r_actions L in
    let (spa, L) := _get_season_pass_actions p L in
    let L := match spa with
             | Some s =>
                 if negb (String.eqb s "")
                 then log_info [Lit "Извлечены ID сезонного пропуска: "; Lit s] L
                 else L
             | None => L
             end in
    match (groups <~ group_rows reqs None [] [] ;;
           entries <~ iter acts ;;
           by_id <~ index_actions entries [] ;;
           Ok (groups, by_id)) with
    | Raise e => Throw e L
    | Ok (groups, by_id) =>
        Done {| promo := p; requirements := reqs; actions := acts;
                season_pass_actions := spa;
                requirements_by_action_id := groups;
                actions_by_id := by_id;
                verbose := verbose; json_output := json_output |} L
    end.

Definition check (check_name : string) (result : bool)
    (expected actual detail : pyval) (check_id : string) : M unit :=
  act (log_check LotteryRewards (KStr check_id) check_name result expected
         actual detail VNone).

Definition presence_word (b : bool) : pyval :=
  VStr (if b then "присутствует" else "отсутствует").

(** [validate_actions_presence()] *)
Definition validate_actions_presence (V : validator) : M unit :=
  let action_ids := map fst (requirements_by_action_id V) in
  act (log_info [Lit "Найдено "; Fmt (VInt (Z.of_nat (List.length action_ids)));
                 Lit " экшенов в требованиях: ";
                 Lit (String.concat ", " action_ids)]) ;;;
  for_each action_ids (fun action_id =>
    awards <- lift (get_or "awards" (VList []) (promo V)) ;;
    entries <- lift (iter awards) ;;
    let promo_actions := map py_str entries in
    let present := existsb (String.eqb action_id) promo_actions in
    check ("Экшен " ++ action_id ++ " присутствует в промо (awards)")%string
          present (VStr "присутствует") (presence_word present) VNone action_id) ;;;
  for_each action_ids (fun action_id =>
    let present := has_key action_id (actions_by_id V) in
    check ("Экшен " ++ action_id ++ " присутствует в конфиге экшенов")%string
          present (VStr "присутствует") (presence_word present) VNone action_id).

(** The text the content phase logs for one award of a packet. *)
Definition describe_award (award : pyval) : result msg :=
  award_type <~ get_or "type" (VStr "") award ;;
  award_count <~ get_or "count" (VStr "") award ;;
  award_item_id <~ get_or "itemId" (VStr "") award ;;
  Ok ([Lit "["; Fmt award_type]
      ++ (if truthy award_count then [Lit ", "; Fmt award_count] else [])
      ++ (if truthy award_item_id then [Lit ", ID:"; Fmt award_item_id] else [])
      ++ [Lit "]"]).

Fixpoint describe_awards (awards : list pyval) : result (list msg) :=
  match awards with
  | [] => Ok []
  | a :: rest =>
      d <~ describe_award a ;;
      ds <~ describe_awards rest ;;
      Ok (d :: ds)
  end.

(** [', '.join(awards_str)] *)
Fixpoint join_msgs (ds : list msg) : msg :=
  match ds with
  | [] => []
  | d :: rest =>
      match rest with
      | [] => d
      | _ => d ++ [Lit ", "] ++ join_msgs rest
      end
  end.

(** The line of information for packet number [i]. *)
Definition describe_packet (i : Z) (packet : pyval) : result msg :=
  packet_prob <~ get_or "probability" (VStr "") packet ;;
  packet_alias <~ get_or "alias" (VStr "") packet ;;
  awards <~ get_or "awards" (VList []) packet ;;
  entries <~ iter awards ;;
  ds <~ describe_awards entries ;;
  Ok ([Lit "  Пакет #"; Fmt (VInt (i + 1)); Lit ": prob="; Fmt packet_prob;
       Lit ", alias="; Fmt packet_alias; Lit ", награды: "]
      ++ join_msgs ds).

Fixpoint log_packets (i : Z) (packets : list pyval) : M unit :=
  match packets with
  | [] => ret tt
  | packet :: rest =>
      line <- lift (describe_packet i packet) ;;
      act (log_info line) ;;;
      log_packets (i + 1) rest
  end.

(** [award_type.lower()]: the type of an award must be a str. *)
Definition lower_of (v : pyval) : result string :=
  match v with
  | VStr s => Ok (lower s)
  | _ => Raise AttributeError
  end.

(** The inner loop of the search: whether some award of the packet has the
    required type, count and item id (an empty requirement matches). *)
Fixpoint award_matches (item_type count item_id : string) (awards : list pyval)
  : result bool :=
  match awards with
  | [] => Ok false
  | award :: rest =>
      award_type <~ get_or "type" (VStr "") award ;;
      c <~ get_or "count" (VStr "") award ;;
      let award_count := py_str c in
      low <~ lower_of award_type ;;
      raw_id <~ (if String.eqb low "buff"
                 then get_or "id" (VStr "") award
                 else get_or "itemId" (VStr "") award) ;;
      let award_item_id := py_str raw_id in
      let type_match := String.eqb item_type "" || String.eqb low (lower item_type) in
      let count_match := String.eqb count "" || String.eqb award_count count in
      let item_id_match := String.eqb item_id "" || String.eqb award_item_id item_id in
      if type_match && count_match && item_id_match then Ok true
      else award_matches item_type count item_id rest
  end.

(** The outer loop: the packets with the required probability. *)
Fixpoint packet_matches (item_type count item_id probability : string)
    (packets : list pyval) : result bool :=
  match packets with
  | [] => Ok false
  | packet :: rest =>
      p <~ get_or "probability" (VStr "") packet ;;
      let packet_probability := py_str p in
      awards <~ get_or "awards" (VList []) packet ;;
      if String.eqb packet_probability probability then
        entries <~ iter awards ;;
        found <~ award_matches item_type count item_id entries ;;
        if found then Ok true
        else packet_matches item_type count item_id probability rest
      else packet_matches item_type count item_id probability rest
  end.

(** The words that name a reward in the text of its check. *)
Definition reward_display (item_type item_id count : string) : string :=
  let d := if String.eqb item_type "" then "" else ("типа " ++ item_type)%string in
  let d := if String.eqb item_id "" then d
           else if String.eqb d "" then ("с ID " ++ item_id)%string
                else (d ++ " с ID " ++ item_id)%string in
  if String.eqb count "" then d
  else if String.eqb d "" then ("в количестве " ++ count)%string
       else (d ++ " в количестве " ++ count)%string.

Definition found_word (b : bool) : pyval :=
  VStr (if b then "найдена" else "не найдена").

(** The outer loop for a row whose probability cell is [None]: the text
    of no probability equals [None], so the packets are read and none is
    searched. *)
Fixpoint no_packet_matches (packets : list pyval) : result bool :=
  match packets with
  | [] => Ok false
  | packet :: rest =>
      _ <~ get_or "probability" (VStr "") packet ;;
      _ <~ get_or "awards" (VList []) packet ;;
      no_packet_matches rest
  end.

(** What a cell asks of an award: [None], like the empty text, has a false
    truth value and asks for nothing. *)
Definition asked (c : option string) : string :=
  match c with Some s => s | None => "" end.

(** The check of one requirement row against the packets of its action. *)
Definition check_requirement (action_id : string) (packets : list pyval)
    (req : csv_row) : M unit :=
  let item_type := cell_or_empty "type" req in
  let count := cell_or_empty "count" req in
  let item_id := cell_or_empty "itemId" req in
  let probability := cell_or_empty "probability" req in
  found_packet <- lift (match probability with
                        | Some p =>
                            packet_matches (asked item_type) (asked count)
                              (asked item_id) p packets
                        | None => no_packet_matches packets
                        end) ;;
  check ("Награда "
         ++ reward_display (asked item_type) (asked item_id) (asked count)
         ++ " в экшене " ++ action_id ++ " с вероятностью "
         ++ cell_text probability ++ "%")%string
        found_packet (VStr "найдена") (found_word found_packet)
        (VStr ("type=" ++ cell_text item_type ++ ", count=" ++ cell_text count
               ++ ", itemId=" ++ cell_text item_id ++ ", probability="
               ++ cell_text probability)%string)
        action_id.

(** [validate_actions_content()] *)
Definition validate_actions_content (V : validator) : M unit :=
  for_each (requirements_by_action_id V) (fun group =>
    let (action_id, reqs) := group in
    match assoc action_id (actions_by_id V) with
    | None =>
        act (log_error LotteryRewards
               ("Невозможно проверить наполнение экшена " ++ action_id
                ++ ", так как он отсутствует в конфиге")%string
               (KStr action_id))
    | Some action_config =>
        act (log_info [Lit "Проверка наполнения для экшена "; Lit action_id]) ;;;
        award_packets <- lift (get_or "awardPackets" (VList []) action_config) ;;
        if negb (truthy award_packets) then
          act (log_error LotteryRewards
                 ("В конфиге для экшена " ++ action_id
                  ++ " отсутствуют пакеты наград (awardPackets)")%string
                 (KStr action_id))
        else
          n <- lift (py_len award_packets) ;;
          act (log_info [Lit "Найдено "; Fmt (VInt n);
                         Lit " пакетов наград для экшена "; Lit action_id]) ;;;
          packets <- lift (iter award_packets) ;;
          log_packets 0 packets ;;;
          for_each reqs (check_requirement action_id packets)
    end).

(** [validate_need_action()] *)
Definition validate_need_action (V : validator) : M unit :=
  match season_pass_actions V with
  | Some spa =>
      if String.eqb spa "" then
        act (log_warning LotteryRewards
               "Невозможно проверить параметр needAction: не найдены ID сезонного пропуска"
               KNone)
      else
        for_each (map fst (requirements_by_action_id V)) (fun action_id =>
          match assoc action_id (actions_by_id V) with
          | None =>
              act (log_error LotteryRewards
                     ("Невозможно проверить параметр needAction для экшена "
                      ++ action_id ++ ", так как он отсутствует в конфиге")%string
                     (KStr action_id))
          | Some action_config =>
              need_action <- lift (get_or "needAction" (VStr "") action_config) ;;
              let present := truthy need_action in
              check ("Наличие параметра needAction в экшене " ++ action_id)%string
                    present (VStr "Присутствует")
                    (VStr (if present then "Присутствует" else "Отсутствует"))
                    VNone action_id ;;;
              if present then
                check ("Параметр needAction в экшене " ++ action_id
                       ++ " соответствует ID сезонного пропуска")%string
                      (eq_str need_action spa) (VStr spa) need_action VNone
                      action_id
              else ret tt
          end)
  | None =>
      act (log_warning LotteryRewards
             "Невозможно проверить параметр needAction: не найдены ID сезонного пропуска"
             KNone)
  end.

(** [validate_all()] *)
Definition validate_all (V : validator) : M unit :=
  act (start_phase LotteryRewards "Проверка наличия экшенов в промо и конфиге") ;;;
  validate_actions_presence V ;;;
  act (start_phase LotteryRewards "Проверка наполнения экшенов") ;;;
  validate_actions_content V ;;;
  act (start_phase LotteryRewards "Проверка параметра needAction") ;;;
  validate_need_action V ;;;
  Summary.print_summary LotteryRewards (json_output V).

(** [save_report_to_csv(output_file)] and [save_detailed_log(output_file)],
    as far as the ledger goes: a line of information when the file was
    written, an error without a subject when writing raised. *)
Definition save_report_to_csv (output_file : string) (w : write) (L : ledger)
  : ledger :=
  match w with
  | Written => log_info [Lit "Отчет сохранен в "; Lit output_file] L
  | WriteFailed reason =>
      log_error LotteryRewards
        ("Ошибка при сохранении отчета: " ++ reason)%string KNone L
  end.

Definition save_detailed_log (output_file : string) (w : write) (L : ledger)
  : ledger :=
  match w with
  | Written => log_info [Lit "Детальный лог сохранен в "; Lit output_file] L
  | WriteFailed reason =>
      log_error LotteryRewards
        ("Ошибка при сохранении лога: " ++ reason)%string KNone L
  end.

(** What the process leaves: its exit status, the ledger when it ended, and
    the exception that ended it when one escaped [main]. *)
Record exit := {
  status : Z;
  at_exit : ledger;
  uncaught : option exn
}.

(** The documents and flags of one run, and what writing the two report
    files comes to. *)
Record run_input := {
  in_promo : read pyval;
  in_requirements : read (list csv_row);
  in_actions : read pyval;
  in_quiet : bool;
  in_json : bool;
  out_report : write;
  out_log : write
}.

(** [main()]: the validator is built and run, the two reports are saved,
    and [sys.exit(1 if failed_checks > 0 else 0)] ends the process. An
    exception that escapes [main] ends the interpreter with status 1. *)
Definition main (i : run_input) : exit :=
  match bind (init "promo.json" "requirements.csv" "actions.json"
                   (in_promo i) (in_requirements i) (in_actions i)
                   (negb (in_quiet i)) (in_json i))
             validate_all empty_ledger with
  | Throw e L => {| status := 1; at_exit := L; uncaught := Some e |}
  | Done _ L =>
      let L := save_report_to_csv "validation_report.csv" (out_report i) L in
      let L := save_detailed_log "validation_detailed.log" (out_log i) L in
      {| status := if failed_checks L >? 0 then 1 else 0;
         at_exit := L; uncaught := None |}
  end.

End WithStr.

End Lottery.

(* ================================================================== *)
(** * The report of the filed records                                  *)
(* ================================================================== *)

(** [save_report_to_csv] walks the per-subject map and hands one row to
    [csv.writer] for each record. The rows are kept as the lists of values
    the writer is given, before it renders them. *)

Module Report.

(** [error.get(k, dflt)] on a record of the per-subject map. *)
Definition entry (k : string) (dflt : pyval) (error : details) : pyval :=
  match assoc k error with Some x => x | None => dflt end.

(** [for x in xs: rows.append(f(x))] where [f] may raise. *)
Fixpoint collect {A B} (f : A -> result B) (xs : list A) : result (list B) :=
  match xs with
  | [] => Ok []
  | x :: xs' =>
      y <~ f x ;;
      ys <~ collect f xs' ;;
      Ok (y :: ys)
  end.

(** ** shop-offers, rfm-offers, quests-weekly, main-reward-lines *)

(** The two spellings of the method: shop-offers and rfm-offers write the
    result in capitals and read a missing entry as the empty text;
    quests-weekly and main-reward-lines read it as [None]. *)
Inductive style := Capitals | Plain.

Definition style_of (v : variant) : option style :=
  match v with
  | ShopOffers | RfmOffers => Some Capitals
  | QuestsWeekly | MainRewardLines => Some Plain
  | LotteryRewards | EndNews => None
  end.

Definition missing (s : style) : pyval :=
  match s with Capitals => VStr "" | Plain => VNone end.

(** ["ОШИБКА" if error.get("tag") != "WARNING" else "ПРЕДУПРЕЖДЕНИЕ"] *)
Definition result_word (s : style) (error : details) : string :=
  let is_warning := eq_str (entry "tag" VNone error) "WARNING" in
  match s with
  | Capitals => if is_warning then "ПРЕДУПРЕЖДЕНИЕ" else "ОШИБКА"
  | Plain => if is_warning then "Предупреждение" else "Ошибка"
  end.

(** The argument of one [writer.writerow] call. *)
Definition report_row (s : style) (subject : key) (error : details) : list pyval :=
  [key_val subject; entry "check" (missing s) error; VStr (result_word s error);
   entry "expected" (missing s) error; entry "actual" (missing s) error;
   entry "details" (missing s) error].

(** The rows [save_report_to_csv] writes after the header: the subjects in
    the order they entered the map, the records of a subject in the order
    they were filed. *)
Definition save_report_to_csv (s : style) (m : error_map) : list (list pyval) :=
  flat_map (fun kv => map (report_row s (fst kv)) (snd kv)) m.

(** ** lottery-rewards *)

(** [sub in v] for a [str] sub: a substring of a str, an element of a list,
    a key of a dict; no other value of a JSON document is a container. *)
Definition str_in (sub : string) (v : pyval) : result bool :=
  match v with
  | VStr s => Ok (contains sub s)
  | VList l => Ok (existsb (fun x => eq_str x sub) l)
  | VDict d => Ok (has_key sub d)
  | _ => Raise TypeError
  end.

(** [_get_error_details(error)] *)
Definition _get_error_details (error : details) : result pyval :=
  let check_name := entry "check" (VStr "") error in
  about_reward <~ str_in "Награда" check_name ;;
  if about_reward then Ok (VStr "Награда должна соответствовать требованиям")
  else
    about_action <~ str_in "Экшен" check_name ;;
    if about_action then Ok (VStr "Экшен должен присутствовать в конфиге")
    else Ok (entry "details" (VStr "") error).

Definition lottery_row (check_id : key) (error : details) : result (list pyval) :=
  shown <~ _get_error_details error ;;
  Ok [key_val check_id; entry "check" (VStr "") error; VStr "Ошибка";
      entry "expected" (VStr "") error; entry "actual" (VStr "") error; shown].

(** The rows of the lottery report; an exception of [_get_error_details]
    leaves the [with] block and is caught by the method. *)
Fixpoint lottery_rows (m : error_map) : result (list (list pyval)) :=
  match m with
  | [] => Ok []
  | (check_id, errs) :: m' =>
      rows <~ collect (lottery_row check_id) errs ;;
      rest <~ lottery_rows m' ;;
      Ok (rows ++ rest)
  end.

(** ** end-news-double-points *)

(** [check_id and check_id.startswith(p)] *)
Definition id_starts (p : string) (check_id : key) : result bool :=
  match check_id with
  | KNone => Ok false
  | KStr s => Ok (negb (String.eqb s "") && startswith p s)
  | KInt n => if n =? 0 then Ok false else Raise AttributeError
  end.

Definition window_row (name : string) (error : details) : list pyval :=
  [entry "check" (VStr "") error; VStr name; entry "expected" (VStr "") error;
   entry "actual" (VStr "") error; VStr "ОШИБКА"; entry "details" (VStr "") error].

(** One of the three loops over [config_errors.items()]: the records of the
    check ids that start with [p], under the name [name]. *)
Fixpoint section_rows (p name : string) (m : error_map)
  : result (list (list pyval)) :=
  match m with
  | [] => Ok []
  | (check_id, errs) :: m' =>
      mine <~ id_starts p check_id ;;
      rest <~ section_rows p name m' ;;
      Ok ((if mine then map (window_row name) errs else []) ++ rest)
  end.

(** [requirements_by_alias.get(alias, {}).get('alias', dflt)] *)
Definition alias_or (alias dflt : string) (by_alias : list (string * row)) : string :=
  match assoc alias by_alias with
  | Some req => match assoc "alias" req with Some a => a | None => dflt end
  | None => dflt
  end.

(** The rows of the end-news report: the section of the end-news window,
    then the double points window, then the exchange rate. *)
Definition end_news_rows (by_alias : list (string * row)) (m : error_map)
  : result (list (list pyval)) :=
  s1 <~ section_rows "end_news" (alias_or "end news" "end_news" by_alias) m ;;
  s2 <~ section_rows "double_points"
          (alias_or "double points(2)" "double_points" by_alias) m ;;
  s3 <~ section_rows "items_to_cash" "itemsToCashExchange" m ;;
  Ok (s1 ++ s2 ++ s3).

End Report.

(* ================================================================== *)
(** * Further phases of the validators                                 *)
(* ================================================================== *)

(** [k in d] for a dict keyed by an [int]. *)
Definition in_actions (action_id : Z) (actions_by_id : list (Z * pyval)) : bool :=
  existsb (fun kv => fst kv =? action_id) actions_by_id.

(** ** shop-offers *)

Module ShopOffersChecks.

(** The two dicts the first phase reads. *)
Record validator := {
  requirements_by_action_id : index;
  actions_by_id : list (Z * pyval)
}.

(** [validate_action_ids_in_actions()] *)
Definition validate_action_ids_in_actions (V : validator) : M unit :=
  act (start_phase ShopOffers "ПРОВЕРКА НАЛИЧИЯ ACTION ID В ACTIONS.JSON") ;;;
  for_each (requirements_by_action_id V) (fun item =>
    let (action_id, req) := item in
    let alias := match assoc "alias" req with
                 | Some a => a
                 | None => "Неизвестно"
                 end in
    let present := in_actions action_id (actions_by_id V) in
    act (log_check ShopOffers (KInt action_id)
           ("Наличие Action ID в actions.json (алиас: " ++ alias ++ ")")%string
           present (VStr "Присутствует")
           (VStr (if present then "Присутствует" else "Отсутствует"))
           VNone (VStr "ACTION_EXISTS"))).

(** [actions_by_id[action_id]], for an id that may be missing. *)
Definition lookup_action (action_id : Z) (actions_by_id : list (Z * pyval))
  : option pyval :=
  option_map snd (find (fun kv => fst kv =? action_id) actions_by_id).

(** The body of the second loop of [validate_action_rewards] over
    [req.items()], on the NeedResources columns. *)
Definition check_need_column (action_id : Z) (need_resources : pyval)
    (col : string * string) : M unit :=
  let (column, value) := col in
  if String.eqb value "" || negb (startswith "NeedResources" column) then ret tt
  else
    match split_on "(" column with
    | [_; p1] =>
        let item_id_str := remove_char ")" p1 in
        match int_of_str item_id_str, int_of_str value with
        | Some item_id, Some expected_count =>
            entries <- lift (iter need_resources) ;;
            found <- lift (ShopOffers.find_item entries item_id) ;;
            act (log_check ShopOffers (KInt action_id)
                   ("Необходимый ресурс " ++ str_of_Z item_id ++ " в экшене")%string
                   (match found with
                    | Some actual_count => eq_int actual_count expected_count
                    | None => false
                    end)
                   (VInt expected_count)
                   (match found with
                    | Some actual_count => actual_count
                    | None => VStr "Не найдено"
                    end)
                   VNone (VStr "NEED_RESOURCE_CHECK"))
        | _, _ =>
            act (log_warning ShopOffers
                   ("Неправильное значение ресурса: " ++ value ++ " для "
                    ++ column)%string
                   (KInt action_id))
        end
    | _ =>
        act (log_warning ShopOffers
               ("Неправильный формат столбца ресурсов: " ++ column)%string
               (KInt action_id))
    end.

(** [for column, value in req.items()] with the test [if not value or not
    column.startswith(p): continue] that opens the body of both loops of
    [validate_action_rewards]. A cell that is [None] is passed over by
    [not value]. On a line longer than the header the last item has the
    key [None] and a list that is not empty, and [column.startswith]
    raises. What the body does with a cell that is a text is [body]. *)
Definition for_items (req : csv_row) (body : string * string -> M unit)
  : M unit :=
  for_each (cells req) (fun item =>
    match snd item with
    | None => ret tt
    | Some value => body (fst item, value)
    end) ;;;
  match surplus req with
  | [] => ret tt
  | _ :: _ => lift (Raise AttributeError)
  end.

(** [validate_action_rewards()], on the rows as [csv.DictReader] gives
    them: an id that is not in the actions is skipped with a warning; for
    the others the Award_ columns of the record are checked against the
    awards of the action, then its NeedResources columns against the
    needResources of the action. *)
Definition validate_action_rewards
    (requirements_by_action_id : list (Z * csv_row))
    (actions_by_id : list (Z * pyval)) : M unit :=
  act (start_phase ShopOffers "ПРОВЕРКА НАГРАД В ЭКШЕНАХ") ;;;
  for_each requirements_by_action_id (fun item =>
    let (action_id, req) := item in
    let alias := match assoc "alias" (cells req) with
                 | Some a => cell_text a
                 | None => "Неизвестно"
                 end in
    match lookup_action action_id actions_by_id with
    | None =>
        act (log_warning ShopOffers
               ("Пропуск проверки наград для отсутствующего экшена "
                ++ str_of_Z action_id ++ " (" ++ alias ++ ")")%string
               (KInt action_id))
    | Some action =>
        awards <- lift (get_or "awards" (VList []) action) ;;
        for_items req (ShopOffers.check_award_column action_id awards) ;;;
        (need_resources <- lift (get_or "needResources" (VList []) action) ;;
         for_items req (check_need_column action_id need_resources))
    end).

End ShopOffersChecks.

(** ** rfm-offers *)

Module RfmOffersChecks.

Record validator := {
  requirements_by_offer : list (string * row);
  actions_by_id : list (Z * pyval)
}.

(** The loop of [__init__] that fills [requirements_by_offer]. *)
Definition index_by_offer (requirements : list row) : list (string * row) :=
  fold_left (fun m req =>
               match assoc "offer" req with
               | Some o => if negb (String.eqb o "") then Lottery.dict_set o req m
                           else m
               | None => m
               end) requirements [].

(** [int(req.get('action', 0))]: the default is the [int] 0, a cell is
    parsed, and nothing catches the [ValueError] of a cell that is not an
    integer. *)
Definition action_of (req : row) : result Z :=
  match assoc "action" req with
  | Some a => match int_of_str a with
              | Some n => Ok n
              | None => Raise ValueError
              end
  | None => Ok 0
  end.

(** [validate_action_ids_in_actions()] *)
Definition validate_action_ids_in_actions (V : validator) : M unit :=
  act (start_phase RfmOffers "ПРОВЕРКА НАЛИЧИЯ ACTION ID В ACTIONS.JSON") ;;;
  for_each (requirements_by_offer V) (fun item =>
    let (offer_name, req) := item in
    action_id <- lift (action_of req) ;;
    let present := in_actions action_id (actions_by_id V) in
    act (log_check RfmOffers (KStr offer_name)
           ("Наличие Action ID " ++ str_of_Z action_id ++ " в actions.json")%string
           present (VStr "Присутствует")
           (VStr (if present then "Присутствует" else "Отсутствует"))
           VNone (VStr "ACTION_EXISTS"))).

(** The loop of [_find_hasItems_in_dict] over the items of a list value:
    the first result with a true truth value among its dicts. *)
Fixpoint first_in_list (find : pyval -> pyval) (l : list pyval) : option pyval :=
  match l with
  | [] => None
  | item :: rest =>
      match item with
      | VDict _ =>
          let result := find item in
          if truthy result then Some result else first_in_list find rest
      | _ => first_in_list find rest
      end
  end.

(** The loop over [d.items()]: dict values are searched, list values are
    walked, and the first result with a true truth value is returned. *)
Fixpoint first_in_items (find : pyval -> pyval) (l : list (string * pyval))
  : pyval :=
  match l with
  | [] => VNone
  | (_, v) :: rest =>
      match v with
      | VDict _ =>
          let result := find v in
          if truthy result then result else first_in_items find rest
      | VList elements =>
          match first_in_list find elements with
          | Some result => result
          | None => first_in_items find rest
          end
      | _ => first_in_items find rest
      end
  end.

(** [_find_hasItems_in_dict(d)]: [None] for what is not a dict; the entry
    of the dict itself when it has one, whatever its value; otherwise the
    result of the loop over its items. [None] is [VNone]. *)
Fixpoint _find_hasItems_in_dict (d : pyval) : pyval :=
  match d with
  | VDict items =>
      match assoc "hasItems" items with
      | Some found => found
      | None => first_in_items _find_hasItems_in_dict items
      end
  | _ => VNone
  end.

End RfmOffersChecks.

(** ** quests-weekly *)

Module QuestsWeeklyChecks.

(** [if week not in m: m[week] = []] followed by [m[week].append(id)]. *)
Fixpoint week_append (week : string) (id : Z) (m : list (string * list Z))
  : list (string * list Z) :=
  match m with
  | [] => [(week, [id])]
  | (w, ids) :: m' =>
      if String.eqb week w then (w, ids ++ [id]) :: m'
      else (w, ids) :: week_append week id m'
  end.

(** The loop of [__init__] that fills [complexity_ids]: the ids of the
    rows that have a week column, by week. [int] is called outside any
    [try]. *)
Fixpoint complexity_ids (requirements : list row) (acc : list (string * list Z))
  : result (list (string * list Z)) :=
  match requirements with
  | [] => Ok acc
  | req :: rest =>
      match assoc "complexity" req, assoc "Неделя" req with
      | Some c, Some week =>
          if negb (String.eqb c "") then
            match int_of_str c with
            | Some complexity_id =>
                complexity_ids rest (week_append week complexity_id acc)
            | None => Raise ValueError
            end
          else complexity_ids rest acc
      | _, _ => complexity_ids rest acc
      end
  end.

(** [for week, ids in complexity_ids.items(): all_complexity_ids.extend(ids)] *)
Definition all_complexity_ids (by_week : list (string * list Z)) : list Z :=
  flat_map snd by_week.

Record validator := {
  ids : list Z;
  actions_by_id : list (Z * pyval)
}.

(** [validate_complexity_in_actions()], over [all_complexity_ids]. *)
Definition validate_complexity_in_actions (V : validator) : M unit :=
  act (log_info
         [Lit "Проверка наличия всех complexity из requirements в файле actions.json"]) ;;;
  for_each (ids V) (fun complexity_id =>
    let is_in_actions := in_actions complexity_id (actions_by_id V) in
    act (log_check QuestsWeekly (KInt complexity_id)
           "Наличие complexity в файле экшенов"
           is_in_actions (VStr "В файле экшенов")
           (VStr (if is_in_actions then "Присутствует" else "Отсутствует"))
           (VStr "Complexity должен присутствовать в файле экшенов")
           (VStr "COMPLEXITY_IN_ACTIONS"))).

End QuestsWeeklyChecks.

(** ** main-reward-lines *)

Module MainRewardLinesChecks.

(** The search of [validate_action_content] in [needResources]: the first
    resource of type "item" whose itemId is 17886. *)
Fixpoint find_need_resource (resources : list pyval) : result (option pyval) :=
  match resources with
  | [] => Ok None
  | resource :: rest =>
      ty <~ get "type" resource ;;
      if eq_str ty "item" then
        id <~ get "itemId" resource ;;
        if eq_int id 17886 then Ok (Some resource) else find_need_resource rest
      else find_need_resource rest
  end.

(** The needResources block of [validate_action_content] for one free
    action that is in the actions file. In the [else] branch the cell is
    the empty text, and it is there that the source compares it with '0'. *)
Definition check_need_resources (action_id : Z) (action : pyval)
    (requirement : row) : M unit :=
  let need_resources_value := row_get "needResources (17886)" requirement in
  if negb (String.eqb need_resources_value "") then
    match int_of_str need_resources_value with
    | None => lift (Raise ValueError)
    | Some value =>
        if value =? 0 then
          act (log_info
                 [Lit "Для action_id "; Fmt (VInt action_id);
                  Lit " не требуется проверка наличия needResources, так как значение в таблице = 0"])
        else
          action_need_resources <- lift (get_or "needResources" (VList []) action) ;;
          resources <- lift (iter action_need_resources) ;;
          found <- lift (find_need_resource resources) ;;
          act (log_check MainRewardLines (KInt action_id)
                 "Наличие needResources с itemId 17886 в экшене"
                 (match found with Some _ => true | None => false end)
                 (VStr "Присутствует")
                 (VStr (match found with
                        | Some _ => "Присутствует"
                        | None => "Отсутствует"
                        end))
                 (VStr "NeedResources с itemId 17886 должен присутствовать в экшене")
                 (VStr "NEED_RESOURCES_PRESENCE")) ;;;
          match found with
          | Some resource =>
              count <- lift (get "count" resource) ;;
              act (log_check MainRewardLines (KInt action_id)
                     "Значение count в needResources"
                     (eq_int count value) (VInt value) count
                     (VStr "Значение count в needResources должно соответствовать требованиям")
                     (VStr "NEED_RESOURCES_COUNT"))
          | None => ret tt
          end
    end
  else
    action_need_resources <- lift (get_or "needResources" (VList []) action) ;;
    resources <- lift (iter action_need_resources) ;;
    found <- lift (find_need_resource resources) ;;
    if String.eqb need_resources_value "0" then
      act (log_check MainRewardLines (KInt action_id)
             "Отсутствие needResources с itemId 17886 при значении 0"
             (match found with Some _ => false | None => true end)
             (VStr "Отсутствует")
             (VStr (match found with
                    | Some _ => "Присутствует"
                    | None => "Отсутствует"
                    end))
             (VStr "NeedResources с itemId 17886 не должен присутствовать в экшене при значении 0")
             (VStr "NEED_RESOURCES_ABSENCE"))
    else ret tt.

End MainRewardLinesChecks.

(* ================================================================== *)
(** * Notions the properties are stated with                           *)
(* ================================================================== *)

(** The consistency of the per-subject map as the specification words it:
    every failed check and every warning of the run is filed in the map
    under its subject key. *)
Definition consistent_as_stated (v : variant) (es : list event) : Prop :=
  let L := run v es empty_ledger in
  (forall k n ex ac d t,
      In (EvCheck k n false ex ac d t) es ->
      filed k (check_details v n ex ac d t) L)
  /\ (forall m k,
      In (EvWarning m k) es -> filed k (warning_details v m) L).

(** The text of the warning a malformed row leaves. *)
Definition warning_text (req : row) : string :=
  ("Некорректный Action ID в требованиях: " ++ row_get "Action" req)%string.

(** The construction of the index as the specification words it, on the
    shop-offers validator: every record whose Action id is missing or not
    numeric is kept out of the index and leaves a warning. *)
Definition index_as_stated (requirements : list row) : Prop :=
  let st := ShopOffers.requirements_by_action_id requirements empty_ledger in
  forall req,
    In req requirements ->
    ShopOffers.parsed_id req = None ->
    (forall id, index_get id (fst st) <> Some req)
    /\ In (warning_text req) (warnings (snd st)).

(** The record of the failed presence check of quests-weekly. *)
Definition presence_record (item_id : Z) : details :=
  check_details QuestsWeekly
    ("Наличие награды itemId: " ++ str_of_Z item_id ++ " в квесте")%string
    (VStr "Присутствует") (VStr "Отсутствует")
    (VStr ("Награда itemId: " ++ str_of_Z item_id
           ++ " должна присутствовать в квесте")%string)
    (VStr ("AWARD_" ++ str_of_Z item_id ++ "_PRESENCE")%string).

(** A text of ASCII characters only: on such a text [isdigit] and [int]
    are what the embedding computes. *)
Definition ascii_text (s : string) : bool :=
  forallb (fun c => (nat_of_ascii c <? 128)%nat) (list_ascii_of_string s).

Definition is_dict (v : pyval) : bool :=
  match v with VDict _ => true | _ => false end.

(** An award of a quest whose itemId is [item_id]: the entry the search of
    quests-weekly stops at. *)
Definition names_item (item_id : Z) (award : pyval) : bool :=
  match award with
  | VDict d =>
      eq_int (match assoc "itemId" d with Some x => x | None => VNone end)
             item_id
  | _ => false
  end.

(** An award of an action of type "item" whose itemId is [item_id]: the
    entry the search of shop-offers stops at. *)
Definition is_item_award (item_id : Z) (award : pyval) : bool :=
  match award with
  | VDict d =>
      eq_str (match assoc "type" d with Some x => x | None => VNone end) "item"
      && eq_int (match assoc "itemId" d with Some x => x | None => VNone end)
                item_id
  | _ => false
  end.

(** A dict the search passes over. *)
Definition passed_over (stops_at : pyval -> bool) (award : pyval) : bool :=
  is_dict award && negb (stops_at award).

(** The second half of C4 as the specification words it, on shop-offers:
    an award column whose entry is present leaves two check results. *)
Definition two_results_when_present (action_id : Z) (awards : pyval)
    (col : string * string) : Prop :=
  forall L',
    ShopOffers.check_award_column action_id awards col empty_ledger = Done tt L' ->
    List.length (results L') = 2%nat.

(** The order of [str]: at most, by code points. *)
Definition str_le (a b : string) : Prop := String.leb a b = true.

(** A text of exactly [n] decimal digits. *)
Definition digits (n : nat) (s : string) : Prop :=
  String.length s = n /\ forallb is_digit (list_ascii_of_string s) = true.

(** A date and time with a one-digit hour. *)
Definition short_hour (y mo d h mi s : string) : string :=
  (y ++ "-" ++ mo ++ "-" ++ d ++ " " ++ h ++ ":" ++ mi ++ ":" ++ s)%string.

(** The same with the hour padded to two digits. *)
Definition padded_hour (y mo d h mi s : string) : string :=
  (y ++ "-" ++ mo ++ "-" ++ d ++ " " ++ "0" ++ h ++ ":" ++ mi ++ ":" ++ s)%string.

(** The validation of a run: the constructor, then [validate_all]. *)
Definition lottery_validation (py_str : pyval -> string)
    (i : Lottery.run_input) : outcome unit :=
  bind (Lottery.init py_str "promo.json" "requirements.csv" "actions.json"
          (Lottery.in_promo i) (Lottery.in_requirements i)
          (Lottery.in_actions i) (negb (Lottery.in_quiet i)) (Lottery.in_json i))
       (Lottery.validate_all py_str) empty_ledger.

(** A run of the lottery validator on a requirements table with a header
    and no row: every document loads, nothing is there to check. *)
Definition run_without_requirements : Lottery.run_input :=
  {| Lottery.in_promo := Loaded (VDict [("awards", VList [])]);
     Lottery.in_requirements := Loaded [];
     Lottery.in_actions := Loaded (VList []);
     Lottery.in_quiet := false;
     Lottery.in_json := false;
     Lottery.out_report := Written;
     Lottery.out_log := Written |}.

(** The same run when the requirements table cannot be read. *)
Definition run_with_unreadable_requirements : Lottery.run_input :=
  {| Lottery.in_promo := Loaded (VDict [("awards", VList [])]);
     Lottery.in_requirements := Failed "No such file or directory";
     Lottery.in_actions := Loaded (VList []);
     Lottery.in_quiet := false;
     Lottery.in_json := false;
     Lottery.out_report := Written;
     Lottery.out_log := Written |}.

(** The three phases of the end-news validator, as the log names them. *)
Definition all_phases : list string :=
  [("ФАЗА: " ++ EndNews.phase_end_news)%string;
   ("ФАЗА: " ++ EndNews.phase_double_points)%string;
   ("ФАЗА: " ++ EndNews.phase_exchange)%string].

(** A computation that returns and enters no phase. *)
Definition quiet (m : M unit) : Prop :=
  forall L, returns (m L) = true
            /\ EndNews.phases_entered (final_ledger (m L))
               = EndNews.phases_entered L.

(** The requirements of the end-news window. *)
Definition end_news_row : row :=
  [("alias", "end news"); ("from", "2024-06-01"); ("to", "2024-06-08");
   ("any", "17001"); ("not", "17002")].

(** A campaign document that lists the season pass actions. *)
Definition promo_with_season_pass : pyval :=
  VDict [("parameters", VDict [("seasonPassActions", VList [VInt 17002])])].

(* ================================================================== *)
(** * Notions for the further properties                               *)
(* ================================================================== *)

Definition is_error (e : event) : bool :=
  match e with EvError _ _ => true | _ => false end.

(** The outcomes of the checks of a run, in the order of the calls. *)
Definition check_results (es : list event) : list bool :=
  flat_map (fun e => match e with
                     | EvCheck _ _ r _ _ _ _ => [r]
                     | _ => []
                     end) es.

(** A warning or an error that is logged with a subject the validator
    files it under. *)
Definition is_filed_note (v : variant) (e : event) : bool :=
  match e with
  | EvWarning _ k | EvError _ k => files_notes v k
  | _ => false
  end.

(** The number of records in the per-subject map. *)
Definition records (m : error_map) : nat :=
  fold_right (fun kv n => (List.length (snd kv) + n)%nat) O m.

(** A record of the shop-offers table whose Action cell parses to [id]. *)
Definition has_id (id : Z) (req : row) : bool :=
  match ShopOffers.parsed_id req with
  | Some k => k =? id
  | None => false
  end.

(** A record whose cell in [column] is there, not empty, and parses to
    [id]; a record whose cell is there, not empty, and not an integer. *)
Definition cell_is (column : string) (id : Z) (req : row) : bool :=
  match assoc column req with
  | Some c => negb (String.eqb c "") &&
              match int_of_str c with Some k => k =? id | None => false end
  | None => false
  end.

Definition cell_not_integer (column : string) (req : row) : bool :=
  match assoc column req with
  | Some c => negb (String.eqb c "") &&
              match int_of_str c with Some _ => false | None => true end
  | None => false
  end.

(** What a constructor that calls [int] outside [try] comes to, for the
    index keyed by [column]: the index of the table, in which the last
    record with an id wins, when every cell that is there and not empty is
    an integer; [ValueError] when one of them is not. *)
Definition built_or_raises (column : string) (requirements : list row)
    (r : result index) : Prop :=
  match r with
  | Ok idx =>
      (forall req, In req requirements -> cell_not_integer column req = false)
      /\ (forall id, index_get id idx
                     = find (cell_is column id) (rev requirements))
  | Raise e =>
      e = ValueError
      /\ exists req, In req requirements /\ cell_not_integer column req = true
  end.

(** The week and the id of a record the grouping of quests-weekly takes:
    one with a week column and a complexity cell that is an integer. *)
Definition listed (req : row) : option (string * Z) :=
  match assoc "complexity" req, assoc "Неделя" req with
  | Some c, Some week =>
      if negb (String.eqb c "") then
        match int_of_str c with
        | Some id => Some (week, id)
        | None => None
        end
      else None
  | _, _ => None
  end.

(** The ids of the records of a week, and of all the records, in the order
    of the table. *)
Definition ids_of_week (week : string) (requirements : list row) : list Z :=
  flat_map (fun req => match listed req with
                       | Some (w, id) => if String.eqb week w then [id] else []
                       | None => []
                       end) requirements.

Definition listed_ids (requirements : list row) : list Z :=
  flat_map (fun req => match listed req with
                       | Some (_, id) => [id]
                       | None => []
                       end) requirements.

(** [by_week.get(week, [])] *)
Definition week_ids (week : string) (by_week : list (string * list Z)) : list Z :=
  match assoc week by_week with Some ids => ids | None => [] end.

(** A segment in normal form: not empty, with no white space around it and
    no comma in it. *)
Definition normal_segment (x : string) : Prop :=
  x <> "" /\ strip x = x /\ ~ In ","%char (list_ascii_of_string x).

(** The two texts the segment check of rfm-offers logs: the sorted
    segments of the cell joined with commas, and the same for the text of
    the setting, or a fixed text when no setting carries the segments. *)
Definition logged_expected (cell : string) : string :=
  String.concat "," (RfmOffers.sort (RfmOffers.segments_of cell)).

Definition logged_actual (found : option string) : string :=
  match found with
  | Some actual_cell => logged_expected actual_cell
  | None => "Не найдено"
  end.

(** A text that does not begin with white space. *)
Definition starts_clean (cs : list ascii) : Prop :=
  match cs with [] => True | c :: _ => is_space c = false end.

(** A computation keeps a relation between the ledger it starts from and
    the ledger it leaves, whether it returns or raises. *)
Definition keeps (R : ledger -> ledger -> Prop) {A} (m : M A) : Prop :=
  forall L, R L (final_ledger (m L)).

(** The ledger is touched in its detailed log only. *)
Definition only_logged (L L' : ledger) : Prop :=
  errors L' = errors L /\ warnings L' = warnings L
  /\ total_checks L' = total_checks L /\ passed_checks L' = passed_checks L
  /\ failed_checks L' = failed_checks L /\ warning_checks L' = warning_checks L
  /\ subject_errors L' = subject_errors L.

(** No warning is added. *)
Definition no_new_warning (L L' : ledger) : Prop :=
  warnings L' = warnings L /\ warning_checks L' = warning_checks L.

(** Whether the end-news report takes the records of a check id into the
    section of the prefix [p]. *)
Definition taken_by (p : string) (check_id : key) : bool :=
  match check_id with
  | KStr s => negb (String.eqb s "") && startswith p s
  | _ => false
  end.

(** A check id whose records go to exactly one of the three sections of
    the end-news report. *)
Definition in_one_section (check_id : key) : Prop :=
  (exists s, check_id = KStr s)
  /\ ((if taken_by "end_news" check_id then 1 else 0)
      + (if taken_by "double_points" check_id then 1 else 0)
      + (if taken_by "items_to_cash" check_id then 1 else 0) = 1)%nat.

(** The per-subject map of the end-news validator holds the failed checks,
    each under an id of one section of the report. *)
Definition reportable (L : ledger) : Prop :=
  Forall (fun kv => in_one_section (fst kv)) (subject_errors L)
  /\ Z.of_nat (records (subject_errors L)) = failed_checks L.

Definition stays_reportable (L L' : ledger) : Prop :=
  reportable L -> reportable L'.

(** A validator of the end-news windows whose table asks for a double
    points window that the documents do not describe. *)
Definition double_points_only : EndNews.validator :=
  let reqs := [[("alias", "double points(2)"); ("from", "2024-06-01");
                ("to", "2024-06-08"); ("MultiplierTurnOn", "2024-06-02")]] in
  {| EndNews.end_news_promo := VDict [];
     EndNews.double_points_promo := VDict [("from", VStr "2024-06-01")];
     EndNews.promo := VDict [];
     EndNews.requirements := reqs;
     EndNews.requirements_by_alias := EndNews.index_by_alias reqs |}.

(** The action id of a row of the lottery table, as the grouping reads it. *)
Definition action_cell (req : csv_row) : result string :=
  stripped_cell "action" req.

(** A group of the lottery table: the row that names the action, followed
    by rows that name none, all from the table. *)
Definition headed_group (requirements : list csv_row) (action_id : string)
    (group : list csv_row) : Prop :=
  exists header rest,
    group = header :: rest
    /\ In header requirements
    /\ action_cell header = Ok action_id
    /\ action_id <> ""
    /\ Forall (fun r => In r requirements /\ action_cell r = Ok "") rest.

(** A row that names no action: its action cell is blank, or the line was
    too short to have one. *)
Definition names_no_action (req : csv_row) : bool :=
  match action_cell req with
  | Ok action_id => String.eqb action_id ""
  | Raise _ => true
  end.

(** A row of a line too short to have the action cell. *)
Definition lacks_action_cell (req : csv_row) : bool :=
  match cell_or_empty "action" req with Some _ => false | None => true end.

(** A record whose "check" entry is a text. *)
Definition named (d : details) : Prop :=
  exists s, assoc "check" d = Some (VStr s).

(** The table and the actions document a lottery run works on: what was
    read, or what the loader gives in its place. *)
Definition rows_read (i : Lottery.run_input) : list csv_row :=
  match Lottery.in_requirements i with
  | Loaded rows => rows
  | Failed _ => []
  end.

Definition actions_read (i : Lottery.run_input) : pyval :=
  match Lottery.in_actions i with
  | Loaded a => a
  | Failed _ => VDict []
  end.

(** No check is counted. *)
Definition no_new_check (L L' : ledger) : Prop :=
  total_checks L' = total_checks L /\ failed_checks L' = failed_checks L.

(** A cell of a requirement that is the cell [a] or is left blank. *)
Definition relaxed (a' a : string) : Prop := a' = "" \/ a' = a.

(** [x] is [v] itself, or lies somewhere inside the dict or the list [v]. *)
Inductive nested (x : pyval) : pyval -> Prop :=
| nested_here : nested x x
| nested_in_dict (k : string) (v : pyval) (items : list (string * pyval)) :
    In (k, v) items -> nested x v -> nested x (VDict items)
| nested_in_list (v : pyval) (l : list pyval) :
    In v l -> nested x v -> nested x (VList l).

(** What [_find_hasItems_in_dict] returns for [d]: nothing, or the
    "hasItems" entry of a dict nested in [d]. *)
Definition found_in (d result : pyval) : Prop :=
  result = VNone
  \/ exists items, nested (VDict items) d /\ assoc "hasItems" items = Some result.

(** The statement of the search, with what the induction needs of the
    elements of a list. *)
Definition has_items_spec (v : pyval) : Prop :=
  found_in v (RfmOffersChecks._find_hasItems_in_dict v)
  /\ match v with
     | VDict items =>
         match assoc "hasItems" items with
         | Some found => RfmOffersChecks._find_hasItems_in_dict v = found
         | None =>
             RfmOffersChecks._find_hasItems_in_dict v = VNone
             \/ truthy (RfmOffersChecks._find_hasItems_in_dict v) = true
         end
     | VList l =>
         RfmOffersChecks._find_hasItems_in_dict v = VNone
         /\ Forall (fun x => found_in x (RfmOffersChecks._find_hasItems_in_dict x)) l
     | _ => RfmOffersChecks._find_hasItems_in_dict v = VNone
     end.

(** Induction on a JSON value, with the property known of the elements of
    a list and of the values of a dict. *)
Section PyvalInduction.

Variable P : pyval -> Prop.
Hypothesis P_none : P VNone.
Hypothesis P_bool : forall b, P (VBool b).
Hypothesis P_int : forall n, P (VInt n).
Hypothesis P_float : forall f, P (VFloat f).
Hypothesis P_str : forall s, P (VStr s).
Hypothesis P_list : forall l, Forall P l -> P (VList l).
Hypothesis P_dict : forall d, Forall (fun kv => P (snd kv)) d -> P (VDict d).

Fixpoint pyval_nested_ind (v : pyval) : P v :=
  match v with
  | VNone => P_none
  | VBool b => P_bool b
  | VInt n => P_int n
  | VFloat f => P_float f
  | VStr s => P_str s
  | VList l =>
      P_list l
        ((fix all (l : list pyval) : Forall P l :=
            match l with
            | [] => Forall_nil P
            | x :: l' => Forall_cons x (pyval_nested_ind x) (all l')
            end) l)
  | VDict d =>
      P_dict d
        ((fix all (d : list (string * pyval))
            : Forall (fun kv => P (snd kv)) d :=
            match d with
            | [] => Forall_nil _
            | kv :: d' =>
                Forall_cons (P := fun kv => P (snd kv)) kv
                  (pyval_nested_ind (snd kv)) (all d')
            end) d)
  end.

End PyvalInduction.

(** A list of dicts, as the awards and the needResources of an action of
    the actions file are. *)
Definition list_of_dicts (v : pyval) : bool :=
  match v with VList l => forallb is_dict l | _ => false end.

(** An action that is a dict whose awards and needResources, where it has
    them, are lists of dicts. *)
Definition plain_action (action : pyval) : bool :=
  match get_or "awards" (VList []) action,
        get_or "needResources" (VList []) action with
  | Ok awards, Ok need_resources =>
      list_of_dicts awards && list_of_dicts need_resources
  | _, _ => false
  end.

(** The cells of a record the reward phase of shop-offers looks at: filled,
    in a column whose name starts with [p]. *)
Definition reward_cell (p : string) (col : string * string) : bool :=
  negb (String.eqb (snd col) "") && startswith p (fst col).

Definition filled_cell (p : string) (item : string * option string) : bool :=
  match snd item with
  | Some value => reward_cell p (fst item, value)
  | None => false
  end.

Definition reward_cells (req : csv_row) : Z :=
  Z.of_nat (List.length (filter (filled_cell "Award_") (cells req)))
  + Z.of_nat (List.length (filter (filled_cell "NeedResources") (cells req))).

(** What the reward phase has to answer for in one item of the index: the
    cells of the record, or the action it cannot find. *)
Definition to_account (actions : list (Z * pyval)) (item : Z * csv_row) : Z :=
  if in_actions (fst item) actions then reward_cells (snd item) else 1.

(** An item of the index whose action is in the actions file and whose
    line had more cells than the header. *)
Definition overlong (actions : list (Z * pyval)) (item : Z * csv_row) : bool :=
  in_actions (fst item) actions
  && match surplus (snd item) with [] => false | _ :: _ => true end.

Definition total_of {A} (f : A -> Z) (xs : list A) : Z :=
  fold_right (fun x s => f x + s) 0 xs.

(** Checks and warnings together grew by [n]. *)
Definition accounted (n : Z) (L L' : ledger) : Prop :=
  total_checks L' + warning_checks L' = total_checks L + warning_checks L + n.

(* ================================================================== *)
(** * Properties of the result ledger                                  *)
(* ================================================================== *)

Section LedgerFacts.

Variable v : variant.

Lemma key_eqb_spec (a b : key) : reflect (a = b) (key_eqb a b).
Proof.
  destruct a as [|n|s], b as [|m|t]; simpl; try (constructor; congruence).
  - destruct (Z.eqb_spec n m); constructor; congruence.
  - destruct (String.eqb_spec s t); constructor; congruence.
Qed.

Lemma key_eqb_refl (k : key) : key_eqb k k = true.
Proof. destruct (key_eqb_spec k k); congruence. Qed.

(** ** Counters *)

Lemma step_counters (L : ledger) (e : event) :
  total_checks (step v L e) = total_checks L + (if is_check e then 1 else 0)
  /\ passed_checks (step v L e) = passed_checks L + (if is_passed e then 1 else 0)
  /\ failed_checks (step v L e) = failed_checks L + (if is_failed e then 1 else 0)
  /\ warning_checks (step v L e) = warning_checks L + (if is_warning e then 1 else 0).
Proof.
  destruct e as [k n r ex ac d t | m k | m k | m | p]; simpl.
  - unfold log_check. destruct r; simpl; repeat split; lia.
  - unfold log_warning. destruct (files_notes v k); simpl; repeat split; lia.
  - unfold log_error. destruct (files_notes v k); simpl; repeat split; lia.
  - repeat split; lia.
  - unfold start_phase. destruct v; simpl; repeat split; lia.
Qed.

Lemma count_cons (p : event -> bool) (e : event) (es : list event) :
  count p (e :: es) = (if p e then 1 else 0) + count p es.
Proof.
  unfold count. simpl. destruct (p e); [|lia].
  change (List.length (e :: filter p es)) with (S (List.length (filter p es))). lia.
Qed.

Lemma run_counters (es : list event) :
  forall L : ledger,
    total_checks (run v es L) = total_checks L + count is_check es
    /\ passed_checks (run v es L) = passed_checks L + count is_passed es
    /\ failed_checks (run v es L) = failed_checks L + count is_failed es
    /\ warning_checks (run v es L) = warning_checks L + count is_warning es.
Proof.
  induction es as [|e es IH]; intros L.
  - unfold count. simpl. repeat split; lia.
  - change (run v (e :: es) L) with (run v es (step v L e)).
    destruct (IH (step v L e)) as (Ht & Hp & Hf & Hw).
    destruct (step_counters L e) as (St & Sp & Sf & Sw).
    rewrite !count_cons. repeat split; lia.
Qed.

Lemma check_is_passed_or_failed (e : event) :
  (if is_check e then 1 else 0)
  = (if is_passed e then 1 else 0) + (if is_failed e then 1 else 0).
Proof. destruct e as [k n [|] ex ac d t | | | |]; reflexivity. Qed.

Lemma count_checks_split (es : list event) :
  count is_check es = count is_passed es + count is_failed es.
Proof.
  induction es as [|e es IH].
  - reflexivity.
  - rewrite !count_cons, IH, check_is_passed_or_failed. lia.
Qed.

(** ** The per-subject map only grows *)

Lemma emap_get_append_same (k : key) (d : details) (m : error_map) :
  emap_get k (emap_append k d m)
  = Some (match emap_get k m with Some ds => ds | None => [] end ++ [d]).
Proof.
  induction m as [|[k' ds] m IH]; simpl.
  - rewrite key_eqb_refl. reflexivity.
  - destruct (key_eqb k k') eqn:E; simpl; rewrite E; [reflexivity | exact IH].
Qed.

Lemma emap_get_append_other (k k' : key) (d : details) (m : error_map) :
  k <> k' -> emap_get k' (emap_append k d m) = emap_get k' m.
Proof.
  intros Hne. induction m as [|[k0 ds] m IH]; simpl.
  - destruct (key_eqb_spec k' k); [congruence | reflexivity].
  - destruct (key_eqb_spec k k0) as [->|Hk]; simpl.
    + destruct (key_eqb_spec k' k0); [congruence | reflexivity].
    + destruct (key_eqb_spec k' k0); [reflexivity | exact IH].
Qed.

Lemma filed_file_under_new (k : key) (d : details) (L : ledger) :
  filed k d (file_under k d L).
Proof.
  unfold filed. simpl. rewrite emap_get_append_same.
  eexists. split; [reflexivity|]. apply in_or_app. right. left. reflexivity.
Qed.

Lemma filed_file_under_old (k k' : key) (d d' : details) (L : ledger) :
  filed k d L -> filed k d (file_under k' d' L).
Proof.
  intros (ds & Hget & Hin). unfold filed. simpl.
  destruct (key_eqb_spec k' k) as [->|Hne].
  - rewrite emap_get_append_same, Hget.
    eexists. split; [reflexivity|]. apply in_or_app. left. exact Hin.
  - rewrite (emap_get_append_other k' k d' _ Hne). exists ds. split; assumption.
Qed.

Lemma filed_same_map (k : key) (d : details) (L L' : ledger) :
  subject_errors L' = subject_errors L -> filed k d L -> filed k d L'.
Proof. unfold filed. intros ->. exact (fun H => H). Qed.

Lemma filed_step (k : key) (d : details) (L : ledger) (e : event) :
  filed k d L -> filed k d (step v L e).
Proof.
  intros H. destruct e as [k' n r ex ac d' t | m k' | m k' | m | p]; simpl.
  - unfold log_check. destruct r.
    + eapply filed_same_map; [|exact H]. reflexivity.
    + eapply filed_same_map
        with (L := file_under k' (check_details v n ex ac d' t) L).
      * reflexivity.
      * apply filed_file_under_old. exact H.
  - unfold log_warning. destruct (files_notes v k').
    + eapply filed_same_map with (L := file_under k' (warning_details v m) L).
      * reflexivity.
      * apply filed_file_under_old. exact H.
    + eapply filed_same_map; [|exact H]. reflexivity.
  - unfold log_error. destruct (files_notes v k').
    + eapply filed_same_map with (L := file_under k' (error_details v m) L).
      * reflexivity.
      * apply filed_file_under_old. exact H.
    + eapply filed_same_map; [|exact H]. reflexivity.
  - exact H.
  - eapply filed_same_map; [|exact H]. unfold start_phase. destruct v; reflexivity.
Qed.

Lemma filed_run (k : key) (d : details) (es : list event) :
  forall L : ledger, filed k d L -> filed k d (run v es L).
Proof.
  induction es as [|e es IH]; intros L H.
  - exact H.
  - apply (IH (step v L e)). apply filed_step. exact H.
Qed.

Lemma failed_check_filed (es : list event) :
  forall (L : ledger) k n ex ac d t,
    In (EvCheck k n false ex ac d t) es ->
    filed k (check_details v n ex ac d t) (run v es L).
Proof.
  induction es as [|e es IH]; intros L k n ex ac d t Hin.
  - destruct Hin.
  - change (run v (e :: es) L) with (run v es (step v L e)).
    destruct Hin as [-> | Hin].
    + apply filed_run. simpl. unfold log_check.
      eapply filed_same_map
        with (L := file_under k (check_details v n ex ac d t) L).
      * reflexivity.
      * apply filed_file_under_new.
    + apply IH. exact Hin.
Qed.

Lemma subject_warning_filed (es : list event) :
  forall (L : ledger) m k,
    In (EvWarning m k) es -> files_notes v k = true ->
    filed k (warning_details v m) (run v es L).
Proof.
  induction es as [|e es IH]; intros L m k Hin Hf.
  - destruct Hin.
  - change (run v (e :: es) L) with (run v es (step v L e)).
    destruct Hin as [-> | Hin].
    + apply filed_run. simpl. unfold log_warning. rewrite Hf.
      eapply filed_same_map with (L := file_under k (warning_details v m) L).
      * reflexivity.
      * apply filed_file_under_new.
    + apply IH; assumption.
Qed.

Lemma files_notes_true (k : key) :
  files_notes v k = true <-> v <> EndNews /\ k <> KNone.
Proof.
  destruct v, k; simpl; split; try congruence;
    try (intros _; split; congruence);
    intros [H1 H2]; congruence.
Qed.

End LedgerFacts.

(** C1. For every sequence of calls of the logging API from the freshly
    constructed ledger, in any of the six validators, the summary satisfies
    [total_checks = passed_checks + failed_checks]: [total_checks] counts
    the calls of [log_check], each of which is counted in exactly one of
    [passed_checks] and [failed_checks], and [warning_checks] counts the
    calls of [log_warning] and nothing is taken from the total for them. *)
Theorem summary_counters_invariant :
  forall (v : variant) (es : list event),
    let L := run v es empty_ledger in
    total_checks L = passed_checks L + failed_checks L
    /\ total_checks L = count is_check es
    /\ passed_checks L = count is_passed es
    /\ failed_checks L = count is_failed es
    /\ warning_checks L = count is_warning es.
Proof.
  intros v es L. subst L.
  destruct (run_counters v es empty_ledger) as (Ht & Hp & Hf & Hw).
  simpl in Ht, Hp, Hf, Hw.
  pose proof (count_checks_split es) as Hs.
  repeat split; lia.
Qed.

(** C9, as stated, fails. A warning logged without a subject (the way the
    shop-offers constructor reports a malformed Action id) is kept in
    [warnings] and counted, and the per-subject map stays empty; in the
    end-news validator a warning is not filed even when it names a
    subject. *)
Lemma warning_not_in_error_map :
  ~ consistent_as_stated ShopOffers
      [EvWarning "Некорректный Action ID в требованиях: abc" KNone]
  /\ ~ consistent_as_stated EndNews
      [EvWarning "w" (KStr "double_points_multiplier_value")]
  /\ (let L := run ShopOffers
                 [EvWarning "Некорректный Action ID в требованиях: abc" KNone]
                 empty_ledger in
      warnings L = ["Некорректный Action ID в требованиях: abc"]
      /\ warning_checks L = 1
      /\ subject_errors L = []).
Proof.
  split; [|split].
  - intros [_ H].
    destruct (H _ _ (or_introl eq_refl)) as (ds & Hget & _). discriminate Hget.
  - intros [_ H].
    destruct (H _ _ (or_introl eq_refl)) as (ds & Hget & _). discriminate Hget.
  - repeat split.
Qed.

(** C9, amended. In every validator each failed check of a run is filed in
    the per-subject map under its subject key. A warning is filed under its
    subject key when it is logged with a subject, in every validator but
    end-news; a warning without a subject, and any warning of the end-news
    validator, leaves the map as it was. *)
Theorem error_map_consistency :
  forall (v : variant) (es : list event),
    let L := run v es empty_ledger in
    (forall k n ex ac d t,
        In (EvCheck k n false ex ac d t) es ->
        filed k (check_details v n ex ac d t) L)
    /\ (forall m k,
        In (EvWarning m k) es -> v <> EndNews -> k <> KNone ->
        filed k (warning_details v m) L)
    /\ (forall m k L0,
        v = EndNews \/ k = KNone ->
        subject_errors (log_warning v m k L0) = subject_errors L0).
Proof.
  intros v es L. subst L. split; [|split].
  - intros k n ex ac d t Hin. apply failed_check_filed. exact Hin.
  - intros m k Hin Hv Hk. apply subject_warning_filed; [exact Hin|].
    apply files_notes_true. split; assumption.
  - intros m k L0 H. unfold log_warning.
    assert (Hf : files_notes v k = false).
    { destruct H as [-> | ->]; [reflexivity | destruct v; reflexivity]. }
    rewrite Hf. reflexivity.
Qed.

(* ================================================================== *)
(** * The id-keyed index of the requirements                           *)
(* ================================================================== *)

Section IndexFacts.

Import ShopOffers.

Lemma index_get_set (k id : Z) (r : row) (m : index) :
  index_get id (index_set k r m) = if id =? k then Some r else index_get id m.
Proof.
  induction m as [|[k' r'] m IH]; simpl.
  - reflexivity.
  - destruct (Z.eqb_spec k k') as [->|Hk]; simpl.
    + destruct (Z.eqb_spec id k'); reflexivity.
    + destruct (Z.eqb_spec id k') as [->|Hid].
      * destruct (Z.eqb_spec k' k); [congruence | reflexivity].
      * exact IH.
Qed.

Lemma index_keys_set (k id : Z) (r : row) (m : index) :
  In id (index_keys (index_set k r m)) <-> id = k \/ In id (index_keys m).
Proof.
  unfold index_keys. induction m as [|[k' r'] m IH]; simpl.
  - intuition.
  - destruct (Z.eqb_spec k k') as [->|Hk]; simpl.
    + intuition.
    + rewrite IH. intuition.
Qed.

(** What one row does, by the kind of its Action cell. *)
Lemma index_requirement_cases (idx : index) (L : ledger) (req : row) :
  match parsed_id req with
  | Some id =>
      malformed_id req = false
      /\ index_requirement (idx, L) req = (index_set id req idx, L)
  | None =>
      if malformed_id req
      then index_requirement (idx, L) req
           = (idx, log_warning ShopOffers (warning_text req) KNone L)
      else index_requirement (idx, L) req = (idx, L)
  end.
Proof.
  unfold parsed_id, malformed_id, index_requirement, warning_text, row_get.
  destruct (assoc "Action" req) as [a|]; [|reflexivity].
  destruct (String.eqb a ""); simpl; [reflexivity|].
  destruct (int_of_str a); [split|]; reflexivity.
Qed.

Lemma index_fold_spec (reqs : list row) :
  forall (idx0 : index) (L0 : ledger),
    let st := fold_left index_requirement reqs (idx0, L0) in
    (forall id, In id (index_keys (fst st)) <->
                In id (index_keys idx0)
                \/ exists r, In r reqs /\ parsed_id r = Some id)
    /\ (forall id r, index_get id (fst st) = Some r ->
                     index_get id idx0 = Some r
                     \/ (In r reqs /\ parsed_id r = Some id))
    /\ warnings (snd st)
       = warnings L0 ++ map warning_text (filter malformed_id reqs)
    /\ warning_checks (snd st)
       = warning_checks L0 + Z.of_nat (List.length (filter malformed_id reqs))
    /\ total_checks (snd st) = total_checks L0
    /\ failed_checks (snd st) = failed_checks L0
    /\ subject_errors (snd st) = subject_errors L0
    /\ errors (snd st) = errors L0.
Proof.
  induction reqs as [|req reqs IH]; intros idx0 L0;
    [simpl | cbn [fold_left filter In]; cbv zeta].
  - rewrite app_nil_r. split; [|split; [|repeat split; lia]].
    + intros id. split.
      * intros H. left. exact H.
      * intros [H | (r & [] & _)]. exact H.
    + intros id r H. left. exact H.
  - pose proof (index_requirement_cases idx0 L0 req) as Hc.
    destruct (parsed_id req) as [k|] eqn:Hp.
    + destruct Hc as [Hm ->]. rewrite Hm.
      destruct (IH (index_set k req idx0) L0)
        as (Hk & Hg & Hw & Hwc & Ht & Hf & Hs & He).
      split; [|split; [|repeat split; assumption]].
      * intros id. rewrite Hk, index_keys_set. split.
        -- intros [[-> | H] | (r & Hin & Hr)].
           ++ right. exists req. split; [left; reflexivity | exact Hp].
           ++ left. exact H.
           ++ right. exists r. split; [right; exact Hin | exact Hr].
        -- intros [H | (r & [<- | Hin] & Hr)].
           ++ left. right. exact H.
           ++ left. left. congruence.
           ++ right. exists r. split; assumption.
      * intros id r H. destruct (Hg id r H) as [H0 | [Hin Hr]].
        -- rewrite index_get_set in H0.
           destruct (Z.eqb_spec id k) as [->|Hne].
           ++ injection H0 as <-. right. split; [left; reflexivity | exact Hp].
           ++ left. exact H0.
        -- right. split; [right; exact Hin | exact Hr].
    + assert (Hkeys : forall (st : index * ledger),
                 fst st = idx0 ->
                 forall id,
                   (In id (index_keys idx0) \/
                    exists r, In r reqs /\ parsed_id r = Some id) <->
                   (In id (index_keys idx0) \/
                    exists r, (req = r \/ In r reqs) /\ parsed_id r = Some id)).
      { intros _ _ id. split.
        - intros [H | (r & Hin & Hr)]; [left; exact H|].
          right. exists r. split; [right; exact Hin | exact Hr].
        - intros [H | (r & [<- | Hin] & Hr)]; [left; exact H | congruence |].
          right. exists r. split; assumption. }
      destruct (malformed_id req) eqn:Hm; rewrite Hc.
      * destruct (IH idx0 (log_warning ShopOffers (warning_text req) KNone L0))
          as (Hk & Hg & Hw & Hwc & Ht & Hf & Hs & He).
        split; [|split; [|repeat split]].
        -- intros id. rewrite Hk. apply (Hkeys (idx0, L0) eq_refl).
        -- intros id r H. destruct (Hg id r H) as [H0 | [Hin Hr]].
           ++ left. exact H0.
           ++ right. split; [right; exact Hin | exact Hr].
        -- rewrite Hw. simpl. rewrite <- app_assoc. reflexivity.
        -- rewrite Hwc. simpl warning_checks.
           change (List.length (req :: filter malformed_id reqs))
             with (S (List.length (filter malformed_id reqs))). lia.
        -- rewrite Ht. reflexivity.
        -- rewrite Hf. reflexivity.
        -- rewrite Hs. reflexivity.
        -- rewrite He. reflexivity.
      * destruct (IH idx0 L0) as (Hk & Hg & Hw & Hwc & Ht & Hf & Hs & He).
        split; [|split; [|repeat split; assumption]].
        -- intros id. rewrite Hk. apply (Hkeys (idx0, L0) eq_refl).
        -- intros id r H. destruct (Hg id r H) as [H0 | [Hin Hr]].
           ++ left. exact H0.
           ++ right. split; [right; exact Hin | exact Hr].
Qed.

Lemma parsed_id_kinds (req : row) :
  match parsed_id req with
  | Some _ => malformed_id req = false /\ missing_id req = false
  | None => malformed_id req = negb (missing_id req)
  end.
Proof.
  unfold parsed_id, malformed_id, missing_id.
  destruct (assoc "Action" req) as [a|]; [|reflexivity].
  destruct (String.eqb a ""); simpl; [reflexivity|].
  destruct (int_of_str a); [split|]; reflexivity.
Qed.

End IndexFacts.

(** C3, as stated, fails. A record without an Action cell is kept out of
    the index, and no warning is recorded for it: the constructor skips it
    before it tries to read a number. *)
Lemma missing_id_leaves_no_warning :
  ~ index_as_stated [[("alias", "passOffer"); ("Offer", "12")]]
  /\ (let st := ShopOffers.requirements_by_action_id
                  [[("alias", "passOffer"); ("Offer", "12")]] empty_ledger in
      fst st = [] /\ warnings (snd st) = [] /\ warning_checks (snd st) = 0).
Proof.
  split.
  - intros H.
    destruct (H [("alias", "passOffer"); ("Offer", "12")]
                (or_introl eq_refl) eq_refl) as [_ Hin].
    exact Hin.
  - repeat split.
Qed.

(** C3, amended. In the shop-offers validator the index
    [requirements_by_action_id] is built without raising, whatever the
    requirements are; its keys are exactly the ids parsed from the records
    whose Action cell is present and not empty; a record whose Action cell
    is present, not empty and not an integer is kept out of the index and
    leaves one warning without a subject; a record whose Action cell is
    missing or empty is kept out of the index and leaves no warning. The
    warnings are the only trace: no check is counted and nothing is filed
    in the per-subject map. *)
Theorem requirements_index_construction :
  forall (requirements : list row),
    let st := ShopOffers.requirements_by_action_id requirements empty_ledger in
    (forall id, In id (index_keys (fst st)) <->
                exists req, In req requirements
                            /\ ShopOffers.parsed_id req = Some id)
    /\ (forall id req, index_get id (fst st) = Some req ->
                       In req requirements
                       /\ ShopOffers.parsed_id req = Some id)
    /\ (forall req, In req requirements ->
                    ShopOffers.malformed_id req = true ->
                    (forall id, index_get id (fst st) <> Some req)
                    /\ In (warning_text req) (warnings (snd st)))
    /\ (forall req, ShopOffers.missing_id req = true ->
                    (forall id, index_get id (fst st) <> Some req)
                    /\ ShopOffers.malformed_id req = false)
    /\ warnings (snd st)
       = map warning_text (filter ShopOffers.malformed_id requirements)
    /\ warning_checks (snd st)
       = Z.of_nat (List.length (filter ShopOffers.malformed_id requirements))
    /\ total_checks (snd st) = 0
    /\ subject_errors (snd st) = [].
Proof.
  intros requirements st. subst st. unfold ShopOffers.requirements_by_action_id.
  destruct (index_fold_spec requirements [] empty_ledger)
    as (Hk & Hg & Hw & Hwc & Ht & _ & Hs & _).
  cbn [app warnings warning_checks total_checks subject_errors empty_ledger]
    in Hw, Hwc, Ht, Hs.
  rewrite Z.add_0_l in Hwc.
  unfold index in *.
  assert (Hval : forall id req,
             index_get id
               (fst (fold_left ShopOffers.index_requirement requirements
                       ([], empty_ledger))) = Some req ->
             In req requirements /\ ShopOffers.parsed_id req = Some id).
  { intros id req H. destruct (Hg id req H) as [H0 | H0]; [discriminate | exact H0]. }
  split; [|split; [exact Hval|split; [|split; [|repeat split; assumption]]]].
  - intros id. rewrite Hk. split.
    + intros [[] | H]. exact H.
    + intros H. right. exact H.
  - intros req Hin Hm. split.
    + intros id H. destruct (Hval id req H) as [_ Hp].
      pose proof (parsed_id_kinds req) as Hkd. rewrite Hp in Hkd.
      destruct Hkd as [Hm' _]. congruence.
    + rewrite Hw. apply in_map. apply filter_In. split; assumption.
  - intros req Hmiss. split.
    + intros id H. destruct (Hval id req H) as [_ Hp].
      pose proof (parsed_id_kinds req) as Hkd. rewrite Hp in Hkd.
      destruct Hkd as [_ Hm']. congruence.
    + pose proof (parsed_id_kinds req) as Hkd.
      destruct (ShopOffers.parsed_id req).
      * destruct Hkd as [Hm' _]. exact Hm'.
      * rewrite Hkd, Hmiss. reflexivity.
Qed.

(** Where [int] is called outside [try], a cell that is not a number ends
    the construction: quests-weekly and main-reward-lines raise
    [ValueError] from [__init__]. *)
Lemma unguarded_int_raises :
  QuestsWeekly.complexity_details [[("complexity", "abc")]] [] = Raise ValueError
  /\ MainRewardLines.free_actions [[("action_free", "n/a")]] = Raise ValueError
  /\ MainRewardLines.paid_actions [[("action_paid", "12x")]] = Raise ValueError.
Proof. repeat split. Qed.

(* ================================================================== *)
(** * Presence and value of a nested award entry                       *)
(* ================================================================== *)

Section AwardFacts.

Lemma results_log_check v k n r ex ac d t (L : ledger) :
  results (log_check v k n r ex ac d t L) = results L ++ [r].
Proof.
  unfold log_check, results. destruct r; simpl; rewrite flat_map_app; reflexivity.
Qed.

Lemma total_log_check v k n r ex ac d t (L : ledger) :
  total_checks (log_check v k n r ex ac d t L) = total_checks L + 1.
Proof. unfold log_check. destruct r; reflexivity. Qed.

Lemma failed_log_check v k n r ex ac d t (L : ledger) :
  failed_checks (log_check v k n r ex ac d t L)
  = failed_checks L + (if r then 0 else 1).
Proof. unfold log_check. destruct r; simpl; lia. Qed.

Lemma filed_log_check_failed v k n ex ac d t (L : ledger) :
  filed k (check_details v n ex ac d t) (log_check v k n false ex ac d t L).
Proof.
  unfold log_check.
  eapply filed_same_map with (L := file_under k (check_details v n ex ac d t) L).
  - reflexivity.
  - apply filed_file_under_new.
Qed.

Lemma quests_award_absent cid awards entries req item_id cell expected L :
  row_get ("count(" ++ str_of_Z item_id ++ ")")%string req = cell ->
  cell <> "" -> isdigit cell = true -> int_of_str cell = Some expected ->
  iter awards = Ok entries ->
  QuestsWeekly.find_award entries item_id = Ok None ->
  exists L',
    QuestsWeekly.check_award cid awards req item_id L = Done tt L'
    /\ results L' = results L ++ [false]
    /\ total_checks L' = total_checks L + 1
    /\ failed_checks L' = failed_checks L + 1
    /\ filed (KInt cid) (presence_record item_id) L'.
Proof.
  intros Hcell Hne Hd Hint Hit Hfind.
  unfold QuestsWeekly.check_award. rewrite Hcell, Hd, Hint.
  destruct (String.eqb_spec cell ""); [contradiction|]. simpl.
  unfold bind, lift, act, ret. rewrite Hit, Hfind.
  eexists. split; [reflexivity|].
  split; [apply results_log_check|].
  split; [apply total_log_check|].
  split; [rewrite failed_log_check; reflexivity|].
  apply filed_log_check_failed.
Qed.

Lemma quests_award_present cid awards entries req item_id cell expected actual L :
  row_get ("count(" ++ str_of_Z item_id ++ ")")%string req = cell ->
  cell <> "" -> isdigit cell = true -> int_of_str cell = Some expected ->
  iter awards = Ok entries ->
  QuestsWeekly.find_award entries item_id = Ok (Some actual) ->
  exists L',
    QuestsWeekly.check_award cid awards req item_id L = Done tt L'
    /\ results L' = results L ++ [true; eq_int actual expected]
    /\ total_checks L' = total_checks L + 2.
Proof.
  intros Hcell Hne Hd Hint Hit Hfind.
  unfold QuestsWeekly.check_award. rewrite Hcell, Hd, Hint.
  destruct (String.eqb_spec cell ""); [contradiction|]. simpl.
  unfold bind, lift, act, ret. rewrite Hit, Hfind.
  eexists. split; [reflexivity|].
  split.
  - rewrite !results_log_check, <- app_assoc. reflexivity.
  - rewrite !total_log_check. lia.
Qed.

Lemma shop_award_column action_id awards entries column value p0 p1
    item_id expected found L :
  value <> "" -> startswith "Award_" column = true ->
  split_on "(" column = [p0; p1] ->
  int_of_str (remove_char ")" p1) = Some item_id ->
  int_of_str value = Some expected ->
  iter awards = Ok entries ->
  ShopOffers.find_item entries item_id = Ok found ->
  exists L',
    ShopOffers.check_award_column action_id awards (column, value) L = Done tt L'
    /\ results L'
       = results L ++ [match found with
                       | Some actual => eq_int actual expected
                       | None => false
                       end]
    /\ total_checks L' = total_checks L + 1
    /\ failed_checks L'
       = failed_checks L + (match found with
                            | Some actual =>
                                if eq_int actual expected then 0 else 1
                            | None => 1
                            end).
Proof.
  intros Hne Hst Hsp Hid Hval Hit Hfind.
  unfold ShopOffers.check_award_column. rewrite Hst, Hsp, Hid, Hval.
  destruct (String.eqb_spec value ""); [contradiction|]. simpl.
  unfold bind, lift, act. rewrite Hit, Hfind.
  eexists. split; [reflexivity|].
  split; [apply results_log_check|].
  split; [apply total_log_check|].
  rewrite failed_log_check. destruct found as [actual|]; reflexivity.
Qed.

Lemma find_award_absent (entries : list pyval) (item_id : Z) :
  forallb (passed_over (names_item item_id)) entries = true ->
  QuestsWeekly.find_award entries item_id = Ok None.
Proof.
  induction entries as [|award rest IH]; cbn [forallb QuestsWeekly.find_award];
    [reflexivity|].
  intros H. apply andb_prop in H as [Ha Hrest].
  unfold passed_over in Ha. apply andb_prop in Ha as [Hd Hn].
  destruct award; try discriminate Hd.
  cbn [names_item] in Hn. cbn [get get_or rbind].
  destruct (eq_int _ item_id); [discriminate Hn | apply IH, Hrest].
Qed.

Lemma find_award_present (before after : list pyval) (d : list (string * pyval))
    (item_id : Z) :
  forallb (passed_over (names_item item_id)) before = true ->
  names_item item_id (VDict d) = true ->
  QuestsWeekly.find_award (before ++ VDict d :: after) item_id
  = Ok (Some (match assoc "count" d with Some x => x | None => VNone end)).
Proof.
  intros Hb Hd.
  induction before as [|award rest IH];
    cbn [forallb app QuestsWeekly.find_award] in *.
  - cbn [names_item] in Hd. cbn [get get_or rbind]. rewrite Hd. reflexivity.
  - apply andb_prop in Hb as [Ha Hrest].
    unfold passed_over in Ha. apply andb_prop in Ha as [Hdict Hn].
    destruct award; try discriminate Hdict.
    cbn [names_item] in Hn. cbn [get get_or rbind].
    destruct (eq_int _ item_id); [discriminate Hn | apply IH, Hrest].
Qed.

Lemma find_item_absent (entries : list pyval) (item_id : Z) :
  forallb (passed_over (is_item_award item_id)) entries = true ->
  ShopOffers.find_item entries item_id = Ok None.
Proof.
  induction entries as [|award rest IH]; cbn [forallb ShopOffers.find_item];
    [reflexivity|].
  intros H. apply andb_prop in H as [Ha Hrest].
  unfold passed_over in Ha. apply andb_prop in Ha as [Hd Hn].
  destruct award; try discriminate Hd.
  cbn [is_item_award] in Hn. cbn [get get_or rbind].
  destruct (eq_str _ "item"); cbn [andb] in Hn; [|apply IH, Hrest].
  destruct (eq_int _ item_id); [discriminate Hn | apply IH, Hrest].
Qed.

Lemma find_item_present (before after : list pyval) (d : list (string * pyval))
    (item_id : Z) :
  forallb (passed_over (is_item_award item_id)) before = true ->
  is_item_award item_id (VDict d) = true ->
  ShopOffers.find_item (before ++ VDict d :: after) item_id
  = Ok (Some (match assoc "count" d with Some x => x | None => VInt 0 end)).
Proof.
  intros Hb Hd.
  induction before as [|award rest IH];
    cbn [forallb app ShopOffers.find_item] in *.
  - cbn [is_item_award] in Hd. apply andb_prop in Hd as [Ht Hi].
    cbn [get get_or rbind]. rewrite Ht, Hi. reflexivity.
  - apply andb_prop in Hb as [Ha Hrest].
    unfold passed_over in Ha. apply andb_prop in Ha as [Hdict Hn].
    destruct award; try discriminate Hdict.
    cbn [is_item_award] in Hn. cbn [get get_or rbind].
    destruct (eq_str _ "item"); cbn [andb] in Hn; [|apply IH, Hrest].
    destruct (eq_int _ item_id); [discriminate Hn | apply IH, Hrest].
Qed.

(** [isdigit] guards [int]: a text of decimal digits is an integer. *)
Lemma digit_kinds (c : ascii) :
  is_digit c = true ->
  is_int_space c = false /\ Ascii.eqb c "_" = false
  /\ c <> "-"%char /\ c <> "+"%char.
Proof.
  destruct c as [[] [] [] [] [] [] [] []]; cbn; intros H;
    first [discriminate H | repeat split; discriminate].
Qed.

Lemma parse_all_digits (cs : list ascii) :
  forallb is_digit cs = true ->
  forall acc b, cs <> [] \/ b = true ->
                exists n, parse_digits cs acc b = Some n.
Proof.
  induction cs as [|c cs IH]; cbn [forallb parse_digits]; intros H acc b Hb.
  - destruct Hb as [Hb | ->]; [contradiction | eexists; reflexivity].
  - apply andb_prop in H as [Hc Hcs]. rewrite Hc.
    apply IH; [exact Hcs | right; reflexivity].
Qed.

Lemma skip_int_space_digit (c : ascii) (cs : list ascii) :
  is_digit c = true -> skip_int_space (c :: cs) = c :: cs.
Proof.
  intros H. cbn [skip_int_space].
  destruct (digit_kinds c H) as (-> & _). reflexivity.
Qed.

Lemma isdigit_int (s : string) :
  isdigit s = true -> exists n, int_of_str s = Some n.
Proof.
  unfold isdigit, int_of_str.
  destruct (list_ascii_of_string s) as [|c cs] eqn:E; [discriminate|].
  intros H. assert (Hc : is_digit c = true).
  { cbn [forallb] in H. apply andb_prop in H as [Hc _]. exact Hc. }
  rewrite (skip_int_space_digit c cs Hc).
  assert (Hrev : skip_int_space (rev (c :: cs)) = rev (c :: cs)).
  { assert (Hall : forallb is_digit (rev (c :: cs)) = true).
    { rewrite forallb_forall in *. intros x Hx. apply H, in_rev, Hx. }
    destruct (rev (c :: cs)) as [|x xs]; [reflexivity|].
    apply skip_int_space_digit.
    cbn [forallb] in Hall. apply andb_prop in Hall as [Hx _]. exact Hx. }
  rewrite Hrev, rev_involutive.
  destruct (parse_all_digits (c :: cs) H 0 false) as [n Hn];
    [left; discriminate|].
  destruct (digit_kinds c Hc) as (_ & _ & Hm & Hp).
  exists n. rewrite <- Hn.
  destruct c as [[] [] [] [] [] [] [] []];
    first [reflexivity | contradiction Hm; reflexivity
          | contradiction Hp; reflexivity].
Qed.

End AwardFacts.

(** C4, as stated, fails on shop-offers: the award of item 17909 is in the
    action with the required count, and [validate_action_rewards] logs one
    combined check for it, not a presence check and a value check. *)
Lemma shop_award_is_one_check :
  ~ two_results_when_present 1001
      (VList [VDict [("type", VStr "item"); ("itemId", VInt 17909);
                     ("count", VInt 5)]])
      ("Award_points(17909)", "5")
  /\ (forall L',
        ShopOffers.check_award_column 1001
          (VList [VDict [("type", VStr "item"); ("itemId", VInt 17909);
                         ("count", VInt 5)]])
          ("Award_points(17909)", "5") empty_ledger = Done tt L' ->
        results L' = [true] /\ total_checks L' = 1).
Proof.
  split.
  - intros H. specialize (H _ eq_refl). discriminate H.
  - intros L' H. vm_compute in H. injection H as <-. split; reflexivity.
Qed.

(** C4, amended. A requirement of quests-weekly names an entry when its
    count cell is made of decimal digits; a cell of ASCII text that is not
    (an empty cell, "10 ", "-3") produces no result at all. For a cell of
    digits, when no award of the quest has the item id, exactly one check
    result is produced and it is a failure: the presence check, filed
    under the complexity id, and the count check is not made; when an
    award has it, the first such award gives two results, a passed
    presence check followed by the comparison of its count with the cell.
    A requirement of shop-offers is a filled Award_ column whose name and
    cell give an item id and a count; it gets one result in both cases,
    a failure when no award of type "item" has the item id, and otherwise
    the comparison of the count of the first such award with the cell. *)
Theorem presence_then_value :
  (forall cid awards entries req item_id L,
      let cell := row_get ("count(" ++ str_of_Z item_id ++ ")")%string req in
      (ascii_text cell = true -> isdigit cell = false ->
       QuestsWeekly.check_award cid awards req item_id L = Done tt L)
      /\ (isdigit cell = true -> iter awards = Ok entries ->
          exists expected,
            int_of_str cell = Some expected
            /\ (forallb (passed_over (names_item item_id)) entries = true ->
                exists L',
                  QuestsWeekly.check_award cid awards req item_id L = Done tt L'
                  /\ results L' = results L ++ [false]
                  /\ total_checks L' = total_checks L + 1
                  /\ failed_checks L' = failed_checks L + 1
                  /\ filed (KInt cid) (presence_record item_id) L')
            /\ (forall before d after actual,
                   entries = before ++ VDict d :: after ->
                   forallb (passed_over (names_item item_id)) before = true ->
                   names_item item_id (VDict d) = true ->
                   get "count" (VDict d) = Ok actual ->
                   exists L',
                     QuestsWeekly.check_award cid awards req item_id L
                     = Done tt L'
                     /\ results L' = results L ++ [true; eq_int actual expected]
                     /\ total_checks L' = total_checks L + 2)))
  /\ (forall action_id awards entries column value p0 p1 item_id expected L,
         value <> "" -> startswith "Award_" column = true ->
         split_on "(" column = [p0; p1] ->
         int_of_str (remove_char ")" p1) = Some item_id ->
         int_of_str value = Some expected ->
         iter awards = Ok entries ->
         (forallb (passed_over (is_item_award item_id)) entries = true ->
          exists L',
            ShopOffers.check_award_column action_id awards (column, value) L
            = Done tt L'
            /\ results L' = results L ++ [false]
            /\ total_checks L' = total_checks L + 1
            /\ failed_checks L' = failed_checks L + 1)
         /\ (forall before d after actual,
                entries = before ++ VDict d :: after ->
                forallb (passed_over (is_item_award item_id)) before = true ->
                is_item_award item_id (VDict d) = true ->
                get_or "count" (VInt 0) (VDict d) = Ok actual ->
                exists L',
                  ShopOffers.check_award_column action_id awards (column, value) L
                  = Done tt L'
                  /\ results L' = results L ++ [eq_int actual expected]
                  /\ total_checks L' = total_checks L + 1)).
Proof.
  split.
  - intros cid awards entries req item_id L cell. split.
    + intros _ Hd. unfold QuestsWeekly.check_award. fold cell.
      rewrite Hd, andb_false_r. reflexivity.
    + intros Hd Hit. destruct (isdigit_int cell Hd) as [expected Hint].
      assert (Hne : cell <> "").
      { intros E. rewrite E in Hd. discriminate Hd. }
      exists expected. split; [exact Hint|]. split.
      * intros Habs.
        eapply quests_award_absent; try eassumption; try reflexivity.
        apply find_award_absent, Habs.
      * intros before d after actual -> Hb Hn Hc.
        eapply quests_award_present; try eassumption; try reflexivity.
        rewrite (find_award_present before after d item_id Hb Hn).
        cbn [get get_or] in Hc. injection Hc as <-. reflexivity.
  - intros action_id awards entries column value p0 p1 item_id expected L
           Hne Hst Hsp Hid Hv Hit.
    split.
    + intros Habs.
      destruct (shop_award_column action_id awards entries column value p0 p1
                  item_id expected None L Hne Hst Hsp Hid Hv Hit
                  (find_item_absent entries item_id Habs))
        as (L' & He & Hr & Ht & Hfl).
      exists L'. repeat split; assumption.
    + intros before d after actual -> Hb Hn Hc.
      destruct (shop_award_column action_id awards (before ++ VDict d :: after)
                  column value p0 p1 item_id expected (Some actual) L
                  Hne Hst Hsp Hid Hv Hit)
        as (L' & He & Hr & Ht & _).
      { rewrite (find_item_present before after d item_id Hb Hn).
        cbn [get_or] in Hc. injection Hc as <-. reflexivity. }
      exists L'. repeat split; assumption.
Qed.

(* ================================================================== *)
(** * Trimming and splitting                                           *)
(* ================================================================== *)

Section StripFacts.

Lemma lstrip_clean (cs : list ascii) : starts_clean (lstrip_chars cs).
Proof.
  induction cs as [|c cs IH]; cbn [lstrip_chars]; [exact I|].
  destruct (is_space c) eqn:E; [exact IH | exact E].
Qed.

Lemma lstrip_fixed (cs : list ascii) : starts_clean cs -> lstrip_chars cs = cs.
Proof.
  destruct cs as [|c cs]; cbn [starts_clean lstrip_chars]; [reflexivity|].
  intros ->. reflexivity.
Qed.

Lemma lstrip_suffix (cs : list ascii) : exists pre, cs = pre ++ lstrip_chars cs.
Proof.
  induction cs as [|c cs [pre IH]]; cbn [lstrip_chars].
  - exists []. reflexivity.
  - destruct (is_space c).
    + exists (c :: pre). cbn [app]. rewrite <- IH. reflexivity.
    + exists []. reflexivity.
Qed.

Lemma strip_chars_within (cs : list ascii) (c : ascii) :
  In c (strip_chars cs) -> In c cs.
Proof.
  unfold strip_chars. intros H. apply in_rev in H.
  destruct (lstrip_suffix (rev (lstrip_chars cs))) as [pre Hp].
  assert (H1 : In c (rev (lstrip_chars cs))).
  { rewrite Hp. apply in_or_app. right. exact H. }
  apply in_rev in H1.
  destruct (lstrip_suffix cs) as [pre' Hp'].
  rewrite Hp'. apply in_or_app. right. exact H1.
Qed.

Lemma strip_chars_idempotent (cs : list ascii) :
  strip_chars (strip_chars cs) = strip_chars cs.
Proof.
  unfold strip_chars.
  set (a := lstrip_chars cs).
  set (b := lstrip_chars (rev a)).
  assert (Hclean : starts_clean (rev b)).
  { destruct (lstrip_suffix (rev a)) as [pre Hp]. fold b in Hp.
    assert (Ha : a = rev b ++ rev pre).
    { rewrite <- (rev_involutive a), Hp, rev_app_distr. reflexivity. }
    pose proof (lstrip_clean cs) as Hc. fold a in Hc. rewrite Ha in Hc.
    destruct (rev b); [exact I | exact Hc]. }
  rewrite (lstrip_fixed _ Hclean), rev_involutive.
  subst b. rewrite (lstrip_fixed _ (lstrip_clean (rev a))). reflexivity.
Qed.

Lemma strip_idempotent (s : string) : strip (strip s) = strip s.
Proof.
  unfold strip. rewrite list_ascii_of_string_of_list_ascii.
  rewrite strip_chars_idempotent. reflexivity.
Qed.

Lemma strip_within (s : string) (c : ascii) :
  In c (list_ascii_of_string (strip s)) -> In c (list_ascii_of_string s).
Proof.
  unfold strip. rewrite list_ascii_of_string_of_list_ascii.
  apply strip_chars_within.
Qed.

Lemma strip_empty : strip "" = "".
Proof. reflexivity. Qed.

End StripFacts.

Section SplitFacts.

Variable sep : ascii.

Lemma split_on_pieces (s : string) :
  Forall (fun w => ~ In sep (list_ascii_of_string w)) (split_on sep s).
Proof.
  induction s as [|c s IH]; cbn [split_on].
  - constructor; [intros [] | constructor].
  - destruct (Ascii.eqb_spec c sep) as [->|Hne].
    + constructor; [intros [] | exact IH].
    + destruct (split_on sep s) as [|w ws].
      * constructor; [|constructor].
        cbn. intros [H | []]. congruence.
      * inversion IH as [|x l Hw Hws]; subst.
        constructor; [|exact Hws].
        cbn. intros [H | H]; [congruence | contradiction].
Qed.

Lemma split_on_not_empty (s : string) : split_on sep s <> [].
Proof.
  destruct s as [|c s]; cbn [split_on]; [discriminate|].
  destruct (Ascii.eqb c sep); [discriminate|].
  destruct (split_on sep s); discriminate.
Qed.

Lemma split_on_piece (x : string) :
  ~ In sep (list_ascii_of_string x) -> split_on sep x = [x].
Proof.
  induction x as [|c x IH]; cbn [split_on list_ascii_of_string];
    [reflexivity|].
  intros H. destruct (Ascii.eqb_spec c sep) as [->|Hne].
  - exfalso. apply H. left. reflexivity.
  - rewrite IH; [reflexivity|]. intros Hin. apply H. right. exact Hin.
Qed.

Lemma split_on_joined (x rest : string) :
  ~ In sep (list_ascii_of_string x) ->
  split_on sep (x ++ String sep rest) = x :: split_on sep rest.
Proof.
  induction x as [|c x IH]; cbn [split_on list_ascii_of_string append].
  - intros _. rewrite Ascii.eqb_refl. reflexivity.
  - intros H. destruct (Ascii.eqb_spec c sep) as [->|Hne].
    + exfalso. apply H. left. reflexivity.
    + rewrite IH; [reflexivity|]. intros Hin. apply H. right. exact Hin.
Qed.

Lemma split_on_concat (xs : list string) :
  Forall (fun w => ~ In sep (list_ascii_of_string w)) xs ->
  split_on sep (String.concat (String sep EmptyString) xs)
  = match xs with [] => [EmptyString] | _ => xs end.
Proof.
  induction xs as [|x xs IH]; cbn [String.concat]; [reflexivity|].
  intros H. inversion H as [|y l Hx Hxs]; subst.
  destruct xs as [|x' xs].
  - apply split_on_piece. exact Hx.
  - cbn [append]. rewrite (split_on_joined x _ Hx), (IH Hxs). reflexivity.
Qed.

End SplitFacts.

Section SegmentFacts.

Import RfmOffers.

Lemma segments_normal (cell x : string) :
  In x (segments_of cell) -> normal_segment x.
Proof.
  unfold segments_of. intros H. apply filter_In in H. destruct H as [Hin Hne].
  apply in_map_iff in Hin. destruct Hin as (y & <- & Hy).
  split; [|split].
  - intros E. rewrite E in Hne. discriminate Hne.
  - apply strip_idempotent.
  - intros Hc. apply strip_within in Hc.
    pose proof (split_on_pieces "," cell) as Hall.
    rewrite Forall_forall in Hall. exact (Hall y Hy Hc).
Qed.

Lemma segments_of_joined (xs : list string) :
  (forall x, In x xs -> normal_segment x) ->
  segments_of (String.concat "," xs) = xs.
Proof.
  intros H. unfold segments_of.
  rewrite split_on_concat.
  2: { apply Forall_forall. intros x Hx. apply (H x Hx). }
  destruct xs as [|x0 xs0]; [reflexivity|].
  set (xs := x0 :: xs0) in *. clearbody xs. clear x0 xs0.
  induction xs as [|x xs IH]; [reflexivity|].
  cbn [map filter].
  destruct (H x (or_introl eq_refl)) as (Hne & Hs & _).
  rewrite Hs. destruct (String.eqb_spec x ""); [contradiction|].
  cbn [negb]. rewrite IH; [reflexivity|].
  intros y Hy. apply H. right. exact Hy.
Qed.

End SegmentFacts.


(* ================================================================== *)
(** * Comparison modes: segment lists, dates, prices                   *)
(* ================================================================== *)

Section StringOrder.

Lemma ascii_compare_lt_trans (a b c : ascii) :
  Ascii.compare a b = Lt -> Ascii.compare b c = Lt -> Ascii.compare a c = Lt.
Proof.
  unfold Ascii.compare. rewrite !N.compare_lt_iff. apply N.lt_trans.
Qed.

Lemma compare_lt_trans (s1 : string) :
  forall s2 s3,
    String.compare s1 s2 = Lt -> String.compare s2 s3 = Lt ->
    String.compare s1 s3 = Lt.
Proof.
  induction s1 as [|a s1 IH]; intros [|b s2] [|c s3]; simpl;
    try discriminate; try reflexivity.
  destruct (Ascii.compare a b) eqn:Hab; try discriminate.
  - apply Ascii.compare_eq_iff in Hab. subst b.
    destruct (Ascii.compare a c); try discriminate; [apply IH | reflexivity].
  - intros _. destruct (Ascii.compare b c) eqn:Hbc; try discriminate.
    + apply Ascii.compare_eq_iff in Hbc. subst c. rewrite Hab. reflexivity.
    + intros _. rewrite (ascii_compare_lt_trans a b c Hab Hbc). reflexivity.
Qed.

Lemma str_le_trans (a b c : string) : str_le a b -> str_le b c -> str_le a c.
Proof.
  unfold str_le, String.leb.
  destruct (String.compare a b) eqn:Hab; try discriminate;
    destruct (String.compare b c) eqn:Hbc; try discriminate; intros _ _.
  - apply String.compare_eq_iff in Hab. subst b. rewrite Hbc. reflexivity.
  - apply String.compare_eq_iff in Hab. subst b. rewrite Hbc. reflexivity.
  - apply String.compare_eq_iff in Hbc. subst c. rewrite Hab. reflexivity.
  - rewrite (compare_lt_trans a b c Hab Hbc). reflexivity.
Qed.

End StringOrder.

Section SortFacts.

Import RfmOffers.

Lemma insert_sorted_perm (x : string) (l : list string) :
  Permutation (insert_sorted x l) (x :: l).
Proof.
  induction l as [|y l IH]; simpl.
  - apply Permutation_refl.
  - destruct (String.leb x y).
    + apply Permutation_refl.
    + apply perm_trans with (y :: x :: l).
      * apply perm_skip. exact IH.
      * apply perm_swap.
Qed.

Lemma sort_perm (l : list string) : Permutation (sort l) l.
Proof.
  induction l as [|x l IH]; simpl.
  - apply perm_nil.
  - apply perm_trans with (x :: sort l).
    + apply insert_sorted_perm.
    + apply perm_skip. exact IH.
Qed.

Lemma insert_sorted_sorted (x : string) (l : list string) :
  StronglySorted str_le l -> StronglySorted str_le (insert_sorted x l).
Proof.
  induction 1 as [|y l Hs IH Hall]; simpl.
  - constructor; constructor.
  - destruct (String.leb x y) eqn:Hxy.
    + constructor.
      * constructor; assumption.
      * constructor; [exact Hxy|].
        rewrite Forall_forall in *. intros z Hz.
        apply str_le_trans with y; [exact Hxy | apply Hall; exact Hz].
    + constructor; [exact IH|].
      rewrite Forall_forall in *. intros z Hz.
      apply (Permutation_in _ (insert_sorted_perm x l)) in Hz.
      destruct Hz as [<- | Hz].
      * destruct (String.leb_total x y) as [H | H]; [congruence | exact H].
      * apply Hall. exact Hz.
Qed.

Lemma sort_sorted (l : list string) : StronglySorted str_le (sort l).
Proof.
  induction l as [|x l IH]; simpl.
  - constructor.
  - apply insert_sorted_sorted. exact IH.
Qed.

Lemma sorted_perm_eq (l1 : list string) :
  forall l2,
    StronglySorted str_le l1 -> StronglySorted str_le l2 ->
    Permutation l1 l2 -> l1 = l2.
Proof.
  induction l1 as [|x l1 IH]; intros l2 H1 H2 Hp.
  - apply Permutation_nil in Hp. congruence.
  - destruct l2 as [|y l2].
    + apply Permutation_sym, Permutation_nil in Hp. discriminate.
    + inversion H1 as [|? ? Hs1 Hall1]; subst.
      inversion H2 as [|? ? Hs2 Hall2]; subst.
      rewrite Forall_forall in Hall1, Hall2.
      assert (Hxy : x = y).
      { assert (Hx : In x (y :: l2))
          by (apply (Permutation_in _ Hp); left; reflexivity).
        assert (Hy : In y (x :: l1))
          by (apply (Permutation_in _ (Permutation_sym Hp)); left; reflexivity).
        destruct Hx as [Hx | Hx]; [congruence|].
        destruct Hy as [Hy | Hy]; [congruence|].
        apply String.leb_antisym; [apply Hall1 | apply Hall2]; assumption. }
      subst y. f_equal. apply IH; try assumption.
      apply Permutation_cons_inv with x. exact Hp.
Qed.

Lemma sort_eq_iff_perm (l1 l2 : list string) :
  sort l1 = sort l2 <-> Permutation l1 l2.
Proof.
  split.
  - intros H. apply perm_trans with (sort l1).
    + apply Permutation_sym, sort_perm.
    + rewrite H. apply sort_perm.
  - intros H. apply sorted_perm_eq; try apply sort_sorted.
    apply perm_trans with l1; [apply sort_perm|].
    apply perm_trans with l2; [exact H | apply Permutation_sym, sort_perm].
Qed.

Lemma list_eqb_eq (l1 : list string) :
  forall l2, list_eqb l1 l2 = true <-> l1 = l2.
Proof.
  induction l1 as [|x l1 IH]; intros [|y l2]; simpl;
    try (split; [discriminate | congruence]).
  - split; reflexivity.
  - rewrite andb_true_iff, String.eqb_eq, IH. split.
    + intros [-> ->]. reflexivity.
    + intros H. injection H as -> ->. split; reflexivity.
Qed.

End SortFacts.

(** C5. The segment check compares the two comma-separated lists without
    regard to order. Each side is split on ',', its pieces are trimmed and
    the empty ones dropped: a text made of pieces joined by commas gives
    its trimmed pieces that are not empty, in their order. The check
    passes exactly when one list of segments is a rearrangement of the
    other (both are sorted and compared as sequences), so "b,a" against
    "a, b" passes, while "a,b" against "a,c" fails and so does "a,b"
    against "a,b,b", a repeated segment being counted; when no setting
    carries the segments the check fails; and this comparison is the
    result [validate_rfm_files] logs for a row that has the cell. *)
Theorem segments_order_insensitive :
  (forall expected actual,
      RfmOffers.segments_match expected (Some actual) = true
      <-> Permutation (RfmOffers.segments_of expected)
                      (RfmOffers.segments_of actual))
  /\ RfmOffers.segments_match "b,a" (Some "a, b") = true
  /\ (forall expected, RfmOffers.segments_match expected None = false)
  /\ (forall offer_name req cell settings entries found L,
         cell_or_empty "segment" req = Some cell ->
         iter settings = Ok entries ->
         RfmOffers.find_segments entries = Ok found ->
         exists L',
           RfmOffers.check_segments offer_name req settings L = Done tt L'
           /\ results L' = results L ++ [RfmOffers.segments_match cell found]
           /\ total_checks L' = total_checks L + 1)
  /\ (forall pieces,
         pieces <> [] ->
         Forall (fun piece => ~ In ","%char (list_ascii_of_string piece)) pieces ->
         RfmOffers.segments_of (String.concat "," pieces)
         = filter (fun x => negb (String.eqb x "")) (map strip pieces))
  /\ RfmOffers.segments_of " b, a ,,c " = ["b"; "a"; "c"]
  /\ RfmOffers.segments_match "a,b" (Some "a,c") = false
  /\ RfmOffers.segments_match "a,b" (Some "a,b,b") = false
  /\ RfmOffers.segments_match "a,b" (Some "") = false.
Proof.
  split; [|split; [|split; [|split; [|split]]]].
  - intros expected actual. unfold RfmOffers.segments_match.
    rewrite list_eqb_eq. apply sort_eq_iff_perm.
  - reflexivity.
  - reflexivity.
  - intros offer_name req cell settings entries found L Hc Hit Hf.
    unfold RfmOffers.check_segments, bind, lift, act. rewrite Hc, Hit, Hf.
    eexists. split; [reflexivity|].
    split; [apply results_log_check | apply total_log_check].
  - intros pieces Hne Hall. unfold RfmOffers.segments_of.
    rewrite split_on_concat by exact Hall.
    destruct pieces; [contradiction | reflexivity].
  - repeat split.
Qed.

Section DateFacts.

Import RfmOffers.

Lemma chars_app (s1 s2 : string) :
  list_ascii_of_string (s1 ++ s2)
  = list_ascii_of_string s1 ++ list_ascii_of_string s2.
Proof.
  induction s1 as [|c s1 IH]; simpl; [reflexivity | rewrite IH; reflexivity].
Qed.

Lemma chars_length (s : string) :
  List.length (list_ascii_of_string s) = String.length s.
Proof.
  induction s as [|c s IH]; simpl; [reflexivity | rewrite IH; reflexivity].
Qed.

Lemma take_digits_app (ds rest : list ascii) :
  forallb is_digit ds = true ->
  take_digits (List.length ds) (ds ++ rest) = Some (ds, rest).
Proof.
  induction ds as [|c ds IH]; simpl.
  - reflexivity.
  - rewrite andb_true_iff. intros [Hc Hds]. rewrite Hc, (IH Hds). reflexivity.
Qed.

Lemma take_digits_of (n : nat) (s : string) (rest : list ascii) :
  digits n s ->
  take_digits n (list_ascii_of_string s ++ rest)
  = Some (list_ascii_of_string s, rest).
Proof.
  intros [Hlen Hd]. rewrite <- Hlen, <- chars_length. apply take_digits_app.
  exact Hd.
Qed.

Lemma digit_is_not_colon (c : ascii) :
  is_digit c = true -> Ascii.eqb c ":" = false.
Proof.
  destruct c as [[] [] [] [] [] [] [] []]; simpl; intros H;
    first [reflexivity | discriminate H].
Qed.

Lemma string_of_chars_app (l1 l2 : list ascii) :
  string_of_list_ascii (l1 ++ l2)
  = (string_of_list_ascii l1 ++ string_of_list_ascii l2)%string.
Proof.
  induction l1 as [|c l1 IH]; simpl; [reflexivity | rewrite IH; reflexivity].
Qed.

Lemma str_app_assoc (a b c : string) :
  ((a ++ b) ++ c)%string = (a ++ b ++ c)%string.
Proof.
  induction a as [|x a IH]; simpl; [reflexivity | rewrite IH; reflexivity].
Qed.

Lemma date_not_empty (y rest : string) :
  digits 4 y -> String.eqb (y ++ rest) "" = false.
Proof.
  intros [Hlen _]. destruct y; [discriminate Hlen | reflexivity].
Qed.

Lemma match_short_hour (y mo d h mi s : string) :
  digits 4 y -> digits 2 mo -> digits 2 d -> digits 1 h ->
  digits 2 mi -> digits 2 s ->
  match_hour_pattern (short_hour y mo d h mi s)
  = Some ((y ++ "-" ++ mo ++ "-" ++ d)%string, h, mi, s).
Proof.
  intros Hy Hmo Hd Hh Hmi Hs.
  unfold match_hour_pattern, short_hour.
  rewrite !chars_app.
  rewrite (take_digits_of 4 y _ Hy). cbn [list_ascii_of_string app take_char Ascii.eqb Bool.eqb].
  rewrite (take_digits_of 2 mo _ Hmo). cbn [list_ascii_of_string app take_char Ascii.eqb Bool.eqb].
  rewrite (take_digits_of 2 d _ Hd). cbn [list_ascii_of_string app take_char Ascii.eqb Bool.eqb].
  rewrite (take_digits_of 1 h _ Hh). cbn [list_ascii_of_string app take_char Ascii.eqb Bool.eqb].
  rewrite (take_digits_of 2 mi _ Hmi). cbn [list_ascii_of_string app take_char Ascii.eqb Bool.eqb].
  rewrite <- (app_nil_r (list_ascii_of_string s)).
  rewrite (take_digits_of 2 s _ Hs).
  rewrite !string_of_list_ascii_of_string.
  rewrite string_of_chars_app. cbn [string_of_list_ascii].
  rewrite string_of_chars_app. cbn [string_of_list_ascii].
  rewrite !string_of_list_ascii_of_string.
  reflexivity.
Qed.

Lemma match_padded_hour (y mo d hh rest : string) :
  digits 4 y -> digits 2 mo -> digits 2 d -> digits 2 hh ->
  match_hour_pattern (y ++ "-" ++ mo ++ "-" ++ d ++ " " ++ hh ++ rest)%string
  = None.
Proof.
  intros Hy Hmo Hd [Hlen Hh].
  unfold match_hour_pattern.
  rewrite !chars_app.
  rewrite (take_digits_of 4 y _ Hy). cbn [list_ascii_of_string app take_char Ascii.eqb Bool.eqb].
  rewrite (take_digits_of 2 mo _ Hmo). cbn [list_ascii_of_string app take_char Ascii.eqb Bool.eqb].
  rewrite (take_digits_of 2 d _ Hd). cbn [list_ascii_of_string app take_char Ascii.eqb Bool.eqb].
  destruct hh as [|h1 [|h2 [|]]]; try discriminate Hlen.
  cbn [list_ascii_of_string forallb] in Hh.
  rewrite !andb_true_iff in Hh. destruct Hh as (H1 & H2 & _).
  cbn [list_ascii_of_string app take_digits]. rewrite H1.
  cbn [take_char]. rewrite (digit_is_not_colon h2 H2). reflexivity.
Qed.

End DateFacts.

(** C6. The date normalization pads a one-digit hour with a zero, so that
    "2024-01-05 7:00:00" and "2024-01-05 07:00:00" normalize to the same
    text; every text of the form YYYY-MM-DD H:MM:SS becomes
    YYYY-MM-DD 0H:MM:SS; and every text of the form YYYY-MM-DD HH:MM:SS,
    already padded, is returned unchanged, as is any text the one-digit
    hour pattern does not match. *)
Theorem date_normalization :
  RfmOffers._normalize_date_format "2024-01-05 7:00:00"
  = RfmOffers._normalize_date_format "2024-01-05 07:00:00"
  /\ (forall y mo d h mi s,
         digits 4 y -> digits 2 mo -> digits 2 d -> digits 1 h ->
         digits 2 mi -> digits 2 s ->
         RfmOffers._normalize_date_format (short_hour y mo d h mi s)
         = padded_hour y mo d h mi s)
  /\ (forall y mo d hh mi s,
         digits 4 y -> digits 2 mo -> digits 2 d -> digits 2 hh ->
         digits 2 mi -> digits 2 s ->
         RfmOffers._normalize_date_format
           (y ++ "-" ++ mo ++ "-" ++ d ++ " " ++ hh ++ ":" ++ mi ++ ":" ++ s)%string
         = (y ++ "-" ++ mo ++ "-" ++ d ++ " " ++ hh ++ ":" ++ mi ++ ":" ++ s)%string)
  /\ (forall text,
         RfmOffers.match_hour_pattern text = None ->
         RfmOffers._normalize_date_format text = text).
Proof.
  split; [reflexivity | split; [|split]].
  - intros y mo d h mi s Hy Hmo Hd Hh Hmi Hs.
    unfold RfmOffers._normalize_date_format.
    rewrite (match_short_hour y mo d h mi s Hy Hmo Hd Hh Hmi Hs).
    unfold short_hour. rewrite (date_not_empty y _ Hy).
    destruct Hh as [Hlen _].
    destruct h as [|c [|]]; try discriminate Hlen.
    unfold padded_hour. cbn [RfmOffers.zfill2].
    rewrite !str_app_assoc. reflexivity.
  - intros y mo d hh mi s Hy Hmo Hd Hhh Hmi Hs.
    unfold RfmOffers._normalize_date_format.
    rewrite (match_padded_hour y mo d hh _ Hy Hmo Hd Hhh).
    rewrite (date_not_empty y _ Hy). reflexivity.
  - intros text H. unfold RfmOffers._normalize_date_format. rewrite H.
    destruct (String.eqb_spec text ""); [subst text|]; reflexivity.
Qed.

(** C7. The price check passes exactly when the binary64 value of
    [abs(actual - expected)] is below the binary64 value of 0.001: a price
    of 10.0005 matches an expected 10.001 and a price of 10.01 does not; a
    difference of exactly 0.001 does not pass, the comparison being strict;
    the rfm-offers check is the same comparison once a price is found. *)
Theorem price_epsilon :
  (forall actual expected,
      ShopOffers.price_match actual expected = true
      <-> PrimFloat.ltb (PrimFloat.abs (PrimFloat.sub actual expected))
                        0.001%float = true)
  /\ ShopOffers.price_match 10.0005%float 10.001%float = true
  /\ ShopOffers.price_match 10.01%float 10.001%float = false
  /\ ShopOffers.price_match 0.001%float 0%float = false
  /\ (forall found actual expected,
         RfmOffers.price_result found actual expected
         = found && ShopOffers.price_match actual expected)
  /\ RfmOffers.price_result true 10.0005%float 10.001%float = true
  /\ RfmOffers.price_result true 10.01%float 10.001%float = false
  /\ (forall actual expected,
         RfmOffers.price_result false actual expected = false).
Proof.
  split; [|split; [|split; [|split; [|split; [|split; [|split]]]]]].
  - intros actual expected. unfold ShopOffers.price_match. split; exact (fun H => H).
  - vm_compute. reflexivity.
  - vm_compute. reflexivity.
  - vm_compute. reflexivity.
  - intros found actual expected. reflexivity.
  - vm_compute. reflexivity.
  - vm_compute. reflexivity.
  - intros actual expected. reflexivity.
Qed.

(* ================================================================== *)
(** * Whole runs: load failures, the summary, the exit status          *)
(* ================================================================== *)

Section SummaryFacts.

Lemma success_rate_guarded (passed : Z) :
  Summary.success_rate passed 0 = RateZero.
Proof. reflexivity. Qed.

(** The summary raises in one case only: the lottery variant, printing to
    the console, with no check recorded. *)
Lemma summary_returns_iff (v : variant) (json_output : bool) (L : ledger) :
  returns (Summary.print_summary v json_output L) = false
  <-> v = LotteryRewards /\ json_output = false /\ total_checks L = 0.
Proof.
  unfold Summary.print_summary.
  destruct v; simpl; try (split; [discriminate | intros (H & _); discriminate H]).
  destruct json_output; simpl.
  - split; [discriminate | intros (_ & H & _); discriminate H].
  - unfold Summary.ratio. destruct (Z.eqb_spec (total_checks L) 0) as [H0 | H0]; simpl.
    + split; [intros _; repeat split; assumption | reflexivity].
    + split; [discriminate | intros (_ & _ & H); contradiction].
Qed.

End SummaryFacts.

(** C10 fails on the lottery variant. With no check recorded and console
    output on, [print_summary] divides by [total_checks] and raises
    [ZeroDivisionError]; the shop-offers sibling, in the same state, takes
    the guarded branch, reports the rate 0 and returns. *)
Theorem lottery_summary_divides_by_zero :
  total_checks empty_ledger = 0
  /\ (exists L, Summary.print_summary LotteryRewards false empty_ledger
                = Throw ZeroDivisionError L)
  /\ returns (Summary.print_summary ShopOffers false empty_ledger) = true
  /\ Summary.success_rate (passed_checks empty_ledger) (total_checks empty_ledger)
     = RateZero.
Proof.
  split; [reflexivity|]. split; [eexists; reflexivity|].
  split; reflexivity.
Qed.

Section LotteryFacts.

Variable py_str : pyval -> string.

Lemma save_report_keeps_counters (f : string) (w : write) (L : ledger) :
  failed_checks (Lottery.save_report_to_csv f w L) = failed_checks L
  /\ total_checks (Lottery.save_report_to_csv f w L) = total_checks L
  /\ passed_checks (Lottery.save_report_to_csv f w L) = passed_checks L.
Proof. destruct w; repeat split. Qed.

Lemma save_log_keeps_counters (f : string) (w : write) (L : ledger) :
  failed_checks (Lottery.save_detailed_log f w L) = failed_checks L
  /\ total_checks (Lottery.save_detailed_log f w L) = total_checks L
  /\ passed_checks (Lottery.save_detailed_log f w L) = passed_checks L.
Proof. destruct w; repeat split. Qed.

Lemma failed_write_is_logged (f reason : string) (L : ledger) :
  errors (Lottery.save_report_to_csv f (WriteFailed reason) L)
  = errors L ++ [[Lit ("Ошибка при сохранении отчета: " ++ reason)%string]]
  /\ subject_errors (Lottery.save_report_to_csv f (WriteFailed reason) L)
     = subject_errors L.
Proof. split; reflexivity. Qed.

(** When no exception escapes [main], the exit status is 1 exactly when a
    check failed, whatever becomes of the two report files. *)
Lemma exit_status_when_main_returns (i : Lottery.run_input) (L : ledger) :
  lottery_validation py_str i = Done tt L ->
  Lottery.uncaught (Lottery.main py_str i) = None
  /\ failed_checks (Lottery.at_exit (Lottery.main py_str i)) = failed_checks L
  /\ (Lottery.status (Lottery.main py_str i) <> 0 <-> failed_checks L > 0)
  /\ (Lottery.status (Lottery.main py_str i) = 0 <-> failed_checks L <= 0).
Proof.
  unfold lottery_validation, Lottery.main. intros ->. cbn [Lottery.status
    Lottery.at_exit Lottery.uncaught].
  destruct (save_report_keeps_counters "validation_report.csv"
              (Lottery.out_report i) L) as (Hf1 & _ & _).
  destruct (save_log_keeps_counters "validation_detailed.log"
              (Lottery.out_log i)
              (Lottery.save_report_to_csv "validation_report.csv"
                 (Lottery.out_report i) L)) as (Hf2 & _ & _).
  rewrite Hf2, Hf1.
  split; [reflexivity|]. split; [reflexivity|].
  destruct (Z.gtb_spec (failed_checks L) 0); split; split; intros; lia.
Qed.

End LotteryFacts.

(** C8 fails on a run with no requirement row, and on the same run when the
    requirements table cannot be read. No check is recorded, so none
    failed; the summary divides by [total_checks], [ZeroDivisionError]
    escapes [main], and the process ends with status 1 although
    [failed_checks] is 0. *)
Theorem lottery_exit_status_without_failure :
  forall py_str : pyval -> string,
    let e := Lottery.main py_str run_without_requirements in
    let e' := Lottery.main py_str run_with_unreadable_requirements in
    (Lottery.status e = 1
     /\ failed_checks (Lottery.at_exit e) = 0
     /\ total_checks (Lottery.at_exit e) = 0
     /\ Lottery.uncaught e = Some ZeroDivisionError)
    /\ (Lottery.status e' = 1
        /\ failed_checks (Lottery.at_exit e') = 0
        /\ total_checks (Lottery.at_exit e') = 0
        /\ Lottery.uncaught e' = Some ZeroDivisionError).
Proof.
  intros py_str e e'. subst e e'. vm_compute. repeat split.
Qed.

Section LoadFacts.

Variable py_str : pyval -> string.

(** A failed load does not raise: the loader returns the empty record set,
    and the only trace is one error without a subject. *)
Lemma load_failure_is_recovered (v : variant) (path reason : string) (L : ledger) :
  (fst (_load_json v path (Failed reason) L) = VDict []
   /\ fst (_load_csv (A := row) v path (Failed reason) L) = [])
  /\ (let L' := snd (_load_json v path (Failed reason) L) in
      errors L'
      = errors L ++ [[Lit ("Ошибка при загрузке JSON-файла " ++ path ++ ": "
                           ++ reason)%string]]
      /\ subject_errors L' = subject_errors L
      /\ total_checks L' = total_checks L
      /\ failed_checks L' = failed_checks L
      /\ warning_checks L' = warning_checks L)
  /\ (let L' := snd (_load_csv (A := row) v path (Failed reason) L) in
      errors L'
      = errors L ++ [[Lit ("Ошибка при загрузке CSV-файла " ++ path ++ ": "
                           ++ reason)%string]]
      /\ subject_errors L' = subject_errors L
      /\ total_checks L' = total_checks L
      /\ failed_checks L' = failed_checks L
      /\ warning_checks L' = warning_checks L).
Proof.
  repeat split; unfold _load_json, _load_csv, log_error; destruct v; reflexivity.
Qed.

(** ** The phase log *)

Lemma phases_add_log (l : level) (b : msg) (L : ledger) :
  EndNews.phases_entered (add_log l b L)
  = EndNews.phases_entered L
    ++ match l, b with
       | HEADER, [Lit t] => if startswith "ФАЗА: " t then [t] else []
       | _, _ => []
       end.
Proof.
  unfold EndNews.phases_entered, add_log. cbn [info_logs].
  rewrite flat_map_app. cbn [flat_map lvl body]. rewrite app_nil_r. reflexivity.
Qed.

Lemma phases_log_check v k n r ex ac d t (L : ledger) :
  EndNews.phases_entered (log_check v k n r ex ac d t L)
  = EndNews.phases_entered L.
Proof.
  unfold log_check. destruct r; rewrite phases_add_log, app_nil_r; reflexivity.
Qed.

Lemma phases_log_error v m k (L : ledger) :
  EndNews.phases_entered (log_error v m k L) = EndNews.phases_entered L.
Proof.
  unfold log_error.
  change (EndNews.phases_entered
            (add_error [Lit m]
               (add_log ERROR
                  ((if files_notes v k then subject_prefix v k else []) ++ [Lit m])
                  (if files_notes v k
                   then file_under k (error_details v m) L else L))))
    with (EndNews.phases_entered
            (add_log ERROR
               ((if files_notes v k then subject_prefix v k else []) ++ [Lit m])
               (if files_notes v k
                then file_under k (error_details v m) L else L))).
  rewrite phases_add_log, app_nil_r. destruct (files_notes v k); reflexivity.
Qed.

Lemma phases_log_warning v m k (L : ledger) :
  EndNews.phases_entered (log_warning v m k L) = EndNews.phases_entered L.
Proof.
  unfold log_warning.
  change (EndNews.phases_entered
            (add_warning m
               (add_log WARNING
                  ((if files_notes v k then subject_prefix v k else []) ++ [Lit m])
                  (if files_notes v k
                   then file_under k (warning_details v m) (bump_warning L)
                   else bump_warning L))))
    with (EndNews.phases_entered
            (add_log WARNING
               ((if files_notes v k then subject_prefix v k else []) ++ [Lit m])
               (if files_notes v k
                then file_under k (warning_details v m) (bump_warning L)
                else bump_warning L))).
  rewrite phases_add_log, app_nil_r. destruct (files_notes v k); reflexivity.
Qed.

Lemma phases_log_info m (L : ledger) :
  EndNews.phases_entered (log_info m L) = EndNews.phases_entered L.
Proof. unfold log_info. rewrite phases_add_log, app_nil_r. reflexivity. Qed.

Lemma phases_log_infos ms :
  forall L, EndNews.phases_entered (Summary.log_infos ms L)
            = EndNews.phases_entered L.
Proof.
  induction ms as [|m ms IH]; intros L; [reflexivity|].
  unfold Summary.log_infos in *. cbn [fold_left]. rewrite IH.
  apply phases_log_info.
Qed.

Lemma phases_start_phase (p : string) (L : ledger) :
  EndNews.phases_entered (start_phase EndNews p L)
  = EndNews.phases_entered L ++ [("ФАЗА: " ++ p)%string].
Proof.
  unfold start_phase, print_header. rewrite phases_add_log.
  replace (startswith "ФАЗА: " ("ФАЗА: " ++ p)%string) with true; [reflexivity|].
  symmetry. unfold startswith. cbn. destruct p; reflexivity.
Qed.

Lemma end_news_summary_returns (json : bool) (L : ledger) :
  returns (Summary.print_summary EndNews json L) = true
  /\ EndNews.phases_entered (final_ledger (Summary.print_summary EndNews json L))
     = EndNews.phases_entered L.
Proof.
  split; [reflexivity|].
  unfold Summary.print_summary. cbn [final_ledger].
  set (L1 := log_info _ (print_header _ L)).
  assert (H1 : EndNews.phases_entered L1 = EndNews.phases_entered L).
  { subst L1. rewrite phases_log_info. unfold print_header.
    rewrite phases_add_log. apply app_nil_r. }
  set (L2 := match errors L1 with [] => L1 | _ => _ end).
  assert (H2 : EndNews.phases_entered L2 = EndNews.phases_entered L).
  { subst L2. destruct (errors L1); [exact H1|].
    rewrite phases_log_infos. exact H1. }
  destruct (warnings L2); [exact H2|]. rewrite phases_log_infos. exact H2.
Qed.

Lemma quiet_check id n r ex ac d : quiet (EndNews.check id n r ex ac d).
Proof.
  intros L. split; [reflexivity|]. unfold EndNews.check, act.
  cbn [final_ledger]. apply phases_log_check.
Qed.

Lemma quiet_error m : quiet (act (log_error EndNews m KNone)).
Proof.
  intros L. split; [reflexivity|]. cbn [act final_ledger]. apply phases_log_error.
Qed.

Lemma quiet_warning m : quiet (act (log_warning EndNews m KNone)).
Proof.
  intros L. split; [reflexivity|]. cbn [act final_ledger].
  apply phases_log_warning.
Qed.

Lemma quiet_ret : quiet (ret tt).
Proof. intros L. split; reflexivity. Qed.

Lemma quiet_seq (m k : M unit) : quiet m -> quiet k -> quiet (m ;;; k).
Proof.
  intros Hm Hk L. unfold bind. destruct (Hm L) as [Hr Hp].
  destruct (m L) as [[] L' | e L']; [|discriminate Hr].
  cbn [final_ledger] in Hp. destruct (Hk L') as [Hr' Hp'].
  split; [exact Hr' | rewrite Hp', Hp; reflexivity].
Qed.

(** The phases of the end-news validator are quiet when the table has no
    requirement for them. *)
Lemma quiet_without_requirements (V : EndNews.validator) :
  EndNews.requirements_by_alias V = [] ->
  quiet (EndNews.validate_end_news py_str V)
  /\ quiet (EndNews.validate_double_points py_str V)
  /\ quiet (EndNews.validate_items_to_cash_exchange py_str V).
Proof.
  intros H.
  unfold EndNews.validate_end_news, EndNews.validate_double_points,
    EndNews.validate_items_to_cash_exchange.
  rewrite H. cbn [assoc EndNews.find_alias_containing].
  repeat split; apply quiet_error.
Qed.

(** The same phases are quiet when the three documents are empty dicts. *)
Lemma quiet_without_documents (V : EndNews.validator) :
  EndNews.end_news_promo V = VDict [] ->
  EndNews.double_points_promo V = VDict [] ->
  EndNews.promo V = VDict [] ->
  quiet (EndNews.validate_end_news py_str V)
  /\ quiet (EndNews.validate_double_points py_str V)
  /\ quiet (EndNews.validate_items_to_cash_exchange py_str V).
Proof.
  intros He Hd Hp.
  unfold EndNews.validate_end_news, EndNews.validate_double_points,
    EndNews.validate_items_to_cash_exchange, EndNews.promo_parameter.
  rewrite He, Hd, Hp.
  assert (Hstep : forall (m : M unit) (L L' : ledger),
             m L = Done tt L' ->
             EndNews.phases_entered L' = EndNews.phases_entered L ->
             returns (m L) = true
             /\ EndNews.phases_entered (final_ledger (m L))
                = EndNews.phases_entered L).
  { intros m L L' -> H. split; [reflexivity | exact H]. }
  split; [|split].
  - destruct (assoc "end news" (EndNews.requirements_by_alias V)) as [r|];
      [|apply quiet_error].
    intros L. eapply Hstep.
    + cbv beta iota zeta delta [bind lift act ret EndNews.check get_or assoc
                                rbind iter EndNews.find_filter truthy].
      reflexivity.
    + rewrite !phases_log_error, !phases_log_check. reflexivity.
  - destruct (assoc "double points(2)" (EndNews.requirements_by_alias V)) as [r|];
      [|apply quiet_error].
    intros L.
    destruct (negb (row_get "MultiplierTurnOn" r =? "")%string) eqn:Hm;
      destruct (EndNews.alias_number r) as [m|] eqn:Ha;
      (eapply Hstep;
       [ cbv beta iota zeta delta [bind lift act ret EndNews.check get_or assoc
                                   rbind];
         reflexivity
       | rewrite ?phases_log_warning, ?phases_log_check; reflexivity ]).
  - destruct (match assoc "itemsToCashExchange(15)" (EndNews.requirements_by_alias V)
              with
              | Some r => Some r
              | None => EndNews.find_alias_containing "itemsToCashExchange"
                          (EndNews.requirements_by_alias V)
              end) as [r|]; [|apply quiet_error].
    intros L.
    destruct (EndNews.alias_number r) as [m|] eqn:Ha;
      (eapply Hstep;
       [ cbv beta iota zeta delta [bind lift act ret EndNews.check get_or assoc
                                   rbind];
         reflexivity
       | rewrite ?phases_log_warning, ?phases_log_check; reflexivity ]).
Qed.

Lemma validate_all_runs_all_phases (V : EndNews.validator) (json : bool) (L : ledger) :
  quiet (EndNews.validate_end_news py_str V) ->
  quiet (EndNews.validate_double_points py_str V) ->
  quiet (EndNews.validate_items_to_cash_exchange py_str V) ->
  returns (EndNews.validate_all py_str V json L) = true
  /\ EndNews.phases_entered (final_ledger (EndNews.validate_all py_str V json L))
     = EndNews.phases_entered L ++ all_phases.
Proof.
  intros H1 H2 H3.
  assert (Hrun : exists L3,
             EndNews.validate_all py_str V json L
             = Summary.print_summary EndNews json L3
             /\ EndNews.phases_entered L3
                = EndNews.phases_entered L ++ all_phases).
  { unfold EndNews.validate_all, bind. cbn [act].
    destruct (H1 (start_phase EndNews EndNews.phase_end_news L)) as [R1 P1].
    destruct (EndNews.validate_end_news py_str V _) as [[] L1 | e L1];
      [|discriminate R1].
    cbn [final_ledger] in P1.
    destruct (H2 (start_phase EndNews EndNews.phase_double_points L1)) as [R2 P2].
    destruct (EndNews.validate_double_points py_str V _) as [[] L2 | e L2];
      [|discriminate R2].
    cbn [final_ledger] in P2.
    destruct (H3 (start_phase EndNews EndNews.phase_exchange L2)) as [R3 P3].
    destruct (EndNews.validate_items_to_cash_exchange py_str V _) as [[] L3 | e L3];
      [|discriminate R3].
    cbn [final_ledger] in P3.
    exists L3. split; [reflexivity|].
    rewrite P3, phases_start_phase, P2, phases_start_phase, P1,
      phases_start_phase.
    unfold all_phases. rewrite <- !app_assoc. reflexivity. }
  destruct Hrun as (L3 & -> & P3).
  destruct (end_news_summary_returns json L3) as [R4 P4].
  split; [exact R4 | rewrite P4; exact P3].
Qed.

Lemma phases_after_init f1 f2 f3 f4 r_end r_double r_promo r_req :
  EndNews.phases_entered
    (snd (EndNews.init f1 f2 f3 f4 r_end r_double r_promo r_req empty_ledger))
  = [].
Proof.
  destruct r_end, r_double, r_promo, r_req; reflexivity.
Qed.

(** When the requirements table fails to load, the three phases of the
    end-news validator are entered and the run reaches its end, whatever
    the three JSON documents are. *)
Lemma phases_run_without_requirements
    (r_end r_double r_promo : read pyval) (reason : string) (json : bool) :
  let o := EndNews.run_validation py_str r_end r_double r_promo
             (Failed reason) json in
  returns o = true /\ EndNews.phases_entered (final_ledger o) = all_phases.
Proof.
  intros o. subst o. unfold EndNews.run_validation.
  pose proof (phases_after_init "end-news-promo.json" "double-points-promo.json"
                "promo.json" "requirements.csv" r_end r_double r_promo
                (Failed reason)) as Hi.
  destruct (EndNews.init _ _ _ _ r_end r_double r_promo (Failed reason)
              empty_ledger) as [V L] eqn:E.
  assert (HV : EndNews.requirements_by_alias V = []).
  { destruct r_end, r_double, r_promo; injection E as <- _; reflexivity. }
  destruct (quiet_without_requirements V HV) as (H1 & H2 & H3).
  destruct (validate_all_runs_all_phases V json L H1 H2 H3) as [R P].
  cbn [snd] in Hi. rewrite Hi in P. split; assumption.
Qed.

(** When the three JSON documents fail to load, the three phases are
    entered and the run reaches its end, whatever the requirements are. *)
Lemma phases_run_without_documents
    (why_end why_double why_promo : string) (r_req : read (list row))
    (json : bool) :
  let o := EndNews.run_validation py_str (Failed why_end) (Failed why_double)
             (Failed why_promo) r_req json in
  returns o = true /\ EndNews.phases_entered (final_ledger o) = all_phases.
Proof.
  intros o. subst o. unfold EndNews.run_validation.
  pose proof (phases_after_init "end-news-promo.json" "double-points-promo.json"
                "promo.json" "requirements.csv" (Failed why_end)
                (Failed why_double) (Failed why_promo) r_req) as Hi.
  destruct (EndNews.init _ _ _ _ (Failed why_end) (Failed why_double)
              (Failed why_promo) r_req empty_ledger) as [V L] eqn:E.
  assert (HV : EndNews.end_news_promo V = VDict []
               /\ EndNews.double_points_promo V = VDict []
               /\ EndNews.promo V = VDict []).
  { destruct r_req; injection E as <- _; repeat split. }
  destruct HV as (He & Hd & Hp).
  destruct (quiet_without_documents V He Hd Hp) as (H1 & H2 & H3).
  destruct (validate_all_runs_all_phases V json L H1 H2 H3) as [R P].
  cbn [snd] in Hi. rewrite Hi in P. split; assumption.
Qed.

End LoadFacts.

(** C2 fails on the end-news validator. The window document cannot be read;
    the loader recovers, logs its error and returns the empty dict; in
    [validate_end_news] no "not" filter is found in it, [req_not] stays
    unbound, and reading it for the season pass check raises
    [UnboundLocalError]. The run ends in the first phase: the double
    points and the exchange rate phases are not entered. *)
Theorem end_news_load_failure_aborts_run :
  forall (py_str : pyval -> string) (json : bool),
    let o := EndNews.run_validation py_str
               (Failed "No such file or directory")
               (Loaded (VDict [])) (Loaded promo_with_season_pass)
               (Loaded [end_news_row]) json in
    (exists L, o = Throw UnboundLocalError L)
    /\ EndNews.phases_entered (final_ledger o)
       = [("ФАЗА: " ++ EndNews.phase_end_news)%string]
    /\ fst (_load_json EndNews "end-news-promo.json"
              (Failed "No such file or directory") empty_ledger) = VDict [].
Proof.
  intros py_str json o. subst o.
  split; [eexists; vm_compute; reflexivity|].
  split; [vm_compute; reflexivity | reflexivity].
Qed.

(* ================================================================== *)
(** * The theorems at concrete inputs                                  *)
(* ================================================================== *)

(** A quest that grants three of item 17908 and then ten of item 17909,
    against a row that asks for ten of item 17909, for five of item 17910,
    and whose cell for item 17908 is "3 ": the award of 17909 is found
    after the other one and gives a passed presence check and a passed
    count check; item 17910 gives one failed presence check and no count
    check; the cell "3 " gives no result. In shop-offers the column
    Award_points(17909) with the cell "5" gives one result against an
    action that grants seven. *)
Lemma presence_then_value_witness :
  (exists L',
      QuestsWeekly.check_award 501
        (VList [VDict [("itemId", VInt 17908); ("count", VInt 3)];
                VDict [("itemId", VInt 17909); ("count", VInt 10)]])
        [("complexity", "501"); ("count(17909)", "10"); ("count(17908)", "3 ");
         ("count(17910)", "5")]
        17909 empty_ledger
      = Done tt L'
      /\ results L' = [true; true]
      /\ total_checks L' = 2)
  /\ (exists L',
         QuestsWeekly.check_award 501
           (VList [VDict [("itemId", VInt 17908); ("count", VInt 3)];
                   VDict [("itemId", VInt 17909); ("count", VInt 10)]])
           [("complexity", "501"); ("count(17909)", "10");
            ("count(17908)", "3 "); ("count(17910)", "5")]
           17910 empty_ledger
         = Done tt L'
         /\ results L' = [false]
         /\ total_checks L' = 1
         /\ failed_checks L' = 1
         /\ filed (KInt 501) (presence_record 17910) L')
  /\ QuestsWeekly.check_award 501
       (VList [VDict [("itemId", VInt 17908); ("count", VInt 3)];
               VDict [("itemId", VInt 17909); ("count", VInt 10)]])
       [("complexity", "501"); ("count(17909)", "10"); ("count(17908)", "3 ");
        ("count(17910)", "5")]
       17908 empty_ledger
     = Done tt empty_ledger
  /\ (exists L',
         ShopOffers.check_award_column 1001
           (VList [VDict [("type", VStr "buff"); ("itemId", VInt 17909);
                          ("count", VInt 5)];
                   VDict [("type", VStr "item"); ("itemId", VInt 17909);
                          ("count", VInt 7)]])
           ("Award_points(17909)", "5") empty_ledger
         = Done tt L'
         /\ results L' = [false]
         /\ total_checks L' = 1).
Proof.
  destruct presence_then_value as [Hq Hs].
  split; [|split; [|split]].
  - destruct (Hq 501
                (VList [VDict [("itemId", VInt 17908); ("count", VInt 3)];
                        VDict [("itemId", VInt 17909); ("count", VInt 10)]])
                [VDict [("itemId", VInt 17908); ("count", VInt 3)];
                 VDict [("itemId", VInt 17909); ("count", VInt 10)]]
                [("complexity", "501"); ("count(17909)", "10");
                 ("count(17908)", "3 "); ("count(17910)", "5")]
                17909 empty_ledger) as [_ H].
    destruct (H eq_refl eq_refl) as (expected & Hint & _ & Hpresent).
    injection Hint as <-.
    exact (Hpresent [VDict [("itemId", VInt 17908); ("count", VInt 3)]]
             [("itemId", VInt 17909); ("count", VInt 10)] [] (VInt 10)
             eq_refl eq_refl eq_refl eq_refl).
  - destruct (Hq 501
                (VList [VDict [("itemId", VInt 17908); ("count", VInt 3)];
                        VDict [("itemId", VInt 17909); ("count", VInt 10)]])
                [VDict [("itemId", VInt 17908); ("count", VInt 3)];
                 VDict [("itemId", VInt 17909); ("count", VInt 10)]]
                [("complexity", "501"); ("count(17909)", "10");
                 ("count(17908)", "3 "); ("count(17910)", "5")]
                17910 empty_ledger) as [_ H].
    destruct (H eq_refl eq_refl) as (expected & _ & Habsent & _).
    exact (Habsent eq_refl).
  - destruct (Hq 501
                (VList [VDict [("itemId", VInt 17908); ("count", VInt 3)];
                        VDict [("itemId", VInt 17909); ("count", VInt 10)]])
                []
                [("complexity", "501"); ("count(17909)", "10");
                 ("count(17908)", "3 "); ("count(17910)", "5")]
                17908 empty_ledger) as [H _].
    exact (H eq_refl eq_refl).
  - destruct (Hs 1001
                (VList [VDict [("type", VStr "buff"); ("itemId", VInt 17909);
                               ("count", VInt 5)];
                        VDict [("type", VStr "item"); ("itemId", VInt 17909);
                               ("count", VInt 7)]])
                [VDict [("type", VStr "buff"); ("itemId", VInt 17909);
                        ("count", VInt 5)];
                 VDict [("type", VStr "item"); ("itemId", VInt 17909);
                        ("count", VInt 7)]]
                "Award_points(17909)" "5" "Award_points" "17909)" 17909 5
                empty_ledger ltac:(discriminate) eq_refl eq_refl eq_refl
                eq_refl eq_refl) as [_ Hpresent].
    destruct (Hpresent [VDict [("type", VStr "buff"); ("itemId", VInt 17909);
                               ("count", VInt 5)]]
                [("type", VStr "item"); ("itemId", VInt 17909);
                 ("count", VInt 7)] [] (VInt 7)
                eq_refl eq_refl eq_refl eq_refl)
      as (L' & He & Hr & Ht).
    exists L'. split; [exact He|]. split; [exact Hr | exact Ht].
Defined.

(** The segment cell "b,a" against the configured "a, b": one passed
    check; the cell "a,b" against the configured "a,c": one failed check. *)
Lemma segments_order_insensitive_witness :
  (exists L',
      RfmOffers.check_segments "rfm_offer_1"
        (full_row [("offer", "rfm_offer_1"); ("segment", "b,a")])
        (VList [VDict [("conditions",
                        VDict [("isNotInOneOfRFM30Segments", VStr "a, b")])]])
        empty_ledger
      = Done tt L'
      /\ results L' = [true]
      /\ total_checks L' = 1)
  /\ (exists L',
         RfmOffers.check_segments "rfm_offer_2"
           (full_row [("offer", "rfm_offer_2"); ("segment", "a,b")])
           (VList [VDict [("conditions",
                           VDict [("isNotInOneOfRFM30Segments", VStr "a,c")])]])
           empty_ledger
         = Done tt L'
         /\ results L' = [false]
         /\ total_checks L' = 1).
Proof.
  destruct segments_order_insensitive as (_ & _ & _ & H & _).
  split.
  - exact (H "rfm_offer_1"
             (full_row [("offer", "rfm_offer_1"); ("segment", "b,a")]) "b,a"
             (VList [VDict [("conditions",
                             VDict [("isNotInOneOfRFM30Segments", VStr "a, b")])]])
             [VDict [("conditions",
                      VDict [("isNotInOneOfRFM30Segments", VStr "a, b")])]]
             (Some "a, b") empty_ledger eq_refl eq_refl eq_refl).
  - exact (H "rfm_offer_2"
             (full_row [("offer", "rfm_offer_2"); ("segment", "a,b")]) "a,b"
             (VList [VDict [("conditions",
                             VDict [("isNotInOneOfRFM30Segments", VStr "a,c")])]])
             [VDict [("conditions",
                      VDict [("isNotInOneOfRFM30Segments", VStr "a,c")])]]
             (Some "a,c") empty_ledger eq_refl eq_refl eq_refl).
Defined.

(** Seven o'clock on the fifth of January 2024. *)
Lemma date_normalization_witness :
  RfmOffers._normalize_date_format (short_hour "2024" "01" "05" "7" "00" "00")
  = padded_hour "2024" "01" "05" "7" "00" "00"
  /\ RfmOffers._normalize_date_format "2024-01-05 07:00:00"
     = "2024-01-05 07:00:00".
Proof.
  destruct date_normalization as (_ & Hshort & Hpadded & _).
  split.
  - apply Hshort; split; reflexivity.
  - apply (Hpadded "2024" "01" "05" "07" "00" "00"); split; reflexivity.
Defined.

(** Three records: a numeric id, a malformed id, no id. The malformed one is
    warned about and the index holds the numeric one only. *)
Lemma requirements_index_construction_witness :
  let st := ShopOffers.requirements_by_action_id
              [[("Action", "101"); ("alias", "mainOffer")];
               [("Action", "abc"); ("alias", "passOffer")];
               [("alias", "subscriptionOffer")]] empty_ledger in
  (forall id, index_get id (fst st)
              <> Some [("Action", "abc"); ("alias", "passOffer")])
  /\ In (warning_text [("Action", "abc"); ("alias", "passOffer")])
        (warnings (snd st)).
Proof.
  destruct (requirements_index_construction
              [[("Action", "101"); ("alias", "mainOffer")];
               [("Action", "abc"); ("alias", "passOffer")];
               [("alias", "subscriptionOffer")]])
    as (_ & _ & H & _).
  apply H; [right; left; reflexivity | reflexivity].
Defined.

(** A failed check and a warning, both about action 5, in shop-offers. *)
Lemma error_map_consistency_witness :
  let es := [EvCheck (KInt 5) "Наличие Offer 12 в offers.json" false
               (VStr "Присутствует") (VStr "Отсутствует") VNone
               (VStr "OFFER_EXISTS");
             EvWarning "Не указана цена для Action 5 (mainOffer)" (KInt 5)] in
  filed (KInt 5)
    (warning_details ShopOffers "Не указана цена для Action 5 (mainOffer)")
    (run ShopOffers es empty_ledger).
Proof.
  intros es.
  destruct (error_map_consistency ShopOffers es) as (_ & H & _).
  apply H; [right; left; reflexivity | discriminate | discriminate].
Defined.

(* ================================================================== *)
(** * Further properties of the ledger and of the report               *)
(* ================================================================== *)

Section LogFacts.

Variable v : variant.

Lemma results_add_log (l : level) (b : msg) (L : ledger) :
  results (add_log l b L)
  = results L ++ match l with
                 | CHECK_OK => [true]
                 | CHECK_FAIL => [false]
                 | _ => []
                 end.
Proof.
  unfold results, add_log. cbn [info_logs]. rewrite flat_map_app.
  cbn [flat_map lvl]. rewrite app_nil_r. reflexivity.
Qed.

Lemma step_lists (L : ledger) (e : event) :
  List.length (warnings (step v L e))
  = (List.length (warnings L) + (if is_warning e then 1 else 0))%nat
  /\ List.length (errors (step v L e))
     = (List.length (errors L)
        + (if is_failed e || is_error e then 1 else 0))%nat
  /\ List.length (info_logs (step v L e)) = S (List.length (info_logs L))
  /\ results (step v L e) = results L ++ check_results [e].
Proof.
  destruct e as [k n r ex ac d t | m k | m k | m | p];
    cbn [step is_warning is_failed is_error orb check_results flat_map app].
  - unfold log_check. destruct r; cbn; rewrite ?length_app; cbn;
      repeat split; try lia; apply results_add_log.
  - unfold log_warning. destruct (files_notes v k); cbn;
      rewrite ?length_app; cbn; repeat split; try lia;
      unfold results; cbn; rewrite flat_map_app; reflexivity.
  - unfold log_error. destruct (files_notes v k); cbn;
      rewrite ?length_app; cbn; repeat split; try lia;
      unfold results; cbn; rewrite flat_map_app; reflexivity.
  - unfold log_info. cbn. rewrite ?length_app. cbn. repeat split; try lia.
    unfold results. cbn. rewrite flat_map_app. reflexivity.
  - unfold start_phase, print_header. destruct v; cbn; rewrite ?length_app; cbn;
      repeat split; try lia; unfold results; cbn; rewrite flat_map_app;
      reflexivity.
Qed.

Lemma check_results_cons (e : event) (es : list event) :
  check_results (e :: es) = check_results [e] ++ check_results es.
Proof. unfold check_results. cbn [flat_map]. rewrite app_nil_r. reflexivity. Qed.

Lemma run_lists (es : list event) :
  forall L : ledger,
    Z.of_nat (List.length (warnings (run v es L)))
    = Z.of_nat (List.length (warnings L)) + count is_warning es
    /\ Z.of_nat (List.length (errors (run v es L)))
       = Z.of_nat (List.length (errors L)) + count is_failed es
         + count is_error es
    /\ List.length (info_logs (run v es L))
       = (List.length (info_logs L) + List.length es)%nat
    /\ results (run v es L) = results L ++ check_results es.
Proof.
  induction es as [|e es IH]; intros L.
  - unfold count. cbn. rewrite app_nil_r. repeat split; lia.
  - change (run v (e :: es) L) with (run v es (step v L e)).
    destruct (IH (step v L e)) as (Hw & He & Hi & Hr).
    destruct (step_lists L e) as (Sw & Se & Si & Sr).
    rewrite !count_cons, check_results_cons.
    rewrite Hw, He, Hi, Hr, Sw, Se, Si, Sr.
    repeat split; try (cbn [List.length]; lia).
    + destruct (is_warning e); lia.
    + destruct e as [k n [|] ex ac d t | | | |];
        cbn [is_failed is_error orb]; lia.
    + rewrite app_assoc. reflexivity.
Qed.

End LogFacts.

(** X1. The lists of the ledger follow its counters. After any sequence of
    calls of the logging API from the freshly constructed ledger, in any
    of the six validators, [warnings] has one entry for each counted
    warning, [errors] has one entry for each failed check and one for each
    call of [log_error] (which no counter counts), the detailed log has
    exactly one line for each call, and its check lines carry the outcomes
    of the checks in the order they were made. *)
Theorem ledger_lists_follow_calls :
  forall (v : variant) (es : list event),
    let L := run v es empty_ledger in
    Z.of_nat (List.length (warnings L)) = warning_checks L
    /\ Z.of_nat (List.length (errors L)) = failed_checks L + count is_error es
    /\ List.length (info_logs L) = List.length es
    /\ results L = check_results es.
Proof.
  intros v es L. subst L.
  destruct (run_lists v es empty_ledger) as (Hw & He & Hi & Hr).
  destruct (run_counters v es empty_ledger) as (_ & _ & Hf & Hwc).
  cbn in Hw, He, Hi, Hr, Hf, Hwc.
  repeat split; try assumption; lia.
Qed.

Section RecordFacts.

Variable v : variant.

Lemma records_append (k : key) (d : details) (m : error_map) :
  records (emap_append k d m) = S (records m).
Proof.
  induction m as [|[k' ds] m IH]; cbn [emap_append records fold_right snd].
  - reflexivity.
  - destruct (key_eqb k k'); cbn [records fold_right snd].
    + rewrite length_app. cbn [List.length]. lia.
    + fold (records (emap_append k d m)). fold (records m). rewrite IH. lia.
Qed.

Lemma step_records (L : ledger) (e : event) :
  records (subject_errors (step v L e))
  = (records (subject_errors L)
     + (if is_failed e || is_filed_note v e then 1 else 0))%nat.
Proof.
  destruct e as [k n r ex ac d t | m k | m k | m | p];
    cbn [step is_failed is_filed_note orb].
  - unfold log_check. destruct r; cbn [subject_errors add_log add_error
      bump_passed bump_failed bump_total file_under orb].
    + lia.
    + rewrite records_append. lia.
  - unfold log_warning. destruct (files_notes v k);
      cbn [subject_errors add_log add_warning bump_warning file_under];
      rewrite ?records_append; lia.
  - unfold log_error. destruct (files_notes v k);
      cbn [subject_errors add_log add_error file_under];
      rewrite ?records_append; lia.
  - unfold log_info. cbn [subject_errors add_log]. lia.
  - unfold start_phase, print_header.
    destruct v; cbn [subject_errors add_log set_phase]; lia.
Qed.

Lemma run_records (es : list event) :
  forall L : ledger,
    Z.of_nat (records (subject_errors (run v es L)))
    = Z.of_nat (records (subject_errors L)) + count is_failed es
      + count (is_filed_note v) es.
Proof.
  induction es as [|e es IH]; intros L.
  - unfold count. cbn. lia.
  - change (run v (e :: es) L) with (run v es (step v L e)).
    rewrite IH, step_records, !count_cons.
    destruct e as [k n [|] ex ac d t | m k | m k | m | p];
      cbn [is_failed is_filed_note orb]; try lia;
      destruct (files_notes v k); lia.
Qed.

Lemma report_length (s : Report.style) (m : error_map) :
  List.length (Report.save_report_to_csv s m) = records m.
Proof.
  unfold Report.save_report_to_csv.
  induction m as [|[k ds] m IH]; cbn [flat_map records fold_right fst snd].
  - reflexivity.
  - rewrite length_app, length_map, IH. reflexivity.
Qed.

End RecordFacts.

(** X2. The report of shop-offers, rfm-offers, quests-weekly and
    main-reward-lines has one row for each record of the per-subject map,
    that is, one for each failed check of the run and one for each warning
    or error logged with a subject; a passed check never reaches it. The
    result column names a warning for the records [log_warning] files and
    an error for those of [log_error], and for a failed check it names an
    error unless the check was tagged "WARNING". *)
Theorem report_has_one_row_per_record :
  forall (v : variant) (s : Report.style) (es : list event),
    Report.style_of v = Some s ->
    let L := run v es empty_ledger in
    Z.of_nat (List.length (Report.save_report_to_csv s (subject_errors L)))
    = failed_checks L + count (is_filed_note v) es
    /\ (forall m, Report.result_word s (warning_details v m)
                  = match s with
                    | Report.Capitals => "ПРЕДУПРЕЖДЕНИЕ"
                    | Report.Plain => "Предупреждение"
                    end)
    /\ (forall m, Report.result_word s (error_details v m)
                  = match s with
                    | Report.Capitals => "ОШИБКА"
                    | Report.Plain => "Ошибка"
                    end)
    /\ (forall n ex ac d t,
           t <> VStr "WARNING" ->
           Report.result_word s (check_details v n ex ac d t)
           = match s with
             | Report.Capitals => "ОШИБКА"
             | Report.Plain => "Ошибка"
             end).
Proof.
  intros v s es Hs L. subst L.
  rewrite report_length, run_records.
  destruct (run_counters v es empty_ledger) as (_ & _ & Hf & _).
  cbn in Hf. rewrite Hf. cbn [subject_errors empty_ledger records fold_right].
  split; [lia|].
  destruct v; try discriminate Hs; injection Hs as <-;
    (split; [reflexivity | split; [reflexivity|]]);
    intros n ex ac d t Ht; unfold Report.result_word, check_details;
    cbn [tagged app Report.entry assoc String.eqb Ascii.eqb Bool.eqb];
    (destruct t as [| | | |w| |]; try reflexivity);
    cbn [eq_str];
    (destruct (String.eqb_spec w "WARNING") as [->|]; [contradiction | reflexivity]).
Qed.

Lemma report_has_one_row_per_record_witness :
  let es := [EvCheck (KInt 7) "Наличие Offer 12 в offers.json" false
               (VStr "Присутствует") (VStr "Отсутствует") VNone
               (VStr "OFFER_EXISTS");
             EvCheck (KInt 7) "Наличие Action ID в actions.json (алиас: a)" true
               (VStr "Присутствует") (VStr "Присутствует") VNone
               (VStr "ACTION_EXISTS");
             EvWarning "Не указана цена для Action 7 (a)" (KInt 7)] in
  Z.of_nat (List.length (Report.save_report_to_csv Report.Capitals
                           (subject_errors (run ShopOffers es empty_ledger))))
  = failed_checks (run ShopOffers es empty_ledger)
    + count (is_filed_note ShopOffers) es.
Proof.
  intros es.
  exact (proj1 (report_has_one_row_per_record ShopOffers Report.Capitals es
                  eq_refl)).
Defined.

(* ================================================================== *)
(** * Further properties of the indices                                *)
(* ================================================================== *)

Section MoreIndexFacts.

Lemma find_last {A} (p : A -> bool) (l : list A) (x : A) :
  find p (l ++ [x])
  = match find p l with
    | Some y => Some y
    | None => if p x then Some x else None
    end.
Proof.
  induction l as [|y l IH]; cbn [app find].
  - reflexivity.
  - destruct (p y); [reflexivity | exact IH].
Qed.

Lemma index_set_nodup (k : Z) (r : row) (m : index) :
  NoDup (index_keys m) -> NoDup (index_keys (index_set k r m)).
Proof.
  unfold index_keys. induction m as [|[k' r'] m IH]; cbn [index_set map fst].
  - intros _. constructor; [intros [] | constructor].
  - intros H. inversion H as [|x l Hnot Hnd]; subst.
    destruct (Z.eqb_spec k k') as [->|Hk]; cbn [map fst].
    + constructor; assumption.
    + constructor; [|apply IH; exact Hnd].
      intros Hin.
      apply (index_keys_set k k' r m) in Hin.
      destruct Hin as [-> | Hin]; [congruence | contradiction].
Qed.

Lemma shop_index_fold (reqs : list row) :
  forall (idx0 : index) (L0 : ledger),
    (forall id,
        index_get id (fst (fold_left ShopOffers.index_requirement reqs (idx0, L0)))
        = match find (has_id id) (rev reqs) with
          | Some r => Some r
          | None => index_get id idx0
          end)
    /\ (NoDup (index_keys idx0) ->
        NoDup (index_keys
                 (fst (fold_left ShopOffers.index_requirement reqs (idx0, L0))))).
Proof.
  induction reqs as [|req reqs IH]; intros idx0 L0; cbn [fold_left rev].
  - split; [reflexivity | exact (fun H => H)].
  - pose proof (index_requirement_cases idx0 L0 req) as Hc.
    assert (Hstep : exists idx1 L1,
               ShopOffers.index_requirement (idx0, L0) req = (idx1, L1)
               /\ (forall id, index_get id idx1
                              = if has_id id req then Some req
                                else index_get id idx0)
               /\ (NoDup (index_keys idx0) -> NoDup (index_keys idx1))).
    { unfold has_id. destruct (ShopOffers.parsed_id req) as [k|].
      - destruct Hc as [_ ->]. do 2 eexists. split; [reflexivity|]. split.
        + intros id. rewrite index_get_set, Z.eqb_sym. reflexivity.
        + apply index_set_nodup.
      - destruct (ShopOffers.malformed_id req); rewrite Hc;
          do 2 eexists; (split; [reflexivity|]);
          (split; [reflexivity | exact (fun H => H)]). }
    destruct Hstep as (idx1 & L1 & -> & Hget & Hnd).
    destruct (IH idx1 L1) as [IHg IHn]. split.
    + intros id. rewrite IHg, find_last, Hget.
      destruct (find (has_id id) (rev reqs)); [reflexivity|].
      destruct (has_id id req); reflexivity.
    + intros H. apply IHn, Hnd, H.
Qed.

End MoreIndexFacts.

(** X3. In the index of shop-offers a later record replaces an earlier one
    with the same Action id: the index gives, for an id, the last record
    of the table whose Action cell parses to that id, and nothing when no
    record does; and no id is listed twice, so the count the constructor
    logs is the number of distinct ids. *)
Theorem shop_index_last_record_wins :
  forall (requirements : list row) (L : ledger) (id : Z),
    let idx := fst (ShopOffers.requirements_by_action_id requirements L) in
    index_get id idx = find (has_id id) (rev requirements)
    /\ NoDup (index_keys idx).
Proof.
  intros requirements L id idx. subst idx.
  unfold ShopOffers.requirements_by_action_id.
  destruct (shop_index_fold requirements [] L) as [Hg Hn]. split.
  - rewrite Hg. destruct (find (has_id id) (rev requirements)); reflexivity.
  - apply Hn. constructor.
Qed.

Section LoopFacts.

(** A loop whose body logs one check at each turn. *)
Lemma for_each_checks {A} (body : A -> M unit) (r : A -> bool) (xs : list A) :
  (forall x L, exists L',
      body x L = Done tt L'
      /\ total_checks L' = total_checks L + 1
      /\ results L' = results L ++ [r x]) ->
  forall L, exists L',
    for_each xs body L = Done tt L'
    /\ total_checks L' = total_checks L + Z.of_nat (List.length xs)
    /\ results L' = results L ++ map r xs.
Proof.
  intros Hbody. induction xs as [|x xs IH]; intros L; cbn [for_each].
  - exists L. cbn. rewrite app_nil_r. repeat split. lia.
  - unfold bind. destruct (Hbody x L) as (L1 & -> & Ht & Hr).
    destruct (IH L1) as (L2 & -> & Ht2 & Hr2).
    exists L2. split; [reflexivity|]. split.
    + rewrite Ht2, Ht. cbn [List.length]. lia.
    + rewrite Hr2, Hr, <- app_assoc. reflexivity.
Qed.

Lemma results_start_phase v p (L : ledger) :
  results (start_phase v p L) = results L
  /\ total_checks (start_phase v p L) = total_checks L.
Proof.
  unfold start_phase, print_header.
  destruct v; rewrite results_add_log, app_nil_r; split; reflexivity.
Qed.

End LoopFacts.

(** X4. The first phase of shop-offers, run on the index built from a
    requirements table, does not raise and records exactly one check for
    each distinct Action id the table holds, in the order of the index;
    the check of an id passes exactly when the id is a key of the actions. *)
Theorem shop_phase_one_checks_each_id :
  forall (requirements : list row) (actions : list (Z * pyval)) (L0 L : ledger),
    let idx := fst (ShopOffers.requirements_by_action_id requirements L0) in
    let V := {| ShopOffersChecks.requirements_by_action_id := idx;
                ShopOffersChecks.actions_by_id := actions |} in
    (exists L',
        ShopOffersChecks.validate_action_ids_in_actions V L = Done tt L'
        /\ total_checks L' = total_checks L + Z.of_nat (List.length (index_keys idx))
        /\ results L'
           = results L ++ map (fun id => in_actions id actions) (index_keys idx))
    /\ NoDup (index_keys idx)
    /\ (forall id, In id (index_keys idx) <->
                   exists req, In req requirements
                               /\ ShopOffers.parsed_id req = Some id).
Proof.
  intros requirements actions L0 L idx V.
  split; [|split].
  - unfold ShopOffersChecks.validate_action_ids_in_actions, bind, act.
    cbn [ShopOffersChecks.requirements_by_action_id ShopOffersChecks.actions_by_id V].
    destruct (results_start_phase ShopOffers
                "ПРОВЕРКА НАЛИЧИЯ ACTION ID В ACTIONS.JSON" L) as [Hr Ht].
    edestruct (for_each_checks
                 (fun item : Z * row =>
                    let (action_id, req) := item in
                    let alias := match assoc "alias" req with
                                 | Some a => a
                                 | None => "Неизвестно"
                                 end in
                    let present := in_actions action_id actions in
                    act (log_check ShopOffers (KInt action_id)
                           ("Наличие Action ID в actions.json (алиас: "
                            ++ alias ++ ")")%string
                           present (VStr "Присутствует")
                           (VStr (if present then "Присутствует"
                                  else "Отсутствует"))
                           VNone (VStr "ACTION_EXISTS")))
                 (fun item => in_actions (fst item) actions) idx)
      as (L' & He & Ht' & Hr').
    { intros [action_id req] L1. cbv zeta. unfold act. cbn [fst].
      eexists. split; [reflexivity|].
      split; [apply total_log_check | apply results_log_check]. }
    exists L'. split; [exact He|]. split.
    + rewrite Ht', Ht. unfold index_keys. rewrite length_map. reflexivity.
    + rewrite Hr', Hr. unfold index_keys. rewrite map_map. reflexivity.
  - subst idx. unfold ShopOffers.requirements_by_action_id.
    apply (shop_index_fold requirements [] L0). constructor.
  - intros id. subst idx. unfold ShopOffers.requirements_by_action_id.
    destruct (index_fold_spec requirements [] L0) as (Hk & _).
    rewrite Hk. split.
    + intros [[] | H]. exact H.
    + intros H. right. exact H.
Qed.

Section UnguardedIndexFacts.

Lemma complexity_details_by_column (reqs : list row) :
  forall acc,
    QuestsWeekly.complexity_details reqs acc
    = MainRewardLines.actions_by_column "complexity" reqs acc.
Proof.
  induction reqs as [|req reqs IH]; intros acc;
    cbn [QuestsWeekly.complexity_details MainRewardLines.actions_by_column].
  - reflexivity.
  - destruct (assoc "complexity" req) as [c|]; [|apply IH].
    destruct (negb (c =? "")%string); [|apply IH].
    destruct (int_of_str c); [apply IH | reflexivity].
Qed.

Lemma actions_by_column_spec (column : string) (reqs : list row) :
  forall acc,
    match MainRewardLines.actions_by_column column reqs acc with
    | Ok idx =>
        (forall req, In req reqs -> cell_not_integer column req = false)
        /\ (forall id, index_get id idx
                       = match find (cell_is column id) (rev reqs) with
                         | Some r => Some r
                         | None => index_get id acc
                         end)
    | Raise e =>
        e = ValueError
        /\ exists req, In req reqs /\ cell_not_integer column req = true
    end.
Proof.
  induction reqs as [|req reqs IH]; intros acc;
    cbn [MainRewardLines.actions_by_column rev].
  - split; [intros req [] | reflexivity].
  - assert (Hskip : cell_not_integer column req = false ->
                    (forall id, cell_is column id req = false) ->
                    match MainRewardLines.actions_by_column column reqs acc with
                    | Ok idx =>
                        (forall r, In r (req :: reqs) ->
                                   cell_not_integer column r = false)
                        /\ (forall id, index_get id idx
                                       = match find (cell_is column id)
                                                 (rev reqs ++ [req]) with
                                         | Some r => Some r
                                         | None => index_get id acc
                                         end)
                    | Raise e =>
                        e = ValueError
                        /\ exists r, In r (req :: reqs)
                                     /\ cell_not_integer column r = true
                    end).
    { intros Hn Hc. specialize (IH acc).
      destruct (MainRewardLines.actions_by_column column reqs acc) as [idx|e].
      - destruct IH as [Hall Hget]. split.
        + intros r [<- | Hin]; [exact Hn | apply Hall, Hin].
        + intros id. rewrite Hget, find_last, Hc.
          destruct (find (cell_is column id) (rev reqs)); reflexivity.
      - destruct IH as [He (r & Hin & Hr)]. split; [exact He|].
        exists r. split; [right; exact Hin | exact Hr]. }
    destruct (assoc column req) as [c|] eqn:Hc.
    2: { apply Hskip.
         - unfold cell_not_integer. rewrite Hc. reflexivity.
         - intros id. unfold cell_is. rewrite Hc. reflexivity. }
    destruct (String.eqb c "") eqn:Hce; cbn [negb].
    { apply Hskip.
      - unfold cell_not_integer. rewrite Hc, Hce. reflexivity.
      - intros id. unfold cell_is. rewrite Hc, Hce. reflexivity. }
    assert (Hn : cell_not_integer column req
                 = match int_of_str c with Some _ => false | None => true end).
    { unfold cell_not_integer. rewrite Hc, Hce. reflexivity. }
    assert (Hcell : forall id,
               cell_is column id req
               = match int_of_str c with Some k => k =? id | None => false end).
    { intros id. unfold cell_is. rewrite Hc, Hce. reflexivity. }
    clear Hskip.
    destruct (int_of_str c) as [k|] eqn:Hi.
    + specialize (IH (index_set k req acc)).
      destruct (MainRewardLines.actions_by_column column reqs
                  (index_set k req acc)) as [idx|e].
      * destruct IH as [Hall Hget]. split.
        -- intros r [<- | Hin]; [exact Hn | apply Hall, Hin].
        -- intros id. rewrite Hget, find_last, Hcell.
           destruct (find _ (rev reqs)); [reflexivity|].
           rewrite index_get_set, Z.eqb_sym.
           destruct (k =? id); reflexivity.
      * destruct IH as [He (r & Hin & Hr)]. split; [exact He|].
        exists r. split; [right; exact Hin | exact Hr].
    + split; [reflexivity|]. exists req. split; [left; reflexivity | exact Hn].
Qed.

End UnguardedIndexFacts.

(** X5. The constructors of quests-weekly and main-reward-lines build their
    indices ([complexity_details], [free_actions], [paid_actions]) with
    [int] outside any [try]. Each of them raises [ValueError] exactly when
    some record has, in the column of the index, a cell that is not empty
    and not an integer; otherwise it returns the index, in which the last
    record with an id is the one kept. *)
Theorem unguarded_index_construction :
  forall requirements : list row,
    built_or_raises "complexity" requirements
      (QuestsWeekly.complexity_details requirements [])
    /\ built_or_raises "action_free" requirements
         (MainRewardLines.free_actions requirements)
    /\ built_or_raises "action_paid" requirements
         (MainRewardLines.paid_actions requirements).
Proof.
  intros requirements.
  assert (H : forall column,
             built_or_raises column requirements
               (MainRewardLines.actions_by_column column requirements [])).
  { intros column. unfold built_or_raises.
    pose proof (actions_by_column_spec column requirements []) as Hs.
    destruct (MainRewardLines.actions_by_column column requirements [])
      as [idx|e]; [|exact Hs].
    destruct Hs as [Hall Hget]. split; [exact Hall|].
    intros id. rewrite Hget.
    destruct (find (cell_is column id) (rev requirements)); reflexivity. }
  rewrite complexity_details_by_column.
  unfold MainRewardLines.free_actions, MainRewardLines.paid_actions.
  repeat split; apply H.
Qed.

Section WeekFacts.

Import QuestsWeeklyChecks.

Lemma week_ids_append (w week : string) (id : Z) (m : list (string * list Z)) :
  week_ids w (week_append week id m)
  = week_ids w m ++ (if String.eqb w week then [id] else []).
Proof.
  unfold week_ids. induction m as [|[w' ids] m IH]; cbn [week_append assoc].
  - destruct (String.eqb w week); reflexivity.
  - destruct (String.eqb_spec week w') as [->|Hne]; cbn [assoc].
    + destruct (String.eqb w w'); [reflexivity | rewrite app_nil_r; reflexivity].
    + destruct (String.eqb_spec w w') as [->|Hw].
      * destruct (String.eqb_spec w' week); [congruence|].
        rewrite app_nil_r. reflexivity.
      * exact IH.
Qed.

Lemma all_ids_append (week : string) (id : Z) (m : list (string * list Z)) :
  Permutation (all_complexity_ids (week_append week id m))
              (all_complexity_ids m ++ [id]).
Proof.
  unfold all_complexity_ids.
  induction m as [|[w' ids] m IH]; cbn [week_append flat_map snd].
  - reflexivity.
  - destruct (String.eqb week w'); cbn [flat_map snd].
    + rewrite <- !app_assoc. apply Permutation_app_head.
      apply Permutation_app_comm.
    + rewrite <- app_assoc. apply Permutation_app_head. exact IH.
Qed.

Lemma complexity_ids_spec (reqs : list row) :
  forall acc by_week,
    complexity_ids reqs acc = Ok by_week ->
    (forall week, week_ids week by_week
                  = week_ids week acc ++ ids_of_week week reqs)
    /\ Permutation (all_complexity_ids by_week)
                   (all_complexity_ids acc ++ listed_ids reqs).
Proof.
  induction reqs as [|req reqs IH]; intros acc by_week;
    cbn [complexity_ids ids_of_week listed_ids flat_map].
  - intros H. injection H as <-. split.
    + intros week. rewrite app_nil_r. reflexivity.
    + rewrite app_nil_r. reflexivity.
  - unfold listed.
    destruct (assoc "complexity" req) as [c|];
      [|intros H; apply (IH _ _ H)].
    destruct (assoc "Неделя" req) as [week|];
      [|intros H; apply (IH _ _ H)].
    destruct (negb (c =? "")%string); [|intros H; apply (IH _ _ H)].
    destruct (int_of_str c) as [id|]; [|discriminate].
    intros H. destruct (IH _ _ H) as [Hw Hp]. split.
    + intros w. rewrite Hw, week_ids_append, <- app_assoc. reflexivity.
    + rewrite Hp. rewrite (all_ids_append week id acc), <- app_assoc.
      reflexivity.
Qed.

End WeekFacts.

(** X6. The grouping of quests-weekly loses no id. When the constructor
    does not raise, the list kept for a week is the ids of the records of
    that week in the order of the table, and [all_complexity_ids] is a
    rearrangement of the ids of all the records taken, an id listed twice
    being kept twice; the phase that looks the ids up in the actions file
    does not raise and records one check for each of them. *)
Theorem quests_grouping_keeps_every_id :
  forall (requirements : list row) (by_week : list (string * list Z))
         (actions : list (Z * pyval)) (L : ledger),
    QuestsWeeklyChecks.complexity_ids requirements [] = Ok by_week ->
    (forall week, week_ids week by_week = ids_of_week week requirements)
    /\ Permutation (QuestsWeeklyChecks.all_complexity_ids by_week)
                   (listed_ids requirements)
    /\ exists L',
         QuestsWeeklyChecks.validate_complexity_in_actions
           {| QuestsWeeklyChecks.ids := QuestsWeeklyChecks.all_complexity_ids by_week;
              QuestsWeeklyChecks.actions_by_id := actions |} L = Done tt L'
         /\ total_checks L'
            = total_checks L + Z.of_nat (List.length (listed_ids requirements))
         /\ results L'
            = results L ++ map (fun id => in_actions id actions)
                               (QuestsWeeklyChecks.all_complexity_ids by_week).
Proof.
  intros requirements by_week actions L H.
  destruct (complexity_ids_spec requirements [] by_week H) as [Hw Hp].
  split; [exact Hw|]. split; [exact Hp|].
  unfold QuestsWeeklyChecks.validate_complexity_in_actions, bind, act.
  cbn [QuestsWeeklyChecks.ids QuestsWeeklyChecks.actions_by_id].
  edestruct (for_each_checks
               (fun complexity_id : Z =>
                  let is_in_actions := in_actions complexity_id actions in
                  act (log_check QuestsWeekly (KInt complexity_id)
                         "Наличие complexity в файле экшенов"
                         is_in_actions (VStr "В файле экшенов")
                         (VStr (if is_in_actions then "Присутствует"
                                else "Отсутствует"))
                         (VStr "Complexity должен присутствовать в файле экшенов")
                         (VStr "COMPLEXITY_IN_ACTIONS")))
               (fun id => in_actions id actions)
               (QuestsWeeklyChecks.all_complexity_ids by_week))
    as (L' & He & Ht & Hr).
  { intros id L1. cbv zeta. unfold act. eexists. split; [reflexivity|].
    split; [apply total_log_check | apply results_log_check]. }
  exists L'. split; [exact He|]. split.
  - rewrite Ht. unfold log_info. cbn [total_checks add_log].
    rewrite (Permutation_length Hp). reflexivity.
  - rewrite Hr. unfold log_info. rewrite results_add_log, app_nil_r.
    reflexivity.
Qed.

Lemma quests_grouping_keeps_every_id_witness :
  let reqs := [[("Неделя", "1"); ("complexity", "501")];
               [("Неделя", "2"); ("complexity", "601")];
               [("Неделя", "1"); ("complexity", "502")];
               [("Неделя", "2"); ("complexity", "501")]] in
  Permutation
    (QuestsWeeklyChecks.all_complexity_ids [("1", [501; 502]); ("2", [601; 501])])
    (listed_ids reqs).
Proof.
  intros reqs.
  exact (proj1 (proj2 (quests_grouping_keeps_every_id reqs
                         [("1", [501; 502]); ("2", [601; 501])] []
                         empty_ledger eq_refl))).
Defined.

(* ================================================================== *)
(** * Further properties of the text comparisons                       *)
(* ================================================================== *)

(** X7. The segments the rfm-offers check compares are in normal form, and
    the texts it logs determine them when a setting carries the segments.
    Every segment read from a cell is not empty, has no white space around
    it and holds no comma; joining the sorted segments with commas, as the
    check does for the expected and the actual value it logs, and reading
    the result back gives the same sorted list. So when some setting has
    the segments, the outcome of the comparison can be recomputed from the
    two logged texts. When none has, the check fails whatever the cell
    holds and logs "Не найдено" in place of the segments found; for the
    cell "Не найдено" these are the two texts a passing comparison logs,
    so there the logged texts do not tell the outcome. A row of a line too
    short to have the cell raises [AttributeError] before anything is
    logged. *)
Theorem segments_survive_logging :
  (forall cell x, In x (RfmOffers.segments_of cell) -> normal_segment x)
  /\ (forall cell,
         RfmOffers.segments_of (logged_expected cell)
         = RfmOffers.sort (RfmOffers.segments_of cell))
  /\ (forall expected actual,
         RfmOffers.segments_match (logged_expected expected)
           (Some (logged_actual (Some actual)))
         = RfmOffers.segments_match expected (Some actual))
  /\ (forall offer_name req cell settings entries found L,
         cell_or_empty "segment" req = Some cell ->
         iter settings = Ok entries ->
         RfmOffers.find_segments entries = Ok found ->
         RfmOffers.check_segments offer_name req settings L
         = Done tt
             (log_check RfmOffers (KStr offer_name)
                "Сегменты в settingsByConditions"
                (RfmOffers.segments_match cell found)
                (VStr (logged_expected cell))
                (VStr (logged_actual found)) VNone (VStr "SEGMENTS_CHECK") L))
  /\ (forall offer_name req settings L,
         cell_or_empty "segment" req = None ->
         RfmOffers.check_segments offer_name req settings L
         = Throw AttributeError L)
  /\ (forall expected, RfmOffers.segments_match expected None = false)
  /\ (logged_expected "Не найдено" = logged_actual None
      /\ logged_actual (Some "Не найдено") = logged_actual None
      /\ RfmOffers.segments_match "Не найдено" (Some "Не найдено") = true).
Proof.
  assert (Hback : forall cell,
             RfmOffers.segments_of (logged_expected cell)
             = RfmOffers.sort (RfmOffers.segments_of cell)).
  { intros cell. apply segments_of_joined. intros x Hx.
    apply (segments_normal cell).
    apply (Permutation_in x (sort_perm (RfmOffers.segments_of cell))).
    exact Hx. }
  split; [intros cell x; apply segments_normal|]. split; [exact Hback|].
  split; [|split; [|split; [|split]]].
  - intros expected actual.
    unfold RfmOffers.segments_match, logged_actual. rewrite !Hback.
    assert (Hss : forall l, RfmOffers.sort (RfmOffers.sort l) = RfmOffers.sort l).
    { intros l. apply sort_eq_iff_perm. apply sort_perm. }
    rewrite !Hss. reflexivity.
  - intros offer_name req cell settings entries found L Hc Hit Hf.
    unfold RfmOffers.check_segments, bind, lift, act. rewrite Hc, Hit, Hf.
    destruct found; reflexivity.
  - intros offer_name req settings L Hc.
    unfold RfmOffers.check_segments. rewrite Hc. reflexivity.
  - reflexivity.
  - repeat split.
Qed.

Section MoreDateFacts.

Import RfmOffers.

Lemma take_digits_inv (n : nat) :
  forall cs ds rest,
    take_digits n cs = Some (ds, rest) ->
    cs = ds ++ rest /\ List.length ds = n /\ forallb is_digit ds = true.
Proof.
  induction n as [|n IH]; intros cs ds rest; cbn [take_digits].
  - intros H. injection H as <- <-. repeat split.
  - destruct cs as [|c cs]; [discriminate|].
    destruct (is_digit c) eqn:Hc; [|discriminate].
    destruct (take_digits n cs) as [[ds' rest']|] eqn:Ht; [|discriminate].
    intros H. injection H as <- <-.
    destruct (IH _ _ _ Ht) as (-> & Hl & Hd).
    cbn [app List.length forallb]. rewrite Hc, Hl, Hd. repeat split.
Qed.

Lemma take_char_inv (ch : ascii) (cs rest : list ascii) :
  take_char ch cs = Some rest -> cs = ch :: rest.
Proof.
  destruct cs as [|c cs]; cbn [take_char]; [discriminate|].
  destruct (Ascii.eqb_spec c ch) as [->|]; [|discriminate].
  intros H. injection H as <-. reflexivity.
Qed.

Lemma string_of_chars_length (l : list ascii) :
  String.length (string_of_list_ascii l) = List.length l.
Proof.
  induction l as [|c l IH]; cbn; [reflexivity | rewrite IH; reflexivity].
Qed.

Lemma digits_of_chars (n : nat) (l : list ascii) :
  List.length l = n -> forallb is_digit l = true ->
  digits n (string_of_list_ascii l).
Proof.
  intros Hl Hd. split.
  - rewrite string_of_chars_length. exact Hl.
  - rewrite list_ascii_of_string_of_list_ascii. exact Hd.
Qed.

(** What a match of the one-digit hour pattern says of the text. *)
Lemma match_hour_inv (text date_part h mi sec : string) :
  match_hour_pattern text = Some (date_part, h, mi, sec) ->
  exists y mo d tail,
    digits 4 y /\ digits 2 mo /\ digits 2 d /\ digits 1 h
    /\ digits 2 mi /\ digits 2 sec
    /\ date_part = (y ++ "-" ++ mo ++ "-" ++ d)%string
    /\ text = (short_hour y mo d h mi sec ++ tail)%string.
Proof.
  unfold match_hour_pattern.
  destruct (take_digits 4 _) as [[yl c1]|] eqn:E1; [|discriminate].
  destruct (take_char "-" c1) as [c2|] eqn:E2; [|discriminate].
  destruct (take_digits 2 c2) as [[mol c3]|] eqn:E3; [|discriminate].
  destruct (take_char "-" c3) as [c4|] eqn:E4; [|discriminate].
  destruct (take_digits 2 c4) as [[dl c5]|] eqn:E5; [|discriminate].
  destruct (take_char " " c5) as [c6|] eqn:E6; [|discriminate].
  destruct (take_digits 1 c6) as [[hl c7]|] eqn:E7; [|discriminate].
  destruct (take_char ":" c7) as [c8|] eqn:E8; [|discriminate].
  destruct (take_digits 2 c8) as [[mil c9]|] eqn:E9; [|discriminate].
  destruct (take_char ":" c9) as [c10|] eqn:E10; [|discriminate].
  destruct (take_digits 2 c10) as [[sl c11]|] eqn:E11; [|discriminate].
  intros H. injection H as <- <- <- <-.
  apply take_digits_inv in E1, E3, E5, E7, E9, E11.
  apply take_char_inv in E2, E4, E6, E8, E10.
  destruct E1 as (H1 & L1 & D1), E3 as (H3 & L3 & D3), E5 as (H5 & L5 & D5),
    E7 as (H7 & L7 & D7), E9 as (H9 & L9 & D9), E11 as (H11 & L11 & D11).
  exists (string_of_list_ascii yl), (string_of_list_ascii mol),
    (string_of_list_ascii dl), (string_of_list_ascii c11).
  repeat (split; [apply digits_of_chars; assumption|]).
  split.
  - rewrite string_of_chars_app. cbn [string_of_list_ascii].
    rewrite string_of_chars_app. reflexivity.
  - rewrite <- (string_of_list_ascii_of_string text), H1, E2, H3, E4, H5, E6,
      H7, E8, H9, E10, H11.
    unfold short_hour.
    repeat (rewrite ?string_of_chars_app; cbn [string_of_list_ascii append]).
    repeat (first [rewrite str_app_assoc | progress cbn [append]]).
    reflexivity.
Qed.

Lemma match_short_hour_tail (y mo d h mi s tail : string) :
  digits 4 y -> digits 2 mo -> digits 2 d -> digits 1 h ->
  digits 2 mi -> digits 2 s ->
  match_hour_pattern (short_hour y mo d h mi s ++ tail)
  = Some ((y ++ "-" ++ mo ++ "-" ++ d)%string, h, mi, s).
Proof.
  intros Hy Hmo Hd Hh Hmi Hs.
  unfold match_hour_pattern, short_hour.
  rewrite !chars_app.
  repeat (rewrite <- !app_assoc; cbn [list_ascii_of_string app]).
  rewrite (take_digits_of 4 y _ Hy). cbn [take_char Ascii.eqb Bool.eqb].
  rewrite (take_digits_of 2 mo _ Hmo). cbn [take_char Ascii.eqb Bool.eqb].
  rewrite (take_digits_of 2 d _ Hd). cbn [take_char Ascii.eqb Bool.eqb].
  rewrite (take_digits_of 1 h _ Hh). cbn [take_char Ascii.eqb Bool.eqb].
  rewrite (take_digits_of 2 mi _ Hmi). cbn [take_char Ascii.eqb Bool.eqb].
  rewrite (take_digits_of 2 s _ Hs).
  rewrite !string_of_list_ascii_of_string.
  rewrite string_of_chars_app. cbn [string_of_list_ascii].
  rewrite string_of_chars_app. cbn [string_of_list_ascii].
  rewrite !string_of_list_ascii_of_string.
  reflexivity.
Qed.

Lemma normalize_short_hour_tail (y mo d h mi s tail : string) :
  digits 4 y -> digits 2 mo -> digits 2 d -> digits 1 h ->
  digits 2 mi -> digits 2 s ->
  _normalize_date_format (short_hour y mo d h mi s ++ tail)
  = padded_hour y mo d h mi s.
Proof.
  intros Hy Hmo Hd Hh Hmi Hs. unfold _normalize_date_format.
  rewrite (match_short_hour_tail y mo d h mi s tail Hy Hmo Hd Hh Hmi Hs).
  assert (Hne : String.eqb (short_hour y mo d h mi s ++ tail) "" = false).
  { unfold short_hour. destruct Hy as [Hlen _].
    destruct y; [discriminate Hlen | reflexivity]. }
  rewrite Hne. destruct Hh as [Hlen _].
  destruct h as [|c [|]]; try discriminate Hlen.
  unfold padded_hour. cbn [zfill2]. rewrite !str_app_assoc. reflexivity.
Qed.

Lemma normalize_padded_hour (y mo d h mi s : string) :
  digits 4 y -> digits 2 mo -> digits 2 d -> digits 1 h ->
  _normalize_date_format (padded_hour y mo d h mi s) = padded_hour y mo d h mi s.
Proof.
  intros Hy Hmo Hd Hh. unfold _normalize_date_format, padded_hour.
  assert (Hhh : digits 2 ("0" ++ h)).
  { destruct Hh as [Hlen Hdig]. split.
    - cbn. rewrite Hlen. reflexivity.
    - cbn. exact Hdig. }
  pose proof (match_padded_hour y mo d ("0" ++ h)
                (":" ++ mi ++ ":" ++ s) Hy Hmo Hd Hhh) as Hm.
  cbn [append] in Hm |- *. rewrite Hm.
  destruct Hy as [Hlen _]. destruct y; [discriminate Hlen | reflexivity].
Qed.

End MoreDateFacts.

(** X8. The date normalization of rfm-offers is idempotent, and it is not
    neutral on what follows the seconds. Normalizing a normalized text
    changes nothing. A text that begins with a date and a one-digit hour
    is cut after the seconds when the hour is padded, whereas a text whose
    hour has two digits is returned whole: "2024-01-05 7:00:00 UTC" becomes
    "2024-01-05 07:00:00" and "2024-01-05 07:00:00 UTC" stays as it is, so
    the two do not compare equal. *)
Theorem date_normalization_is_idempotent :
  (forall text,
      RfmOffers._normalize_date_format (RfmOffers._normalize_date_format text)
      = RfmOffers._normalize_date_format text)
  /\ (forall y mo d h mi s tail,
         digits 4 y -> digits 2 mo -> digits 2 d -> digits 1 h ->
         digits 2 mi -> digits 2 s ->
         RfmOffers._normalize_date_format (short_hour y mo d h mi s ++ tail)
         = padded_hour y mo d h mi s)
  /\ (forall y mo d h mi s tail,
         digits 4 y -> digits 2 mo -> digits 2 d -> digits 1 h ->
         RfmOffers._normalize_date_format (padded_hour y mo d h mi s ++ tail)
         = (padded_hour y mo d h mi s ++ tail)%string)
  /\ RfmOffers._normalize_date_format "2024-01-05 7:00:00 UTC"
     <> RfmOffers._normalize_date_format "2024-01-05 07:00:00 UTC".
Proof.
  split; [|split; [|split]].
  - intros text.
    destruct (String.eqb_spec text "") as [->|Hne]; [reflexivity|].
    destruct (RfmOffers.match_hour_pattern text) as [[[[dp h] mi] sec]|] eqn:Hm.
    + destruct (match_hour_inv text dp h mi sec Hm)
        as (y & mo & d & tail & Hy & Hmo & Hd & Hh & Hmi & Hs & -> & ->).
      rewrite (normalize_short_hour_tail y mo d h mi sec tail Hy Hmo Hd Hh Hmi Hs).
      apply normalize_padded_hour; assumption.
    + assert (H : RfmOffers._normalize_date_format text = text).
      { unfold RfmOffers._normalize_date_format. rewrite Hm.
        destruct (String.eqb_spec text ""); [contradiction | reflexivity]. }
      rewrite H. exact H.
  - intros y mo d h mi s tail. apply normalize_short_hour_tail.
  - intros y mo d h mi s tail Hy Hmo Hd Hh.
    unfold RfmOffers._normalize_date_format, padded_hour.
    assert (Hhh : digits 2 ("0" ++ h)).
    { destruct Hh as [Hlen Hdig]. split.
      - cbn. rewrite Hlen. reflexivity.
      - cbn. exact Hdig. }
    pose proof (match_padded_hour y mo d ("0" ++ h)
                  ((":" ++ mi ++ ":" ++ s) ++ tail) Hy Hmo Hd Hhh) as Hm.
    rewrite !str_app_assoc. cbn [append] in Hm |- *.
    rewrite !str_app_assoc in Hm. cbn [append] in Hm. rewrite Hm.
    destruct Hy as [Hlen _]. destruct y; [discriminate Hlen | reflexivity].
  - vm_compute. discriminate.
Qed.

(* ================================================================== *)
(** * Further properties of the end-news validator                     *)
(* ================================================================== *)

Section KeepsFacts.

Variable R : ledger -> ledger -> Prop.
Hypothesis R_refl : forall L, R L L.
Hypothesis R_trans : forall L1 L2 L3, R L1 L2 -> R L2 L3 -> R L1 L3.

Lemma keeps_ret {A} (a : A) : keeps R (ret a).
Proof. intros L. apply R_refl. Qed.

Lemma keeps_lift {A} (r : result A) : keeps R (lift r).
Proof. intros L. unfold lift. destruct r; apply R_refl. Qed.

Lemma keeps_act (f : ledger -> ledger) :
  (forall L, R L (f L)) -> keeps R (act f).
Proof. intros H L. apply H. Qed.

Lemma keeps_bind {A B} (m : M A) (k : A -> M B) :
  keeps R m -> (forall a, keeps R (k a)) -> keeps R (bind m k).
Proof.
  intros Hm Hk L. unfold bind. specialize (Hm L).
  destruct (m L) as [a L1 | e L1]; cbn [final_ledger] in Hm |- *.
  - eapply R_trans; [exact Hm | apply Hk].
  - exact Hm.
Qed.

Lemma keeps_for_each {A} (body : A -> M unit) (xs : list A) :
  (forall x, keeps R (body x)) -> keeps R (for_each xs body).
Proof.
  intros H. induction xs as [|x xs IH]; cbn [for_each].
  - apply keeps_ret.
  - apply keeps_bind; [apply H | intros _; exact IH].
Qed.

End KeepsFacts.

(** The steps of a proof that a method keeps a relation: [rf] and [tr] are
    its reflexivity and transitivity, [leaf] proves it of one call of the
    logging API. *)
Ltac keeps_steps rf tr leaf :=
  repeat first
    [ apply (keeps_ret _ rf)
    | apply (keeps_lift _ rf)
    | apply (keeps_bind _ tr); [| intros ?]
    | apply keeps_act; intros ?; leaf
    | progress cbv beta iota zeta
    | match goal with
      | |- keeps _ (match ?x with _ => _ end) => destruct x
      end ].

Section NoWarningFacts.

Lemma no_new_warning_refl (L : ledger) : no_new_warning L L.
Proof. split; reflexivity. Qed.

Lemma no_new_warning_trans (L1 L2 L3 : ledger) :
  no_new_warning L1 L2 -> no_new_warning L2 L3 -> no_new_warning L1 L3.
Proof. intros [H1 H2] [H3 H4]. split; congruence. Qed.

Lemma no_new_warning_check v k n r ex ac d t (L : ledger) :
  no_new_warning L (log_check v k n r ex ac d t L).
Proof. unfold log_check. destruct r; split; reflexivity. Qed.

Lemma no_new_warning_error v m k (L : ledger) :
  no_new_warning L (log_error v m k L).
Proof. unfold log_error. destruct (files_notes v k); split; reflexivity. Qed.

End NoWarningFacts.

Section AliasFacts.

Lemma span_digits_inv (cs : list ascii) :
  forall ds rest,
    span_digits cs = (ds, rest) ->
    cs = ds ++ rest /\ forallb is_digit ds = true.
Proof.
  induction cs as [|c cs IH]; intros ds rest; cbn [span_digits].
  - intros H. injection H as <- <-. split; reflexivity.
  - destruct (is_digit c) eqn:Hc.
    + destruct (span_digits cs) as [ds' rest'] eqn:Hs.
      intros H. injection H as <- <-.
      destruct (IH _ _ eq_refl) as [-> Hd].
      cbn [app forallb]. rewrite Hc, Hd. split; reflexivity.
    + intros H. injection H as <- <-. split; reflexivity.
Qed.

(** The group of the pattern is a run of digits, and never empty. *)
Lemma search_paren_number_inv (cs : list ascii) (d : string) :
  search_paren_number cs = Some d ->
  d <> "" /\ forallb is_digit (list_ascii_of_string d) = true
  /\ exists before after,
       cs = before ++ "("%char :: list_ascii_of_string d ++ ")"%char :: after.
Proof.
  induction cs as [|c cs IH]; cbn [search_paren_number]; [discriminate|].
  assert (Hrec : search_paren_number cs = Some d ->
                 d <> "" /\ forallb is_digit (list_ascii_of_string d) = true
                 /\ exists before after,
                      c :: cs = before ++ "("%char :: list_ascii_of_string d
                                        ++ ")"%char :: after).
  { intros H. destruct (IH H) as (Hne & Hd & before & after & ->).
    split; [exact Hne|]. split; [exact Hd|].
    exists (c :: before), after. reflexivity. }
  destruct (Ascii.eqb_spec c "(") as [->|Hc]; [|exact Hrec].
  destruct (span_digits cs) as [ds rest] eqn:Hs.
  destruct ds as [|d0 ds]; [exact Hrec|].
  destruct rest as [|r rest]; [exact Hrec|].
  destruct (Ascii.eqb_spec r ")") as [->|Hr].
  - replace (match ")"%char with
             | ")"%char => Some (string_of_list_ascii (d0 :: ds))
             | _ => search_paren_number cs
             end) with (Some (string_of_list_ascii (d0 :: ds)))
      by reflexivity.
    intros H. injection H as <-.
    destruct (span_digits_inv cs _ _ Hs) as [-> Hd].
    cbn [list_ascii_of_string]. rewrite list_ascii_of_string_of_list_ascii.
    split; [discriminate|]. split; [exact Hd|].
    exists [], rest. reflexivity.
  - destruct r as [[] [] [] [] [] [] [] []]; try exact Hrec.
    contradiction Hr. reflexivity.
Qed.

Lemma assoc_alias_set (a k : string) (r : row) (m : list (string * row)) :
  assoc a (EndNews.alias_set k r m)
  = if String.eqb a k then Some r else assoc a m.
Proof.
  induction m as [|[k' r'] m IH]; cbn [EndNews.alias_set assoc].
  - reflexivity.
  - destruct (String.eqb_spec k k') as [->|Hk]; cbn [assoc].
    + destruct (String.eqb a k'); reflexivity.
    + destruct (String.eqb_spec a k') as [->|Ha].
      * destruct (String.eqb_spec k' k); [congruence | reflexivity].
      * exact IH.
Qed.

(** A row is indexed under its own alias. *)
Lemma index_by_alias_sound (reqs : list row) (a : string) (r : row) :
  assoc a (EndNews.index_by_alias reqs) = Some r ->
  assoc "alias" r = Some a /\ a <> "" /\ In r reqs.
Proof.
  unfold EndNews.index_by_alias.
  assert (H : forall m0,
             (forall a r, assoc a m0 = Some r ->
                          assoc "alias" r = Some a /\ a <> "" /\ In r reqs) ->
             forall l, incl l reqs ->
             forall a r,
               assoc a (fold_left
                          (fun m req =>
                             match assoc "alias" req with
                             | Some a => if negb (a =? "")%string
                                         then EndNews.alias_set a req m else m
                             | None => m
                             end) l m0) = Some r ->
               assoc "alias" r = Some a /\ a <> "" /\ In r reqs).
  { intros m0 H0 l. revert m0 H0.
    induction l as [|req l IH]; intros m0 H0 Hincl a' r'; cbn [fold_left].
    - apply H0.
    - apply IH.
      + intros a1 r1. destruct (assoc "alias" req) as [al|] eqn:Hal; [|apply H0].
        destruct (String.eqb_spec al "") as [->|Hne]; cbn [negb]; [apply H0|].
        rewrite assoc_alias_set.
        destruct (String.eqb_spec a1 al) as [->|Hne1]; [|apply H0].
        intros E. injection E as <-. split; [exact Hal|]. split; [exact Hne|].
        apply Hincl. left. reflexivity.
      + intros x Hx. apply Hincl. right. exact Hx. }
  apply (H []); [intros a0 r0 E; discriminate E | apply incl_refl].
Qed.

End AliasFacts.

(** X9. The multiplier the double points check expects is fixed by the code.
    The row is looked up under the alias "double points(2)", so the number
    read from the parentheses of its alias is always "2", whatever the
    table holds; the branch that warns that no number could be read is
    never taken, and [validate_double_points] adds no warning on any
    input, whether it returns or raises. *)
Theorem double_points_multiplier_is_fixed :
  forall (py_str : pyval -> string) (V : EndNews.validator) (L : ledger),
    EndNews.requirements_by_alias V
    = EndNews.index_by_alias (EndNews.requirements V) ->
    (forall r, assoc "double points(2)" (EndNews.requirements_by_alias V) = Some r ->
               EndNews.alias_number r = Some "2")
    /\ no_new_warning L
         (final_ledger (EndNews.validate_double_points py_str V L)).
Proof.
  intros py_str V L HV.
  assert (Hnum : forall r,
             assoc "double points(2)" (EndNews.requirements_by_alias V) = Some r ->
             EndNews.alias_number r = Some "2").
  { intros r Hr. rewrite HV in Hr.
    destruct (index_by_alias_sound _ _ _ Hr) as (Ha & _ & _).
    unfold EndNews.alias_number, row_get. rewrite Ha. reflexivity. }
  split; [exact Hnum|].
  revert L.
  change (keeps no_new_warning (EndNews.validate_double_points py_str V)).
  unfold EndNews.validate_double_points, EndNews.check.
  destruct (assoc "double points(2)" (EndNews.requirements_by_alias V))
    as [r|] eqn:Hr.
  - cbv zeta. rewrite (Hnum r eq_refl).
    keeps_steps no_new_warning_refl no_new_warning_trans
      ltac:(first [apply no_new_warning_check | apply no_new_warning_error]).
  - apply keeps_act. intros L. apply no_new_warning_error.
Qed.

Lemma double_points_multiplier_is_fixed_witness :
  let reqs := [[("alias", "double points(2)"); ("from", "2024-06-01");
                ("to", "2024-06-08"); ("MultiplierTurnOn", "2024-06-02")]] in
  let V := {| EndNews.end_news_promo := VDict [];
              EndNews.double_points_promo := VDict [];
              EndNews.promo :=
                VDict [("parameters", VDict [("promotionAwardMultiplier", VInt 3)])];
              EndNews.requirements := reqs;
              EndNews.requirements_by_alias := EndNews.index_by_alias reqs |} in
  no_new_warning empty_ledger
    (final_ledger (EndNews.validate_double_points
                     (fun _ => "3") V empty_ledger)).
Proof.
  intros reqs V.
  exact (proj2 (double_points_multiplier_is_fixed (fun _ => "3") V empty_ledger
                  eq_refl)).
Defined.

Section OnlyLoggedFacts.

Lemma only_logged_refl (L : ledger) : only_logged L L.
Proof. repeat split. Qed.

Lemma only_logged_trans (L1 L2 L3 : ledger) :
  only_logged L1 L2 -> only_logged L2 L3 -> only_logged L1 L3.
Proof.
  intros (A1 & A2 & A3 & A4 & A5 & A6 & A7) (B1 & B2 & B3 & B4 & B5 & B6 & B7).
  repeat split; congruence.
Qed.

Lemma only_logged_add_log (l : level) (b : msg) (L : ledger) :
  only_logged L (add_log l b L).
Proof. repeat split. Qed.

Lemma only_logged_infos (ms : list msg) :
  forall L, only_logged L (Summary.log_infos ms L).
Proof.
  unfold Summary.log_infos.
  induction ms as [|m ms IH]; intros L; cbn [fold_left].
  - apply only_logged_refl.
  - eapply only_logged_trans; [|apply IH]. apply only_logged_add_log.
Qed.

Lemma only_logged_phase v p (L : ledger) : only_logged L (start_phase v p L).
Proof. unfold start_phase. destruct v; repeat split. Qed.

(** The summary of the end-news validator returns and writes the detailed
    log only. *)
Lemma end_news_summary_only_logs (json : bool) (L : ledger) :
  exists L', Summary.print_summary EndNews json L = Done tt L'
             /\ only_logged L L'.
Proof.
  unfold Summary.print_summary. eexists. split; [reflexivity|].
  set (L1 := log_info _ (print_header _ L)).
  assert (H1 : only_logged L L1).
  { subst L1. eapply only_logged_trans; apply only_logged_add_log. }
  set (L2 := match errors L1 with [] => L1 | _ => _ end).
  assert (H2 : only_logged L L2).
  { subst L2. destruct (errors L1); [exact H1|].
    eapply only_logged_trans; [exact H1 | apply only_logged_infos]. }
  destruct (warnings L2); [exact H2|].
  eapply only_logged_trans; [exact H2 | apply only_logged_infos].
Qed.

End OnlyLoggedFacts.

(** X10. When the index by alias is empty (the requirements table could not
    be read, or none of its rows has an alias), a run of the end-news
    validator goes through its three phases and the summary without
    raising and without making a single check: it counts nothing, files
    nothing, and leaves exactly three errors, one for each requirement it
    did not find, whatever the three JSON documents hold. *)
Theorem end_news_without_requirements :
  forall (py_str : pyval -> string) (V : EndNews.validator) (json : bool)
         (L : ledger),
    EndNews.requirements_by_alias V = [] ->
    exists L',
      EndNews.validate_all py_str V json L = Done tt L'
      /\ total_checks L' = total_checks L
      /\ failed_checks L' = failed_checks L
      /\ warning_checks L' = warning_checks L
      /\ subject_errors L' = subject_errors L
      /\ errors L'
         = errors L
           ++ [[Lit "Не найдены требования для 'end news' в таблице"];
               [Lit "Не найдены требования для 'double points(2)' в таблице"];
               [Lit "Не найдены требования для 'itemsToCashExchange' в таблице"]].
Proof.
  intros py_str V json L H.
  unfold EndNews.validate_all, EndNews.validate_end_news,
    EndNews.validate_double_points, EndNews.validate_items_to_cash_exchange.
  rewrite H. cbn [assoc EndNews.find_alias_containing].
  unfold bind, act.
  match goal with
  | |- exists L', Summary.print_summary EndNews json ?L3 = _ /\ _ =>
      destruct (end_news_summary_only_logs json L3)
        as (L' & -> & (He & _ & Ht & _ & Hf & Hw & Hs))
  end.
  exists L'. split; [reflexivity|].
  rewrite Ht, Hf, Hw, Hs, He.
  unfold log_error, start_phase, print_header.
  cbn [files_notes total_checks failed_checks warning_checks subject_errors
       errors add_error add_log set_phase app].
  rewrite <- !app_assoc. repeat split.
Qed.

Lemma end_news_without_requirements_witness :
  exists L',
    EndNews.validate_all (fun _ => "")
      (fst (EndNews.init "end-news-promo.json" "double-points-promo.json"
              "promo.json" "requirements.csv"
              (Loaded (VDict [])) (Loaded (VDict []))
              (Loaded promo_with_season_pass)
              (Failed "No such file or directory") empty_ledger))
      false empty_ledger = Done tt L'
    /\ total_checks L' = 0.
Proof.
  destruct (end_news_without_requirements (fun _ => "")
              (fst (EndNews.init "end-news-promo.json" "double-points-promo.json"
                      "promo.json" "requirements.csv"
                      (Loaded (VDict [])) (Loaded (VDict []))
                      (Loaded promo_with_season_pass)
                      (Failed "No such file or directory") empty_ledger))
              false empty_ledger eq_refl)
    as (L' & H & Ht & _).
  exists L'. split; [exact H | exact Ht].
Defined.

Section ReportFacts.

Lemma emap_append_forall (P : key -> Prop) (k : key) (d : details) (m : error_map) :
  P k -> Forall (fun kv => P (fst kv)) m ->
  Forall (fun kv => P (fst kv)) (emap_append k d m).
Proof.
  intros Hk. induction m as [|[k' ds] m IH]; cbn [emap_append]; intros H.
  - constructor; [exact Hk | constructor].
  - inversion H as [|x l Hx Hl]; subst.
    destruct (key_eqb k k'); constructor; auto.
Qed.

Lemma stays_reportable_refl (L : ledger) : stays_reportable L L.
Proof. exact (fun H => H). Qed.

Lemma stays_reportable_trans (L1 L2 L3 : ledger) :
  stays_reportable L1 L2 -> stays_reportable L2 L3 -> stays_reportable L1 L3.
Proof. unfold stays_reportable. auto. Qed.

Lemma only_logged_reportable (L L' : ledger) :
  only_logged L L' -> stays_reportable L L'.
Proof.
  intros (_ & _ & _ & _ & Hf & _ & Hs) [H1 H2]. unfold reportable.
  rewrite Hs, Hf. split; assumption.
Qed.

Lemma reportable_check (check_id : string) n r ex ac d t (L : ledger) :
  in_one_section (KStr check_id) ->
  stays_reportable L (log_check EndNews (KStr check_id) n r ex ac d t L).
Proof.
  intros Hk [H1 H2]. unfold log_check, reportable. destruct r.
  - cbn [subject_errors failed_checks add_log bump_passed bump_total].
    split; assumption.
  - cbn [subject_errors failed_checks add_log add_error file_under
         bump_failed bump_total].
    split.
    + apply emap_append_forall; assumption.
    + rewrite records_append. lia.
Qed.

Lemma reportable_error m k (L : ledger) :
  stays_reportable L (log_error EndNews m k L).
Proof. intros H. exact H. Qed.

Lemma reportable_warning m k (L : ledger) :
  stays_reportable L (log_warning EndNews m k L).
Proof. intros H. exact H. Qed.

Lemma reportable_phase p (L : ledger) :
  stays_reportable L (start_phase EndNews p L).
Proof. intros H. exact H. Qed.

(** The number of rows of one section. *)
Lemma section_rows_length (p name : string) (m : error_map) :
  Forall (fun kv => exists s, fst kv = KStr s) m ->
  exists rows,
    Report.section_rows p name m = Ok rows
    /\ List.length rows
       = fold_right (fun kv n => ((if taken_by p (fst kv)
                                   then List.length (snd kv) else 0) + n)%nat)
                    O m.
Proof.
  induction m as [|[k ds] m IH]; intros H; cbn [Report.section_rows fold_right].
  - exists []. split; reflexivity.
  - inversion H as [|x l [s Hs] Hl]; subst. cbn [fst] in Hs. subst k.
    destruct (IH Hl) as (rows & -> & Hlen).
    cbn [Report.id_starts rbind taken_by fst snd].
    eexists. split; [reflexivity|].
    rewrite length_app, Hlen.
    destruct (negb (s =? "")%string && startswith p s);
      [rewrite length_map|]; reflexivity.
Qed.

Lemma sections_cover (m : error_map) :
  Forall (fun kv => in_one_section (fst kv)) m ->
  (fold_right (fun kv n => ((if taken_by "end_news" (fst kv)
                             then List.length (snd kv) else 0) + n)%nat) O m
   + fold_right (fun kv n => ((if taken_by "double_points" (fst kv)
                               then List.length (snd kv) else 0) + n)%nat) O m
   + fold_right (fun kv n => ((if taken_by "items_to_cash" (fst kv)
                               then List.length (snd kv) else 0) + n)%nat) O m
   = records m)%nat.
Proof.
  induction m as [|[k ds] m IH]; intros H; cbn [fold_right records fst snd].
  - reflexivity.
  - inversion H as [|x l [_ Hone] Hl]; subst. cbn [fst] in Hone.
    specialize (IH Hl). unfold records in IH.
    destruct (taken_by "end_news" k), (taken_by "double_points" k),
      (taken_by "items_to_cash" k); try discriminate Hone; lia.
Qed.

Lemma report_of_reportable (by_alias : list (string * row)) (L : ledger) :
  reportable L ->
  exists rows,
    Report.end_news_rows by_alias (subject_errors L) = Ok rows
    /\ Z.of_nat (List.length rows) = failed_checks L.
Proof.
  intros [Hk Hn]. unfold Report.end_news_rows.
  assert (Hs : Forall (fun kv : key * list details => exists s, fst kv = KStr s)
                      (subject_errors L)).
  { eapply Forall_impl; [|exact Hk]. intros kv [H _]. exact H. }
  destruct (section_rows_length "end_news"
              (Report.alias_or "end news" "end_news" by_alias) _ Hs)
    as (r1 & -> & H1).
  destruct (section_rows_length "double_points"
              (Report.alias_or "double points(2)" "double_points" by_alias) _ Hs)
    as (r2 & -> & H2).
  destruct (section_rows_length "items_to_cash" "itemsToCashExchange" _ Hs)
    as (r3 & -> & H3).
  cbn [rbind]. eexists. split; [reflexivity|].
  rewrite !length_app, H1, H2, H3, <- Hn.
  rewrite <- (sections_cover _ Hk). lia.
Qed.

End ReportFacts.

Ltac one_section := split; [eexists; reflexivity | reflexivity].

Ltac reportable_leaf :=
  first [ apply reportable_check; one_section
        | apply reportable_error
        | apply reportable_warning
        | apply reportable_phase ].

Section ReportRunFacts.

Variable py_str : pyval -> string.

Lemma validate_end_news_reportable (V : EndNews.validator) :
  keeps stays_reportable (EndNews.validate_end_news py_str V).
Proof.
  unfold EndNews.validate_end_news, EndNews.check.
  keeps_steps stays_reportable_refl stays_reportable_trans reportable_leaf.
Qed.

Lemma validate_double_points_reportable (V : EndNews.validator) :
  keeps stays_reportable (EndNews.validate_double_points py_str V).
Proof.
  unfold EndNews.validate_double_points, EndNews.check.
  keeps_steps stays_reportable_refl stays_reportable_trans reportable_leaf.
Qed.

Lemma validate_exchange_reportable (V : EndNews.validator) :
  keeps stays_reportable (EndNews.validate_items_to_cash_exchange py_str V).
Proof.
  unfold EndNews.validate_items_to_cash_exchange, EndNews.check.
  keeps_steps stays_reportable_refl stays_reportable_trans reportable_leaf.
Qed.

Lemma validate_all_reportable (V : EndNews.validator) (json : bool) :
  keeps stays_reportable (EndNews.validate_all py_str V json).
Proof.
  unfold EndNews.validate_all.
  repeat (apply (keeps_bind _ stays_reportable_trans); [|intros _]);
    try (apply keeps_act; intros L; apply reportable_phase).
  - apply validate_end_news_reportable.
  - apply validate_double_points_reportable.
  - apply validate_exchange_reportable.
  - intros L. destruct (end_news_summary_only_logs json L) as (L' & -> & H).
    apply only_logged_reportable. exact H.
Qed.

End ReportRunFacts.

(** X11. The report of a completed end-news run lists every failed check
    once. Every check of the three phases is made under an id that begins
    with "end_news", "double_points" or "items_to_cash", the three
    prefixes the report selects by, and warnings and errors are never
    filed; so when the run starts from a ledger with nothing filed and
    returns, writing the report does not raise and the number of its rows
    is [failed_checks]. *)
Theorem end_news_report_lists_failed_checks :
  forall (py_str : pyval -> string) (V : EndNews.validator) (json : bool)
         (L L' : ledger),
    subject_errors L = [] -> failed_checks L = 0 ->
    EndNews.validate_all py_str V json L = Done tt L' ->
    exists rows,
      Report.end_news_rows (EndNews.requirements_by_alias V) (subject_errors L')
      = Ok rows
      /\ Z.of_nat (List.length rows) = failed_checks L'.
Proof.
  intros py_str V json L L' Hs Hf Hrun.
  apply report_of_reportable.
  pose proof (validate_all_reportable py_str V json L) as H.
  rewrite Hrun in H. cbn [final_ledger] in H. apply H.
  unfold reportable. rewrite Hs, Hf. split; [constructor | reflexivity].
Qed.

Lemma end_news_report_lists_failed_checks_witness :
  let L' := final_ledger (EndNews.validate_all (fun _ => "") double_points_only
                            true empty_ledger) in
  failed_checks L' = 3
  /\ exists rows,
       Report.end_news_rows (EndNews.requirements_by_alias double_points_only)
         (subject_errors L') = Ok rows
       /\ Z.of_nat (List.length rows) = failed_checks L'.
Proof.
  intros L'. split; [vm_compute; reflexivity|].
  apply (end_news_report_lists_failed_checks (fun _ => "") double_points_only
           true empty_ledger L'); [reflexivity | reflexivity |].
  vm_compute. reflexivity.
Defined.

(* ================================================================== *)
(** * Further properties of the lottery validator                      *)
(* ================================================================== *)

Section GroupFacts.

Lemma dict_set_forall {A} (P : string * A -> Prop) (k : string) (x : A)
    (m : list (string * A)) :
  P (k, x) -> Forall P m -> Forall P (Lottery.dict_set k x m).
Proof.
  intros Hk. induction m as [|[k' y] m IH]; cbn [Lottery.dict_set]; intros H.
  - constructor; [exact Hk | constructor].
  - inversion H as [|z l Hz Hl]; subst.
    destruct (String.eqb_spec k k') as [->|Hne].
    + constructor; [exact Hk | exact Hl].
    + constructor; [exact Hz | apply IH; exact Hl].
Qed.

Lemma dict_set_keys {A} (k k0 : string) (x : A) (m : list (string * A)) :
  In k0 (map fst (Lottery.dict_set k x m)) <-> k0 = k \/ In k0 (map fst m).
Proof.
  induction m as [|[k' y] m IH]; cbn [Lottery.dict_set map fst In].
  - intuition.
  - destruct (String.eqb_spec k k') as [->|Hne]; cbn [map fst In].
    + intuition.
    + rewrite IH. intuition.
Qed.

Lemma dict_set_nodup {A} (k : string) (x : A) (m : list (string * A)) :
  NoDup (map fst m) -> NoDup (map fst (Lottery.dict_set k x m)).
Proof.
  induction m as [|[k' y] m IH]; cbn [Lottery.dict_set map fst].
  - intros _. constructor; [intros [] | constructor].
  - intros H. inversion H as [|z l Hnot Hnd]; subst.
    destruct (String.eqb_spec k k') as [->|Hne]; cbn [map fst].
    + constructor; assumption.
    + constructor; [|apply IH; exact Hnd].
      intros Hin. apply dict_set_keys in Hin.
      destruct Hin as [-> | Hin]; [congruence | contradiction].
Qed.

Lemma action_cell_cases (req : csv_row) :
  (lacks_action_cell req = true /\ action_cell req = Raise AttributeError)
  \/ (lacks_action_cell req = false /\ exists s, action_cell req = Ok s).
Proof.
  unfold lacks_action_cell, action_cell, stripped_cell.
  destruct (cell_or_empty "action" req) as [s|].
  - right. split; [reflexivity | eexists; reflexivity].
  - left. split; reflexivity.
Qed.

Lemma group_rows_headed (table : list csv_row) (reqs : list csv_row) :
  forall current group m groups,
    incl reqs table ->
    Forall (fun kg => headed_group table (fst kg) (snd kg)) m ->
    NoDup (map fst m) ->
    (forall id, current = Some id -> headed_group table id group) ->
    Lottery.group_rows reqs current group m = Ok groups ->
    Forall (fun kg => headed_group table (fst kg) (snd kg)) groups
    /\ NoDup (map fst groups).
Proof.
  assert (Hset : forall k g m,
             headed_group table k g ->
             Forall (fun kg => headed_group table (fst kg) (snd kg)) m ->
             Forall (fun kg => headed_group table (fst kg) (snd kg))
                    (Lottery.dict_set k g m)).
  { intros k g m Hg Hm. apply dict_set_forall; assumption. }
  induction reqs as [|req reqs IH];
    intros current group m groups Hincl Hm Hnd Hcur;
    cbn [Lottery.group_rows].
  - intros E. injection E as <-.
    destruct current as [id|]; [|split; assumption].
    destruct group as [|r g]; [split; assumption|].
    split; [apply Hset; [apply Hcur; reflexivity | exact Hm]
           | apply dict_set_nodup; exact Hnd].
  - assert (Hin : In req table) by (apply Hincl; left; reflexivity).
    assert (Hincl' : incl reqs table).
    { intros x Hx. apply Hincl. right. exact Hx. }
    fold (action_cell req).
    destruct (action_cell req) as [action_id|e] eqn:Ha; cbn [rbind];
      [|discriminate].
    destruct (String.eqb_spec action_id "") as [He|Hne]; cbn [negb].
    + subst action_id.
      destruct current as [id|]; apply IH; try assumption.
      intros id' E. injection E as <-.
      destruct (Hcur id eq_refl) as (h & rest & -> & Hh & Hid & Hk & Hrest).
      exists h, (rest ++ [req]). split; [reflexivity|].
      split; [exact Hh|]. split; [exact Hid|]. split; [exact Hk|].
      apply Forall_app. split; [exact Hrest|].
      constructor; [split; assumption | constructor].
    + apply IH; try assumption.
      * destruct current as [id|]; [|exact Hm].
        apply Hset; [apply Hcur; reflexivity | exact Hm].
      * destruct current as [id|]; [|exact Hnd].
        apply dict_set_nodup. exact Hnd.
      * intros id E. injection E as <-.
        exists req, []. repeat split; try assumption. constructor.
Qed.

Lemma group_rows_without_ids (reqs : list csv_row) :
  forall m,
    Forall (fun r => action_cell r = Ok "") reqs ->
    Lottery.group_rows reqs None [] m = Ok m.
Proof.
  induction reqs as [|req reqs IH]; intros m H; cbn [Lottery.group_rows].
  - reflexivity.
  - inversion H as [|x l Hx Hl]; subst.
    fold (action_cell req). rewrite Hx. cbn [rbind String.eqb negb].
    apply IH, Hl.
Qed.

Lemma group_rows_outcome (reqs : list csv_row) :
  forall current group m,
    if existsb lacks_action_cell reqs
    then Lottery.group_rows reqs current group m = Raise AttributeError
    else exists groups, Lottery.group_rows reqs current group m = Ok groups.
Proof.
  induction reqs as [|req reqs IH]; intros current group m;
    cbn [existsb Lottery.group_rows].
  - eexists. reflexivity.
  - fold (action_cell req).
    destruct (action_cell_cases req) as [[-> ->] | [-> [s ->]]];
      cbn [orb rbind]; [reflexivity|].
    destruct (negb (String.eqb s "")); [apply IH|].
    destruct current; apply IH.
Qed.

Lemma group_rows_naming_none (reqs : list csv_row) :
  forall m,
    forallb names_no_action reqs = true ->
    Lottery.group_rows reqs None [] m
    = if existsb lacks_action_cell reqs then Raise AttributeError else Ok m.
Proof.
  induction reqs as [|req reqs IH]; intros m H;
    cbn [forallb existsb Lottery.group_rows] in *.
  - reflexivity.
  - apply andb_prop in H as [Hreq Hrest].
    unfold names_no_action in Hreq.
    fold (action_cell req).
    destruct (action_cell_cases req) as [[-> ->] | [-> [s Hs]]];
      cbn [orb rbind]; [reflexivity|].
    rewrite Hs in Hreq |- *. cbn [rbind]. rewrite Hreq. cbn [negb].
    apply IH, Hrest.
Qed.

End GroupFacts.

(** X12. The grouping of the lottery table gives headed groups. When the
    loop returns, every group begins with a row of the table that names
    the action the group is filed under (its cell, stripped, is the key
    and is not empty) and goes on with rows of the table that name no
    action; no group is empty and no action id has two groups. A table in
    which no row names an action gives no group at all, so that nothing is
    checked for it. The loop returns exactly when every row has an action
    cell; on a table with a line too short to have one it raises
    [AttributeError], whatever the other rows hold. *)
Theorem lottery_groups_are_headed :
  forall requirements : list csv_row,
    (forall groups,
        Lottery.group_rows requirements None [] [] = Ok groups ->
        (forall action_id group,
            In (action_id, group) groups ->
            headed_group requirements action_id group)
        /\ NoDup (map fst groups))
    /\ (Forall (fun r => action_cell r = Ok "") requirements ->
        Lottery.group_rows requirements None [] [] = Ok [])
    /\ (if existsb lacks_action_cell requirements
        then Lottery.group_rows requirements None [] [] = Raise AttributeError
        else exists groups,
               Lottery.group_rows requirements None [] [] = Ok groups).
Proof.
  intros requirements. split; [|split].
  - intros groups Hg.
    destruct (group_rows_headed requirements requirements None [] [] groups)
      as [Hall Hnd]; try assumption.
    + apply incl_refl.
    + constructor.
    + constructor.
    + intros id E. discriminate E.
    + split; [|exact Hnd].
      intros action_id group Hin. rewrite Forall_forall in Hall.
      apply (Hall (action_id, group) Hin).
  - apply group_rows_without_ids.
  - apply group_rows_outcome.
Qed.

(** X13. The presence phase of the lottery validator makes two checks for
    each action of the table. When the awards of the campaign document can
    be walked over, the phase does not raise and records, for every group
    of the table, one check against the awards of the campaign and then,
    in a second pass over the groups, one check against the actions file:
    twice as many checks as there are groups, the campaign checks first. *)
Theorem lottery_presence_checks_each_action_twice :
  forall (py_str : pyval -> string) (V : Lottery.validator) (L : ledger)
         (entries : list pyval),
    (awards <~ get_or "awards" (VList []) (Lottery.promo V) ;; iter awards)
    = Ok entries ->
    let ids := map fst (Lottery.requirements_by_action_id V) in
    exists L',
      Lottery.validate_actions_presence py_str V L = Done tt L'
      /\ total_checks L' = total_checks L + 2 * Z.of_nat (List.length ids)
      /\ results L'
         = results L
           ++ map (fun id => existsb (String.eqb id) (map py_str entries)) ids
           ++ map (fun id => has_key id (Lottery.actions_by_id V)) ids.
Proof.
  intros py_str V L entries H ids.
  destruct (get_or "awards" (VList []) (Lottery.promo V)) as [awards|e] eqn:Hg;
    [|discriminate H].
  cbn [rbind] in H.
  unfold Lottery.validate_actions_presence. fold ids.
  unfold bind at 1. unfold act at 1.
  set (L0 := log_info _ L).
  assert (H0 : total_checks L0 = total_checks L /\ results L0 = results L).
  { subst L0. unfold log_info. rewrite results_add_log, app_nil_r.
    split; reflexivity. }
  destruct H0 as [Ht0 Hr0].
  unfold bind at 1.
  match goal with |- context [for_each ids ?b L0] => set (body1 := b) end.
  assert (Hb1 : forall (x : string) (L2 : ledger), exists L',
             body1 x L2 = Done tt L'
             /\ total_checks L' = total_checks L2 + 1
             /\ results L'
                = results L2 ++ [existsb (String.eqb x) (map py_str entries)]).
  { intros id L2. subst body1. unfold bind, lift, Lottery.check, act.
    rewrite Hg, H. cbv zeta. eexists. split; [reflexivity|].
    split; [apply total_log_check | apply results_log_check]. }
  destruct (for_each_checks body1 _ ids Hb1 L0) as (L1 & He1 & Ht1 & Hr1).
  rewrite He1.
  match goal with |- context [for_each ids ?b L1] => set (body2 := b) end.
  assert (Hb2 : forall (x : string) (L2 : ledger), exists L',
             body2 x L2 = Done tt L'
             /\ total_checks L' = total_checks L2 + 1
             /\ results L' = results L2 ++ [has_key x (Lottery.actions_by_id V)]).
  { intros id L3. subst body2. unfold Lottery.check, act. cbv zeta.
    eexists. split; [reflexivity|].
    split; [apply total_log_check | apply results_log_check]. }
  destruct (for_each_checks body2 _ ids Hb2 L1) as (L2 & He2 & Ht2 & Hr2).
  exists L2. split; [exact He2|]. split.
  - rewrite Ht2, Ht1, Ht0. lia.
  - rewrite Hr2, Hr1, Hr0, <- app_assoc. reflexivity.
Qed.

Lemma lottery_presence_checks_each_action_twice_witness :
  let V := {| Lottery.promo := VDict [("awards", VList [VInt 7001])];
              Lottery.requirements := [];
              Lottery.actions := VList [];
              Lottery.season_pass_actions := None;
              Lottery.requirements_by_action_id :=
                [("7001", [full_row [("action", "7001")]]);
                 ("7002", [full_row [("action", "7002")]])];
              Lottery.actions_by_id := [("7002", VDict [])];
              Lottery.verbose := true;
              Lottery.json_output := false |} in
  exists L',
    Lottery.validate_actions_presence (fun _ => "7001") V empty_ledger = Done tt L'
    /\ total_checks L' = 4
    /\ results L' = [true; false; false; true].
Proof.
  intros V.
  destruct (lottery_presence_checks_each_action_twice (fun _ => "7001") V
              empty_ledger [VInt 7001] eq_refl)
    as (L' & He & Ht & Hr).
  exists L'. split; [exact He|]. split; [exact Ht | exact Hr].
Defined.

Section LotteryReportFacts.

Lemma emap_append_records (P : details -> Prop) (k : key) (d : details)
    (m : error_map) :
  P d -> Forall (fun kv => Forall P (snd kv)) m ->
  Forall (fun kv => Forall P (snd kv)) (emap_append k d m).
Proof.
  intros Hd. induction m as [|[k' ds] m IH]; cbn [emap_append]; intros H.
  - repeat constructor. exact Hd.
  - inversion H as [|x l Hx Hl]; subst. cbn [snd] in Hx.
    destruct (key_eqb k k'); constructor; cbn [snd]; auto.
    apply Forall_app. split; [exact Hx | repeat constructor; exact Hd].
Qed.

Lemma check_details_named v n ex ac d t : named (check_details v n ex ac d t).
Proof. exists n. reflexivity. Qed.

Lemma warning_details_named v m : named (warning_details v m).
Proof. destruct v; eexists; reflexivity. Qed.

Lemma error_details_named v m : named (error_details v m).
Proof. destruct v; eexists; reflexivity. Qed.

Lemma step_named v (L : ledger) (e : event) :
  Forall (fun kv => Forall named (snd kv)) (subject_errors L) ->
  Forall (fun kv => Forall named (snd kv)) (subject_errors (step v L e)).
Proof.
  intros H. destruct e as [k n r ex ac d t | m k | m k | m | p]; cbn [step].
  - unfold log_check. destruct r; cbn [subject_errors add_log add_error
      bump_passed bump_failed bump_total file_under]; [exact H|].
    apply emap_append_records; [apply check_details_named | exact H].
  - unfold log_warning. destruct (files_notes v k);
      cbn [subject_errors add_log add_warning bump_warning file_under];
      [|exact H].
    apply emap_append_records; [apply warning_details_named | exact H].
  - unfold log_error. destruct (files_notes v k);
      cbn [subject_errors add_log add_error file_under]; [|exact H].
    apply emap_append_records; [apply error_details_named | exact H].
  - exact H.
  - unfold start_phase, print_header. destruct v; exact H.
Qed.

Lemma run_named v (es : list event) :
  forall L,
    Forall (fun kv => Forall named (snd kv)) (subject_errors L) ->
    Forall (fun kv => Forall named (snd kv)) (subject_errors (run v es L)).
Proof.
  induction es as [|e es IH]; intros L H; [exact H|].
  change (run v (e :: es) L) with (run v es (step v L e)).
  apply IH, step_named, H.
Qed.

Lemma error_details_of_named (d : details) :
  named d -> exists shown, Report._get_error_details d = Ok shown.
Proof.
  intros [s Hs]. unfold Report._get_error_details, Report.entry.
  rewrite Hs. cbn [Report.str_in rbind].
  destruct (contains "Награда" s); [eexists; reflexivity|].
  destruct (contains "Экшен" s); eexists; reflexivity.
Qed.

Lemma collect_rows (k : key) (ds : list details) :
  Forall named ds ->
  exists rows, Report.collect (Report.lottery_row k) ds = Ok rows
               /\ List.length rows = List.length ds.
Proof.
  induction ds as [|d ds IH]; intros H; cbn [Report.collect].
  - exists []. split; reflexivity.
  - inversion H as [|x l Hd Hl]; subst.
    destruct (error_details_of_named d Hd) as [shown Hshown].
    destruct (IH Hl) as (rows & -> & Hlen).
    unfold Report.lottery_row. rewrite Hshown. cbn [rbind].
    eexists. split; [reflexivity|]. cbn [List.length]. rewrite Hlen.
    reflexivity.
Qed.

Lemma lottery_rows_of_named (m : error_map) :
  Forall (fun kv => Forall named (snd kv)) m ->
  exists rows, Report.lottery_rows m = Ok rows
               /\ List.length rows = records m.
Proof.
  induction m as [|[k ds] m IH]; intros H; cbn [Report.lottery_rows records
                                                 fold_right snd].
  - exists []. split; reflexivity.
  - inversion H as [|x l Hd Hl]; subst. cbn [snd] in Hd.
    destruct (collect_rows k ds Hd) as (rows & -> & Hlen).
    destruct (IH Hl) as (rest & -> & Hrest).
    cbn [rbind]. eexists. split; [reflexivity|].
    rewrite length_app, Hlen, Hrest. reflexivity.
Qed.

End LotteryReportFacts.

(** X14. The lottery report keeps one row for each filed record and hides
    the details of the reward checks. On the map any run of the logging
    API leaves, building the rows does not raise, and there is one row for
    each failed check and each warning or error logged with a subject. For
    the record of a failed reward check, whose name begins with "Награда",
    [_get_error_details] gives the fixed sentence and not the details the
    check was logged with (the type, count, item id and probability asked
    for); for the record of a warning or of an error it gives the message. *)
Theorem lottery_report_hides_reward_details :
  forall es : list event,
    let L := run LotteryRewards es empty_ledger in
    (exists rows,
        Report.lottery_rows (subject_errors L) = Ok rows
        /\ Z.of_nat (List.length rows)
           = failed_checks L + count (is_filed_note LotteryRewards) es)
    /\ (forall rest ex ac d,
           Report._get_error_details
             (check_details LotteryRewards ("Награда " ++ rest) ex ac d VNone)
           = Ok (VStr "Награда должна соответствовать требованиям"))
    /\ (forall m,
           Report._get_error_details (warning_details LotteryRewards m)
           = Ok (VStr m)
           /\ Report._get_error_details (error_details LotteryRewards m)
              = Ok (VStr m)).
Proof.
  intros es L. subst L. split; [|split].
  - destruct (lottery_rows_of_named
                (subject_errors (run LotteryRewards es empty_ledger)))
      as (rows & Hr & Hlen).
    { apply run_named. constructor. }
    exists rows. split; [exact Hr|].
    rewrite Hlen, run_records.
    destruct (run_counters LotteryRewards es empty_ledger) as (_ & _ & Hf & _).
    cbn in Hf. rewrite Hf. cbn [subject_errors empty_ledger records fold_right].
    lia.
  - intros rest ex ac d. reflexivity.
  - intros m. split; reflexivity.
Qed.

Section LotteryRunFacts.

Variable py_str : pyval -> string.

Lemma season_pass_no_check (promo : pyval) (L : ledger) :
  no_new_check L (snd (Lottery._get_season_pass_actions py_str promo L)).
Proof.
  unfold Lottery._get_season_pass_actions.
  destruct (rbind _ _) as [spa|e]; [|split; reflexivity].
  destruct (negb (truthy spa)); [split; reflexivity|].
  destruct (iter spa); split; reflexivity.
Qed.

Lemma lottery_init_spec (pf rf af : string) (r_promo : read pyval)
    (r_req : read (list csv_row)) (r_actions : read pyval) (verbose json : bool)
    (L : ledger) :
  let reqs := match r_req with Loaded rows => rows | Failed _ => [] end in
  let acts := match r_actions with Loaded a => a | Failed _ => VDict [] end in
  match Lottery.group_rows reqs None [] [] with
  | Raise e =>
      exists L',
        Lottery.init py_str pf rf af r_promo r_req r_actions verbose json L
        = Throw e L'
        /\ no_new_check L L'
  | Ok groups =>
      match (entries <~ iter acts ;; Lottery.index_actions py_str entries []) with
      | Raise e =>
          exists L',
            Lottery.init py_str pf rf af r_promo r_req r_actions verbose json L
            = Throw e L'
            /\ no_new_check L L'
      | Ok by_id =>
          exists V L',
            Lottery.init py_str pf rf af r_promo r_req r_actions verbose json L
            = Done V L'
            /\ no_new_check L L'
            /\ Lottery.requirements_by_action_id V = groups
            /\ Lottery.json_output V = json
      end
  end.
Proof.
  intros reqs acts. unfold Lottery.init.
  set (L1 := log_info _ (log_info _ (log_info _ (log_info _ (print_header _ L))))).
  assert (H1 : no_new_check L L1) by (split; reflexivity).
  destruct (_load_json LotteryRewards pf r_promo L1) as [p L2] eqn:E2.
  assert (H2 : no_new_check L L2).
  { destruct r_promo; injection E2 as <- <-; exact H1. }
  destruct (_load_csv LotteryRewards rf r_req L2) as [rows L3] eqn:E3.
  assert (H3 : no_new_check L L3 /\ rows = reqs).
  { destruct r_req; injection E3 as <- <-; split; try reflexivity; exact H2. }
  destruct H3 as [H3 ->].
  destruct (_load_json LotteryRewards af r_actions L3) as [a L4] eqn:E4.
  assert (H4 : no_new_check L L4 /\ a = acts).
  { destruct r_actions; injection E4 as <- <-; split; try reflexivity; exact H3. }
  destruct H4 as [H4 ->].
  pose proof (season_pass_no_check p L4) as H5.
  destruct (Lottery._get_season_pass_actions py_str p L4) as [spa L5].
  cbn [snd] in H5.
  set (L6 := match spa with Some s => _ | None => L5 end).
  assert (H6 : no_new_check L L6).
  { destruct H4 as [A1 A2], H5 as [B1 B2].
    subst L6. destruct spa as [s|]; [destruct (negb (s =? "")%string)|];
      split; cbn [total_checks failed_checks log_info add_log]; congruence. }
  destruct (Lottery.group_rows reqs None [] []) as [groups|e]; cbn [rbind].
  - destruct (iter acts) as [entries|e]; cbn [rbind].
    + destruct (Lottery.index_actions py_str entries []) as [by_id|e];
        cbn [rbind].
      * do 2 eexists. split; [reflexivity|]. split; [exact H6|].
        split; reflexivity.
      * eexists. split; [reflexivity | exact H6].
    + eexists. split; [reflexivity | exact H6].
  - eexists. split; [reflexivity | exact H6].
Qed.

Lemma lottery_validate_all_without_groups (V : Lottery.validator) (L : ledger) :
  Lottery.requirements_by_action_id V = [] ->
  Lottery.json_output V = true ->
  exists L',
    Lottery.validate_all py_str V L = Done tt L' /\ no_new_check L L'.
Proof.
  intros Hg Hj.
  unfold Lottery.validate_all, Lottery.validate_actions_presence,
    Lottery.validate_actions_content, Lottery.validate_need_action.
  rewrite Hg, Hj. cbn [map for_each]. unfold bind, act, ret.
  unfold Summary.print_summary.
  destruct (Lottery.season_pass_actions V) as [s|];
    [destruct (String.eqb s "")|];
    cbn [map for_each]; unfold ret;
    (eexists; split; [reflexivity | split; reflexivity]).
Qed.

End LotteryRunFacts.

(** X15. Under --json a lottery run with nothing to check reports success
    unless its constructor raises. When no row of the requirements table
    names an action (the table could not be read, or is empty, or every
    action cell is blank or missing), the run makes no check. Nothing
    escapes [main], and the process exits with status 0 whatever was
    logged as an error, exactly when every row has its action cell and the
    loop over the actions document does not raise; a line too short to
    have the action cell ends the run with [AttributeError] and status 1.
    (The same run without --json ends in the division by zero of the
    summary.) *)
Theorem lottery_json_run_without_groups_passes :
  forall (py_str : pyval -> string) (i : Lottery.run_input),
    Lottery.in_json i = true ->
    forallb names_no_action (rows_read i) = true ->
    let e := Lottery.main py_str i in
    total_checks (Lottery.at_exit e) = 0
    /\ failed_checks (Lottery.at_exit e) = 0
    /\ Lottery.status e = match Lottery.uncaught e with None => 0 | Some _ => 1 end
    /\ (Lottery.uncaught e = None <->
        existsb lacks_action_cell (rows_read i) = false
        /\ exists by_id,
             (entries <~ iter (actions_read i) ;;
              Lottery.index_actions py_str entries []) = Ok by_id)
    /\ (existsb lacks_action_cell (rows_read i) = true ->
        Lottery.uncaught e = Some AttributeError).
Proof.
  intros py_str i Hj Hrows e. subst e. unfold Lottery.main, bind.
  pose proof (lottery_init_spec py_str "promo.json" "requirements.csv"
                "actions.json" (Lottery.in_promo i) (Lottery.in_requirements i)
                (Lottery.in_actions i) (negb (Lottery.in_quiet i))
                (Lottery.in_json i) empty_ledger) as Hi.
  cbv zeta in Hi. fold (rows_read i) in Hi. fold (actions_read i) in Hi.
  rewrite (group_rows_naming_none _ [] Hrows) in Hi.
  destruct (existsb lacks_action_cell (rows_read i)).
  { destruct Hi as (L1 & -> & [Ht Hf]).
    cbn [Lottery.status Lottery.at_exit Lottery.uncaught].
    rewrite Ht, Hf.
    split; [reflexivity|]. split; [reflexivity|]. split; [reflexivity|].
    split; [|intros _; reflexivity].
    split; [intros H; discriminate H | intros [H _]; discriminate H]. }
  destruct (rbind (iter (actions_read i)) _) as [by_id|e].
  - destruct Hi as (V & L1 & -> & [Ht Hf] & Hg & Hjs).
    rewrite Hj in Hjs.
    destruct (lottery_validate_all_without_groups py_str V L1 Hg Hjs)
      as (L2 & -> & [Ht2 Hf2]).
    cbn [Lottery.status Lottery.at_exit Lottery.uncaught].
    destruct (save_report_keeps_counters "validation_report.csv"
                (Lottery.out_report i) L2) as (F1 & T1 & _).
    destruct (save_log_keeps_counters "validation_detailed.log"
                (Lottery.out_log i)
                (Lottery.save_report_to_csv "validation_report.csv"
                   (Lottery.out_report i) L2)) as (F2 & T2 & _).
    rewrite T2, T1, F2, F1, Ht2, Hf2, Ht, Hf.
    cbn [total_checks failed_checks empty_ledger Z.gtb Z.compare].
    split; [reflexivity|]. split; [reflexivity|]. split; [reflexivity|].
    split; [|intros H; discriminate H].
    split; [|reflexivity].
    intros _. split; [reflexivity|]. exists by_id. reflexivity.
  - destruct Hi as (L1 & -> & [Ht Hf]).
    cbn [Lottery.status Lottery.at_exit Lottery.uncaught].
    rewrite Ht, Hf.
    split; [reflexivity|]. split; [reflexivity|]. split; [reflexivity|].
    split; [|intros H; discriminate H].
    split; [intros H; discriminate H | intros [_ [by_id H]]; discriminate H].
Qed.

Lemma lottery_json_run_without_groups_passes_witness :
  (Lottery.status
     (Lottery.main (fun _ => "")
        {| Lottery.in_promo := Loaded (VDict [("awards", VList [])]);
           Lottery.in_requirements :=
             Loaded [full_row [("action", " "); ("type", "item");
                               ("count", "5")];
                     {| cells := [("action", Some ""); ("type", None);
                                  ("count", None)];
                        surplus := [] |}];
           Lottery.in_actions := Loaded (VList []);
           Lottery.in_quiet := false;
           Lottery.in_json := true;
           Lottery.out_report := Written;
           Lottery.out_log := Written |}) = 0)
  /\ Lottery.uncaught
       (Lottery.main (fun _ => "")
          {| Lottery.in_promo := Loaded (VDict [("awards", VList [])]);
             Lottery.in_requirements :=
               Loaded [{| cells := [("type", Some "item"); ("action", None)];
                          surplus := [] |}];
             Lottery.in_actions := Loaded (VList []);
             Lottery.in_quiet := false;
             Lottery.in_json := true;
             Lottery.out_report := Written;
             Lottery.out_log := Written |}) = Some AttributeError.
Proof.
  split.
  - destruct (lottery_json_run_without_groups_passes (fun _ => "")
                {| Lottery.in_promo := Loaded (VDict [("awards", VList [])]);
                   Lottery.in_requirements :=
                     Loaded [full_row [("action", " "); ("type", "item");
                                       ("count", "5")];
                             {| cells := [("action", Some ""); ("type", None);
                                          ("count", None)];
                                surplus := [] |}];
                   Lottery.in_actions := Loaded (VList []);
                   Lottery.in_quiet := false;
                   Lottery.in_json := true;
                   Lottery.out_report := Written;
                   Lottery.out_log := Written |} eq_refl eq_refl)
      as (_ & _ & Hs & _). rewrite Hs. reflexivity.
  - exact (proj2 (proj2 (proj2 (proj2
             (lottery_json_run_without_groups_passes (fun _ => "")
                {| Lottery.in_promo := Loaded (VDict [("awards", VList [])]);
                   Lottery.in_requirements :=
                     Loaded [{| cells := [("type", Some "item");
                                          ("action", None)];
                                surplus := [] |}];
                   Lottery.in_actions := Loaded (VList []);
                   Lottery.in_quiet := false;
                   Lottery.in_json := true;
                   Lottery.out_report := Written;
                   Lottery.out_log := Written |} eq_refl eq_refl)))) eq_refl).
Defined.

Section WildcardFacts.

Variable py_str : pyval -> string.

Lemma award_matches_relaxed (t c i t' c' i' : string) (awards : list pyval) :
  relaxed t' t -> relaxed c' c -> relaxed i' i ->
  Lottery.award_matches py_str t c i awards = Ok true ->
  Lottery.award_matches py_str t' c' i' awards = Ok true.
Proof.
  intros Ht Hc Hi.
  induction awards as [|award rest IH]; cbn [Lottery.award_matches];
    [discriminate|].
  destruct (get_or "type" (VStr "") award) as [award_type|e]; [|discriminate].
  cbn [rbind].
  destruct (get_or "count" (VStr "") award) as [cnt|e]; [|discriminate].
  cbn [rbind].
  destruct (Lottery.lower_of award_type) as [low|e]; [|discriminate].
  cbn [rbind].
  destruct (if String.eqb low "buff"
            then get_or "id" (VStr "") award
            else get_or "itemId" (VStr "") award) as [raw_id|e]; [|discriminate].
  cbn [rbind].
  destruct ((String.eqb t "" || String.eqb low (lower t))
            && (String.eqb c "" || String.eqb (py_str cnt) c)
            && (String.eqb i "" || String.eqb (py_str raw_id) i)) eqn:Hm.
  - intros _. apply andb_prop in Hm. destruct Hm as [Hm Hm3].
    apply andb_prop in Hm. destruct Hm as [Hm1 Hm2].
    assert (H1 : String.eqb t' "" || String.eqb low (lower t') = true).
    { destruct Ht as [-> | ->]; [reflexivity | exact Hm1]. }
    assert (H2 : String.eqb c' "" || String.eqb (py_str cnt) c' = true).
    { destruct Hc as [-> | ->]; [reflexivity | exact Hm2]. }
    assert (H3 : String.eqb i' "" || String.eqb (py_str raw_id) i' = true).
    { destruct Hi as [-> | ->]; [reflexivity | exact Hm3]. }
    rewrite H1, H2, H3. reflexivity.
  - intros H. specialize (IH H).
    destruct ((String.eqb t' "" || String.eqb low (lower t'))
              && (String.eqb c' "" || String.eqb (py_str cnt) c')
              && (String.eqb i' "" || String.eqb (py_str raw_id) i'));
      [reflexivity | exact IH].
Qed.

Lemma packet_matches_relaxed (t c i t' c' i' p : string) (packets : list pyval) :
  relaxed t' t -> relaxed c' c -> relaxed i' i ->
  Lottery.packet_matches py_str t c i p packets = Ok true ->
  Lottery.packet_matches py_str t' c' i' p packets = Ok true.
Proof.
  intros Ht Hc Hi.
  induction packets as [|packet rest IH]; cbn [Lottery.packet_matches];
    [discriminate|].
  destruct (get_or "probability" (VStr "") packet) as [prob|e]; [|discriminate].
  cbn [rbind].
  destruct (get_or "awards" (VList []) packet) as [awards|e]; [|discriminate].
  cbn [rbind].
  destruct (String.eqb (py_str prob) p); [|exact IH].
  destruct (iter awards) as [entries|e]; [|discriminate].
  cbn [rbind].
  destruct (Lottery.award_matches py_str t c i entries) as [[|]|e] eqn:Hm;
    cbn [rbind]; [| |discriminate].
  - intros _.
    rewrite (award_matches_relaxed t c i t' c' i' entries Ht Hc Hi Hm).
    reflexivity.
  - intros H. specialize (IH H).
    destruct (Lottery.award_matches py_str t' c' i' entries) as [[|]|e'] eqn:Hm';
      cbn [rbind]; [reflexivity | exact IH |].
    (* the relaxed search walks the same awards, so it cannot raise where
       the stricter one did not *)
    exfalso. clear - Hm Hm'.
    revert Hm Hm'. induction entries as [|award entries IHe];
      cbn [Lottery.award_matches]; [discriminate|].
    destruct (get_or "type" (VStr "") award) as [award_type|e0]; [|discriminate].
    cbn [rbind].
    destruct (get_or "count" (VStr "") award) as [cnt|e0]; [|discriminate].
    cbn [rbind].
    destruct (Lottery.lower_of award_type) as [low|e0]; [|discriminate].
    cbn [rbind].
    destruct (if String.eqb low "buff"
              then get_or "id" (VStr "") award
              else get_or "itemId" (VStr "") award) as [raw_id|e0];
      [|discriminate].
    cbn [rbind].
    destruct ((String.eqb t "" || String.eqb low (lower t))
              && (String.eqb c "" || String.eqb (py_str cnt) c)
              && (String.eqb i "" || String.eqb (py_str raw_id) i));
      [discriminate|].
    destruct ((String.eqb t' "" || String.eqb low (lower t'))
              && (String.eqb c' "" || String.eqb (py_str cnt) c')
              && (String.eqb i' "" || String.eqb (py_str raw_id) i'));
      [discriminate | exact IHe].
Qed.

End WildcardFacts.

(** X16. A blank cell of a lottery requirement is a wildcard, and only
    relaxes the search. If the reward asked for by a row is found among
    the packets of an action, it is still found when the type, the count
    or the item id of the row is left blank (the probability being the
    same): blanking a cell never turns a passed reward check into a
    failed one, nor into an exception. *)
Theorem lottery_blank_cells_relax_the_search :
  forall (py_str : pyval -> string) (t c i t' c' i' probability : string)
         (packets : list pyval),
    relaxed t' t -> relaxed c' c -> relaxed i' i ->
    Lottery.packet_matches py_str t c i probability packets = Ok true ->
    Lottery.packet_matches py_str t' c' i' probability packets = Ok true.
Proof.
  intros py_str t c i t' c' i' probability packets.
  apply packet_matches_relaxed.
Qed.

Lemma lottery_blank_cells_relax_the_search_witness :
  Lottery.packet_matches (fun v => match v with
                                   | VInt 5 => "5"
                                   | VInt 25 => "25"
                                   | _ => "17909"
                                   end)
    "" "5" "" "25"
    [VDict [("probability", VInt 25);
            ("awards", VList [VDict [("type", VStr "Item"); ("count", VInt 5);
                                     ("itemId", VInt 17909)]])]]
  = Ok true.
Proof.
  apply (lottery_blank_cells_relax_the_search _ "item" "5" "17909" "" "5" "" "25").
  - left. reflexivity.
  - right. reflexivity.
  - left. reflexivity.
  - reflexivity.
Defined.

(* ================================================================== *)
(** * Further properties of rfm-offers and main-reward-lines           *)
(* ================================================================== *)

Section RaisingLoopFacts.

(** A loop whose body logs one check at each turn until it raises. *)
Lemma for_each_until {A} (body : A -> M unit) (before : list A) (x : A)
    (after : list A) (e : exn) :
  Forall (fun y => forall L, exists L',
              body y L = Done tt L'
              /\ total_checks L' = total_checks L + 1) before ->
  (forall L, body x L = Throw e L) ->
  forall L, exists L',
    for_each (before ++ x :: after) body L = Throw e L'
    /\ total_checks L' = total_checks L + Z.of_nat (List.length before).
Proof.
  intros Hb Hx. induction Hb as [|y before Hy Hb IH]; intros L;
    cbn [app for_each]; unfold bind.
  - rewrite Hx. exists L. split; [reflexivity | cbn; lia].
  - destruct (Hy L) as (L1 & -> & Ht).
    destruct (IH L1) as (L2 & -> & Ht2).
    exists L2. split; [reflexivity|]. rewrite Ht2, Ht. cbn [List.length]. lia.
Qed.

End RaisingLoopFacts.

(** X17. The first phase of rfm-offers parses the action cell of every
    offer with [int] and catches nothing. A record that has an offer name
    and an action cell that is not an integer (an empty cell is one) is
    indexed like any other, and at its turn the phase raises [ValueError]:
    the checks of the offers before it stay recorded and the run goes no
    further. *)
Theorem rfm_phase_one_raises_on_bad_action :
  (forall req a,
      assoc "action" req = Some a -> int_of_str a = None ->
      RfmOffersChecks.action_of req = Raise ValueError)
  /\ RfmOffersChecks.index_by_offer [[("offer", "rfm1"); ("action", "")]]
     = [("rfm1", [("offer", "rfm1"); ("action", "")])]
  /\ (forall (V : RfmOffersChecks.validator) (L : ledger) before offer_name
             req after,
         RfmOffersChecks.requirements_by_offer V
         = before ++ (offer_name, req) :: after ->
         Forall (fun item => exists n,
                     RfmOffersChecks.action_of (snd item) = Ok n) before ->
         RfmOffersChecks.action_of req = Raise ValueError ->
         exists L',
           RfmOffersChecks.validate_action_ids_in_actions V L
           = Throw ValueError L'
           /\ total_checks L'
              = total_checks L + Z.of_nat (List.length before)).
Proof.
  split; [|split].
  - intros req a Ha Hi. unfold RfmOffersChecks.action_of. rewrite Ha, Hi.
    reflexivity.
  - reflexivity.
  - intros V L before offer_name req after HV Hbefore Hreq.
    unfold RfmOffersChecks.validate_action_ids_in_actions. rewrite HV.
    unfold bind at 1. unfold act at 1.
    match goal with
    | |- context [for_each _ ?b _] => set (body := b)
    end.
    destruct (for_each_until body before (offer_name, req) after ValueError)
      with (L := start_phase RfmOffers
                   "ПРОВЕРКА НАЛИЧИЯ ACTION ID В ACTIONS.JSON" L)
      as (L' & He & Ht).
    + eapply Forall_impl; [|exact Hbefore].
      intros [name r] [n Hn] L1. subst body. cbn [snd] in Hn.
      unfold bind, lift, act. rewrite Hn. cbv zeta.
      eexists. split; [reflexivity | apply total_log_check].
    + intros L1. subst body. unfold bind, lift. rewrite Hreq. reflexivity.
    + exists L'. split; [exact He|]. rewrite Ht.
      destruct (results_start_phase RfmOffers
                  "ПРОВЕРКА НАЛИЧИЯ ACTION ID В ACTIONS.JSON" L) as [_ ->].
      reflexivity.
Qed.

Lemma rfm_phase_one_raises_on_bad_action_witness :
  let V := {| RfmOffersChecks.requirements_by_offer :=
                RfmOffersChecks.index_by_offer
                  [[("offer", "rfm0"); ("action", "7001")];
                   [("offer", "rfm1"); ("action", "")];
                   [("offer", "rfm2"); ("action", "7002")]];
              RfmOffersChecks.actions_by_id := [(7001, VDict [])] |} in
  exists L',
    RfmOffersChecks.validate_action_ids_in_actions V empty_ledger
    = Throw ValueError L'
    /\ total_checks L' = 1.
Proof.
  intros V.
  destruct (proj2 (proj2 rfm_phase_one_raises_on_bad_action) V empty_ledger
              [("rfm0", [("offer", "rfm0"); ("action", "7001")])]
              "rfm1" [("offer", "rfm1"); ("action", "")]
              [("rfm2", [("offer", "rfm2"); ("action", "7002")])]
              eq_refl)
    as (L' & He & Ht).
  - constructor; [exists 7001; reflexivity | constructor].
  - reflexivity.
  - exists L'. split; [exact He | exact Ht].
Defined.

Section HasItemsFacts.

Import RfmOffersChecks.

Variable find : pyval -> pyval.

Lemma first_in_list_found (l : list pyval) :
  Forall (fun x => found_in x (find x)) l ->
  match first_in_list find l with
  | Some r =>
      truthy r = true
      /\ exists x items,
           In x l /\ nested (VDict items) x /\ assoc "hasItems" items = Some r
  | None => True
  end.
Proof.
  induction l as [|item rest IH]; intros H; cbn [first_in_list]; [exact I|].
  inversion H as [|x l' Hx Hrest]; subst. specialize (IH Hrest).
  assert (Hskip : match first_in_list find rest with
                  | Some r =>
                      truthy r = true
                      /\ exists x items,
                           In x (item :: rest) /\ nested (VDict items) x
                           /\ assoc "hasItems" items = Some r
                  | None => True
                  end).
  { destruct (first_in_list find rest) as [r|]; [|exact I].
    destruct IH as (Ht & x & items & Hin & Hn & Ha).
    split; [exact Ht|]. exists x, items. split; [right; exact Hin|].
    split; assumption. }
  destruct item; try exact Hskip.
  cbv zeta. destruct (truthy (find (VDict d))) eqn:Ht; [|exact Hskip].
  split; [exact Ht|].
  destruct Hx as [E | (items & Hn & Ha)].
  - rewrite E in Ht. discriminate Ht.
  - exists (VDict d), items. split; [left; reflexivity|]. split; assumption.
Qed.

Lemma first_in_items_found (l : list (string * pyval)) :
  Forall (fun kv => found_in (snd kv) (find (snd kv))
                    /\ match snd kv with
                       | VList elements =>
                           Forall (fun x => found_in x (find x)) elements
                       | _ => True
                       end) l ->
  let r := first_in_items find l in
  r = VNone
  \/ (truthy r = true
      /\ exists k v items,
           In (k, v) l /\ nested (VDict items) v
           /\ assoc "hasItems" items = Some r).
Proof.
  induction l as [|[k v] rest IH]; intros H; cbn [first_in_items];
    [left; reflexivity|].
  inversion H as [|x l' [Hv Hl] Hrest]; subst. cbn [snd] in Hv, Hl.
  specialize (IH Hrest). cbv zeta in IH.
  assert (Hskip : first_in_items find rest = VNone
                  \/ (truthy (first_in_items find rest) = true
                      /\ exists k0 v0 items,
                           In (k0, v0) ((k, v) :: rest)
                           /\ nested (VDict items) v0
                           /\ assoc "hasItems" items
                              = Some (first_in_items find rest))).
  { destruct IH as [E | (Ht & k0 & v0 & items & Hin & Hn & Ha)];
      [left; exact E | right].
    split; [exact Ht|]. exists k0, v0, items. split; [right; exact Hin|].
    split; assumption. }
  destruct v; try exact Hskip.
  - pose proof (first_in_list_found l Hl) as Hf.
    destruct (first_in_list find l) as [r|]; [|exact Hskip].
    destruct Hf as (Ht & x & items & Hin & Hn & Ha).
    right. split; [exact Ht|].
    exists k, (VList l), items. split; [left; reflexivity|].
    split; [|exact Ha]. eapply nested_in_list; eassumption.
  - cbv zeta. destruct (truthy (find (VDict d))) eqn:Ht; [|exact Hskip].
    right. split; [exact Ht|].
    destruct Hv as [E | (items & Hn & Ha)].
    + rewrite E in Ht. discriminate Ht.
    + exists k, (VDict d), items. split; [left; reflexivity|].
      split; assumption.
Qed.

End HasItemsFacts.

Lemma find_has_items_spec (d : pyval) : has_items_spec d.
Proof.
  apply (pyval_nested_ind has_items_spec); unfold has_items_spec;
    try (intros; split; [left; reflexivity | reflexivity]).
  - intros l Hl. split; [left; reflexivity|]. split; [reflexivity|].
    eapply Forall_impl; [|exact Hl]. intros x [Hx _]. exact Hx.
  - intros items Hitems.
    cbn [RfmOffersChecks._find_hasItems_in_dict].
    destruct (assoc "hasItems" items) as [found|] eqn:Ha.
    + split; [|reflexivity]. right. exists items.
      split; [constructor | exact Ha].
    + destruct (first_in_items_found RfmOffersChecks._find_hasItems_in_dict
                  items)
        as [E | (Ht & k & v & items' & Hin & Hn & Ha')].
      * eapply Forall_impl; [|exact Hitems].
        intros [k v] [Hf Hm]. cbn [snd] in Hf, Hm |- *. split; [exact Hf|].
        destruct v; try exact I. exact (proj2 Hm).
      * split; left; exact E.
      * split; [|right; exact Ht]. right. exists items'.
        split; [|exact Ha']. eapply nested_in_dict; eassumption.
Qed.

(** X18. What [_find_hasItems_in_dict] of rfm-offers returns is nothing or
    a "hasItems" entry that is really there: either [None], or the value
    of the key "hasItems" in the dict itself or in a dict nested in it. A
    dict that has the key gives its own entry, whatever its value, and
    what lies deeper is not searched; a dict that has not gives [None] or
    a value with a true truth value, an empty or null entry of a nested
    dict being passed over; anything that is not a dict gives [None]. *)
Theorem find_has_items_is_sound :
  forall d : pyval,
    found_in d (RfmOffersChecks._find_hasItems_in_dict d)
    /\ match d with
       | VDict items =>
           match assoc "hasItems" items with
           | Some found => RfmOffersChecks._find_hasItems_in_dict d = found
           | None =>
               RfmOffersChecks._find_hasItems_in_dict d = VNone
               \/ truthy (RfmOffersChecks._find_hasItems_in_dict d) = true
           end
       | _ => RfmOffersChecks._find_hasItems_in_dict d = VNone
       end.
Proof.
  intros d. destruct (find_has_items_spec d) as [Hf Hm].
  split; [exact Hf|].
  destruct d; try exact Hm. exact (proj1 Hm).
Qed.

(** X19. In main-reward-lines the check that a free action asks for no
    resource is never made. When the needResources cell of the requirement
    is empty, the block walks the resources of the action and then
    compares the empty cell with "0", so it logs nothing: the ledger it
    leaves is the one it started from, whether it returns or raises. When
    the cell is a 0, the other branch is taken, which logs one line of
    information and no check. A cell that is not an integer raises
    [ValueError] before anything is logged. *)
Theorem reward_lines_absence_check_never_runs :
  forall (action_id : Z) (action : pyval) (requirement : row) (L : ledger),
    let cell := row_get "needResources (17886)" requirement in
    let o := MainRewardLinesChecks.check_need_resources action_id action
               requirement L in
    (cell = "" -> final_ledger o = L)
    /\ (cell <> "" -> int_of_str cell = Some 0 ->
        exists L', o = Done tt L' /\ no_new_check L L' /\ results L' = results L)
    /\ (cell <> "" -> int_of_str cell = None -> o = Throw ValueError L).
Proof.
  intros action_id action requirement L cell o. subst o.
  unfold MainRewardLinesChecks.check_need_resources. fold cell.
  split; [|split].
  - intros ->. cbn [String.eqb negb]. unfold bind, lift, ret.
    destruct (get_or "needResources" (VList []) action) as [res|e];
      [|reflexivity].
    destruct (iter res) as [entries|e]; [|reflexivity].
    destruct (MainRewardLinesChecks.find_need_resource entries) as [found|e];
      reflexivity.
  - intros Hne Hi. destruct (String.eqb_spec cell ""); [contradiction|].
    cbn [negb]. rewrite Hi. cbn [Z.eqb]. unfold act.
    eexists. split; [reflexivity|]. split; [split; reflexivity|].
    unfold log_info. rewrite results_add_log. apply app_nil_r.
  - intros Hne Hi. destruct (String.eqb_spec cell ""); [contradiction|].
    cbn [negb]. rewrite Hi. reflexivity.
Qed.

Lemma reward_lines_absence_check_never_runs_witness :
  final_ledger
    (MainRewardLinesChecks.check_need_resources 3001
       (VDict [("needResources",
                VList [VDict [("type", VStr "item"); ("itemId", VInt 17886);
                              ("count", VInt 4)]])])
       [("action_free", "3001"); ("needResources (17886)", "")]
       empty_ledger)
  = empty_ledger.
Proof.
  exact (proj1 (reward_lines_absence_check_never_runs 3001
                  (VDict [("needResources",
                           VList [VDict [("type", VStr "item");
                                         ("itemId", VInt 17886);
                                         ("count", VInt 4)]])])
                  [("action_free", "3001"); ("needResources (17886)", "")]
                  empty_ledger) eq_refl).
Defined.

(* ================================================================== *)
(** * The reward phase of shop-offers                                  *)
(* ================================================================== *)

Section AccountFacts.

Lemma accounted_refl (L : ledger) : accounted 0 L L.
Proof. unfold accounted. lia. Qed.

Lemma accounted_trans (a b : Z) (L1 L2 L3 : ledger) :
  accounted a L1 L2 -> accounted b L2 L3 -> accounted (a + b) L1 L3.
Proof. unfold accounted. lia. Qed.

Lemma accounted_check v k n r ex ac d t (L : ledger) :
  accounted 1 L (log_check v k n r ex ac d t L).
Proof. unfold accounted, log_check. destruct r; cbn; lia. Qed.

Lemma accounted_warning v m k (L : ledger) :
  accounted 1 L (log_warning v m k L).
Proof.
  unfold accounted, log_warning. destruct (files_notes v k); cbn; lia.
Qed.

Lemma accounted_phase v p (L : ledger) : accounted 0 L (start_phase v p L).
Proof. unfold accounted, start_phase, print_header. destruct v; cbn; lia. Qed.

Lemma for_each_accounted {A} (body : A -> M unit) (f : A -> Z) (xs : list A) :
  (forall x, In x xs -> forall L, exists L',
      body x L = Done tt L' /\ accounted (f x) L L') ->
  forall L, exists L',
    for_each xs body L = Done tt L' /\ accounted (total_of f xs) L L'.
Proof.
  induction xs as [|x xs IH]; intros Hbody L; cbn [for_each total_of fold_right].
  - exists L. split; [reflexivity | apply accounted_refl].
  - unfold bind. destruct (Hbody x (or_introl eq_refl) L) as (L1 & -> & H1).
    destruct (IH (fun y Hy => Hbody y (or_intror Hy)) L1) as (L2 & -> & H2).
    exists L2. split; [reflexivity|].
    eapply accounted_trans; eassumption.
Qed.

Lemma total_of_filter {A} (p : A -> bool) (xs : list A) :
  total_of (fun x => if p x then 1 else 0) xs
  = Z.of_nat (List.length (filter p xs)).
Proof.
  induction xs as [|x xs IH]; cbn [total_of fold_right filter]; [reflexivity|].
  fold (total_of (fun x => if p x then 1 else 0) xs). rewrite IH.
  destruct (p x); cbn [List.length]; lia.
Qed.

Lemma find_item_of_dicts (entries : list pyval) (item_id : Z) :
  forallb is_dict entries = true ->
  exists found, ShopOffers.find_item entries item_id = Ok found.
Proof.
  induction entries as [|award rest IH]; cbn [forallb ShopOffers.find_item].
  - intros _. eexists. reflexivity.
  - intros H. apply andb_prop in H as [Hd Hrest].
    destruct award; try discriminate Hd.
    cbn. destruct (eq_str _ "item"); [|apply IH, Hrest].
    destruct (eq_int _ item_id); [eexists; reflexivity | apply IH, Hrest].
Qed.

Lemma award_column_accounted (action_id : Z) (awards : pyval)
    (col : string * string) (L : ledger) :
  list_of_dicts awards = true ->
  exists L',
    ShopOffers.check_award_column action_id awards col L = Done tt L'
    /\ accounted (if reward_cell "Award_" col then 1 else 0) L L'.
Proof.
  intros Hd. destruct col as [column value].
  unfold ShopOffers.check_award_column, reward_cell. cbn [fst snd].
  destruct (String.eqb value ""); cbn [negb andb orb].
  { exists L. split; [reflexivity | apply accounted_refl]. }
  destruct (startswith "Award_" column); cbn [negb].
  2:{ exists L. split; [reflexivity | apply accounted_refl]. }
  assert (Hw : forall m, exists L',
             act (log_warning ShopOffers m (KInt action_id)) L = Done tt L'
             /\ accounted 1 L L').
  { intros m. eexists. split; [reflexivity | apply accounted_warning]. }
  destruct (split_on "(" column) as [|p0 [|p1 [|p2 ps]]]; try apply Hw.
  destruct (int_of_str (remove_char ")" p1)) as [item_id|]; [|apply Hw].
  destruct (int_of_str value) as [expected_count|]; [|apply Hw].
  destruct awards as [| | | | | l | ]; try discriminate Hd.
  cbn in Hd. destruct (find_item_of_dicts l item_id Hd) as (found & Hf).
  unfold bind, lift, act. cbn [iter]. rewrite Hf.
  eexists. split; [reflexivity | apply accounted_check].
Qed.

Lemma need_column_accounted (action_id : Z) (need_resources : pyval)
    (col : string * string) (L : ledger) :
  list_of_dicts need_resources = true ->
  exists L',
    ShopOffersChecks.check_need_column action_id need_resources col L = Done tt L'
    /\ accounted (if reward_cell "NeedResources" col then 1 else 0) L L'.
Proof.
  intros Hd. destruct col as [column value].
  unfold ShopOffersChecks.check_need_column, reward_cell. cbn [fst snd].
  destruct (String.eqb value ""); cbn [negb andb orb].
  { exists L. split; [reflexivity | apply accounted_refl]. }
  destruct (startswith "NeedResources" column); cbn [negb].
  2:{ exists L. split; [reflexivity | apply accounted_refl]. }
  assert (Hw : forall m, exists L',
             act (log_warning ShopOffers m (KInt action_id)) L = Done tt L'
             /\ accounted 1 L L').
  { intros m. eexists. split; [reflexivity | apply accounted_warning]. }
  destruct (split_on "(" column) as [|p0 [|p1 [|p2 ps]]]; try apply Hw.
  destruct (int_of_str (remove_char ")" p1)) as [item_id|]; [|apply Hw].
  destruct (int_of_str value) as [expected_count|]; [|apply Hw].
  destruct need_resources as [| | | | | l | ]; try discriminate Hd.
  cbn in Hd. destruct (find_item_of_dicts l item_id Hd) as (found & Hf).
  unfold bind, lift, act. cbn [iter]. rewrite Hf.
  eexists. split; [reflexivity | apply accounted_check].
Qed.

Lemma lookup_action_spec (action_id : Z) (actions : list (Z * pyval)) :
  match ShopOffersChecks.lookup_action action_id actions with
  | Some action => in_actions action_id actions = true
                   /\ In (action_id, action) actions
  | None => in_actions action_id actions = false
  end.
Proof.
  unfold ShopOffersChecks.lookup_action, in_actions.
  induction actions as [|[k a] rest IH]; cbn [find existsb fst]; [reflexivity|].
  destruct (Z.eqb_spec k action_id) as [->|Hne]; cbn [option_map snd orb].
  - split; [reflexivity | left; reflexivity].
  - destruct (find _ rest) as [[k' a']|]; cbn [option_map snd] in IH |- *.
    + destruct IH as [H1 H2]. split; [exact H1 | right; exact H2].
    + exact IH.
Qed.

Lemma for_each_raises {A} (body : A -> M unit) (e : exn) (stop : A -> bool)
    (xs : list A) :
  (forall x L, if stop x then exists L', body x L = Throw e L'
               else exists L', body x L = Done tt L') ->
  existsb stop xs = true ->
  forall L, exists L', for_each xs body L = Throw e L'.
Proof.
  intros Hbody. induction xs as [|x xs IH]; cbn [existsb for_each];
    [discriminate|].
  intros H L. unfold bind. specialize (Hbody x L).
  destruct (stop x); cbn [orb] in H.
  - destruct Hbody as [L' ->]. exists L'. reflexivity.
  - destruct Hbody as [L' ->]. apply IH, H.
Qed.

Lemma for_items_accounted (req : csv_row) (body : string * string -> M unit)
    (p : string) (L : ledger) :
  (forall col L0, exists L',
      body col L0 = Done tt L'
      /\ accounted (if reward_cell p col then 1 else 0) L0 L') ->
  exists L',
    accounted (Z.of_nat (List.length (filter (filled_cell p) (cells req)))) L L'
    /\ ShopOffersChecks.for_items req body L
       = match surplus req with
         | [] => Done tt L'
         | _ :: _ => Throw AttributeError L'
         end.
Proof.
  intros Hbody. unfold ShopOffersChecks.for_items.
  match goal with
  | |- context [for_each _ ?b] => set (each := b)
  end.
  destruct (for_each_accounted each
              (fun item => if filled_cell p item then 1 else 0) (cells req))
    with (L := L) as (L1 & Hrun & Hacc).
  { intros [column [value|]] _ L0; subst each; unfold filled_cell; cbn [fst snd].
    - apply Hbody.
    - exists L0. split; [reflexivity | apply accounted_refl]. }
  rewrite total_of_filter in Hacc.
  exists L1. split; [exact Hacc|].
  unfold bind. rewrite Hrun. destruct (surplus req); reflexivity.
Qed.

End AccountFacts.

(** X20. The reward phase of shop-offers answers for every cell it looks
    at, and stops at a line that is too long. When the actions of the file
    are dicts whose awards and needResources are lists of dicts and no
    indexed record of an action of the file comes from a line with more
    cells than the header, the phase does not raise, and checks and
    warnings together grow by one for each indexed id that the actions
    file lacks and, for each of the others, by one for each filled Award_
    cell and each filled NeedResources cell of its record: a cell whose
    column name or value cannot be read gives a warning in place of a
    check, a cell that is missing gives nothing, and none that is filled
    is passed over in silence. When some such record does come from a line
    that is too long, the phase raises [AttributeError] on the cells left
    over. *)
Theorem shop_reward_cells_are_accounted :
  forall (requirements_by_action_id : list (Z * csv_row))
         (actions_by_id : list (Z * pyval)) (L : ledger),
    Forall (fun kv => plain_action (snd kv) = true) actions_by_id ->
    if existsb (overlong actions_by_id) requirements_by_action_id
    then exists L',
           ShopOffersChecks.validate_action_rewards requirements_by_action_id
             actions_by_id L = Throw AttributeError L'
    else exists L',
           ShopOffersChecks.validate_action_rewards requirements_by_action_id
             actions_by_id L = Done tt L'
           /\ accounted (total_of (to_account actions_by_id)
                                  requirements_by_action_id) L L'.
Proof.
  intros idx actions L Hplain.
  unfold ShopOffersChecks.validate_action_rewards.
  unfold bind at 1. unfold act at 1.
  match goal with
  | |- context [for_each _ ?b ?L0] => set (body := b); set (L1 := L0)
  end.
  assert (Hbody : forall item L2,
             if overlong actions item
             then exists L', body item L2 = Throw AttributeError L'
             else exists L', body item L2 = Done tt L'
                             /\ accounted (to_account actions item) L2 L').
  { intros [action_id req] L2. subst body. cbv beta iota.
    unfold overlong, to_account. cbn [fst snd].
    pose proof (lookup_action_spec action_id actions) as Hl.
    destruct (ShopOffersChecks.lookup_action action_id actions) as [action|].
    - destruct Hl as [Hin Hmem]. rewrite Hin. cbn [andb].
      rewrite Forall_forall in Hplain. specialize (Hplain _ Hmem).
      cbn [snd] in Hplain. unfold plain_action in Hplain.
      destruct (get_or "awards" (VList []) action) as [awards|] eqn:Ha;
        [|discriminate Hplain].
      destruct (get_or "needResources" (VList []) action) as [need|] eqn:Hn;
        [|discriminate Hplain].
      apply andb_prop in Hplain as [Hda Hdn].
      destruct (for_items_accounted req
                  (ShopOffers.check_award_column action_id awards) "Award_" L2)
        as (L3 & H3 & E3).
      { intros col L0. apply award_column_accounted, Hda. }
      destruct (for_items_accounted req
                  (ShopOffersChecks.check_need_column action_id need)
                  "NeedResources" L3)
        as (L4 & H4 & E4).
      { intros col L0. apply need_column_accounted, Hdn. }
      unfold bind, lift. cbv beta iota. rewrite E3.
      destruct (surplus req) as [|c cs].
      + exists L4. rewrite E4. split; [reflexivity|].
        unfold reward_cells. eapply accounted_trans; eassumption.
      + exists L3. reflexivity.
    - rewrite Hl. cbn [andb].
      eexists. split; [reflexivity | apply accounted_warning]. }
  destruct (existsb (overlong actions) idx) eqn:Hlong.
  - apply (for_each_raises body AttributeError (overlong actions) idx);
      [|exact Hlong].
    intros x L2. specialize (Hbody x L2).
    destruct (overlong actions x); [exact Hbody|].
    destruct Hbody as (L' & HL' & _). exists L'. exact HL'.
  - destruct (for_each_accounted body (to_account actions) idx) with (L := L1)
      as (L' & Hrun & Hacc).
    + intros x Hx L2. specialize (Hbody x L2).
      assert (Hx' : overlong actions x = false).
      { destruct (overlong actions x) eqn:E; [|reflexivity].
        assert (existsb (overlong actions) idx = true)
          by (apply existsb_exists; exists x; split; assumption).
        congruence. }
      rewrite Hx' in Hbody. exact Hbody.
    + exists L'. split; [exact Hrun|].
      subst L1. pose proof (accounted_phase ShopOffers
                              "ПРОВЕРКА НАГРАД В ЭКШЕНАХ" L) as H0.
      unfold accounted in *. lia.
Qed.

Lemma shop_reward_cells_are_accounted_witness :
  (exists L',
      ShopOffersChecks.validate_action_rewards
        [(1001, {| cells := [("Action", Some "1001");
                             ("Award_points(17909)", Some "5");
                             ("Award_techitem", Some "1");
                             ("NeedResources(17907)", Some "x");
                             ("Price", None)];
                   surplus := [] |});
         (1002, full_row [("Action", "1002"); ("Award_points(17909)", "7")])]
        [(1001, VDict [("id", VInt 1001);
                       ("awards",
                        VList [VDict [("type", VStr "item");
                                      ("itemId", VInt 17909);
                                      ("count", VInt 5)]])])]
        empty_ledger = Done tt L'
      /\ total_checks L' + warning_checks L' = 4)
  /\ (exists L',
         ShopOffersChecks.validate_action_rewards
           [(1001, {| cells := [("Action", Some "1001");
                                ("Award_points(17909)", Some "5")];
                      surplus := ["4.99"] |})]
           [(1001, VDict [("id", VInt 1001)])]
           empty_ledger = Throw AttributeError L'
         /\ total_checks L' = 1).
Proof.
  split.
  - destruct (shop_reward_cells_are_accounted
                [(1001, {| cells := [("Action", Some "1001");
                                     ("Award_points(17909)", Some "5");
                                     ("Award_techitem", Some "1");
                                     ("NeedResources(17907)", Some "x");
                                     ("Price", None)];
                           surplus := [] |});
                 (1002, full_row [("Action", "1002");
                                  ("Award_points(17909)", "7")])]
                [(1001, VDict [("id", VInt 1001);
                               ("awards",
                                VList [VDict [("type", VStr "item");
                                              ("itemId", VInt 17909);
                                              ("count", VInt 5)]])])]
                empty_ledger)
      as (L' & Hrun & Hacc).
    + repeat constructor.
    + exists L'. split; [exact Hrun | exact Hacc].
  - destruct (shop_reward_cells_are_accounted
                [(1001, {| cells := [("Action", Some "1001");
                                     ("Award_points(17909)", Some "5")];
                           surplus := ["4.99"] |})]
                [(1001, VDict [("id", VInt 1001)])]
                empty_ledger)
      as (L' & Hrun).
    + repeat constructor.
    + exists L'. split; [exact Hrun|].
      vm_compute in Hrun. injection Hrun as <-. reflexivity.
Defined.

(* ================================================================== *)
(** * The summary                                                      *)
(* ================================================================== *)

(** X21. The summary only reads the ledger. In each of the six validators
    [print_summary] leaves the counters, the lists of errors and warnings
    and the per-subject map as it found them, whether it returns or
    raises, so what is decided after it (the report, the exit status) is
    decided on the numbers of the run; and it raises in one case only, the
    lottery validator printing to the console with no check recorded. *)
Theorem summary_only_reads_the_ledger :
  forall (v : variant) (json_output : bool) (L : ledger),
    only_logged L (final_ledger (Summary.print_summary v json_output L))
    /\ (returns (Summary.print_summary v json_output L) = false
        <-> v = LotteryRewards /\ json_output = false /\ total_checks L = 0).
Proof.
  intros v json_output L. split; [|apply summary_returns_iff].
  destruct v.
  - unfold Summary.print_summary. cbn [final_ledger].
    match goal with
    | |- only_logged L (if _ then print_header _ ?X else _) =>
        assert (H : only_logged L X)
    end.
    { eapply only_logged_trans; [apply only_logged_add_log|].
      apply only_logged_infos. }
    destruct (failed_checks L >? 0); [|exact H].
    eapply only_logged_trans; [exact H | apply only_logged_add_log].
  - unfold Summary.print_summary. cbn [final_ledger].
    match goal with
    | |- only_logged L (if _ then print_header _ ?X else _) =>
        assert (H : only_logged L X)
    end.
    { eapply only_logged_trans; [apply only_logged_add_log|].
      apply only_logged_infos. }
    destruct (failed_checks L >? 0); [|exact H].
    eapply only_logged_trans; [exact H | apply only_logged_add_log].
  - apply only_logged_add_log.
  - apply only_logged_add_log.
  - unfold Summary.print_summary.
    destruct json_output; [apply only_logged_add_log|].
    destruct (Summary.ratio (passed_checks L) (total_checks L));
      [|apply only_logged_add_log].
    destruct (Summary.ratio (failed_checks L) (total_checks L));
      apply only_logged_add_log.
  - destruct (end_news_summary_only_logs json_output L) as (L' & -> & H).
    exact H.
Qed.
